(** * The evaluation runner of opinionated-next ([scripts/run-evals.ts])

    A shallow embedding of the script: the working tree, the module-level
    handle of the d3k process and the log of external commands form the
    state; everything the script reads from outside (command results, the
    evals cache, the clock, the d3k logs) is supplied by an environment
    record.  Console output is not modelled: [console.log] has no influence
    on control flow or on the results, so [printResults] is left out and
    the [debug] flag, which only selects what is printed, is a parameter
    the runners do not look at.  Paths are built with [path.join], which
    is a parameter of the platform. *)

From Stdlib Require Import ZArith Lia.
From Stdlib Require Floats.
From stdpp Require Import base strings gmap list.

Set Warnings "-register-all".
Open Scope Z_scope.
Open Scope nat_scope.

(** ** JavaScript strings (as byte strings) *)

Definition LF : string := String (Ascii.ascii_of_nat 10) "".

Definition truthy (s : string) : bool :=
  match s with "" => false | _ => true end.

(** [s.startsWith(pre)] *)
Definition startsWith (pre s : string) : bool := String.prefix pre s.

(** [s.includes(needle)] *)
Fixpoint includes (needle s : string) : bool :=
  if startsWith needle s then true
  else match s with
       | "" => false
       | String _ rest => includes needle rest
       end.

Fixpoint dropChars (n : nat) (s : string) : string :=
  match n, s with
  | S m, String _ rest => dropChars m rest
  | _, _ => s
  end.

(** [s.replace(pat, rep)] with a string pattern: only the first occurrence
    is replaced. *)
Fixpoint replace (pat rep s : string) : string :=
  if startsWith pat s then rep +:+ dropChars (String.length pat) s
  else match s with
       | "" => ""
       | String c rest => String c (replace pat rep rest)
       end.

Definition isWhite (c : Ascii.ascii) : bool :=
  let n := Ascii.nat_of_ascii c in
  (n =? 32) || (n =? 9) || (n =? 10) || (n =? 11) || (n =? 12) || (n =? 13).

Fixpoint trimStart (s : string) : string :=
  match s with
  | String c rest => if isWhite c then trimStart rest else s
  | "" => ""
  end.

(** [s.trim()], for the ASCII white space characters. *)
Definition trim (s : string) : string :=
  String.rev (trimStart (String.rev (trimStart s))).

Fixpoint split_go (cur : string) (s : string) : list string :=
  match s with
  | "" => [String.rev cur]
  | String c rest =>
      if Ascii.eqb c (Ascii.ascii_of_nat 10)
      then String.rev cur :: split_go "" rest
      else split_go (String c cur) rest
  end.

(** [s.split("\n")] *)
Definition splitLines (s : string) : list string := split_go "" s.

(** [arr.join(sep)] *)
Definition joinWith (sep : string) (l : list string) : string :=
  String.concat sep l.

(** [arr.slice(-n)] *)
Definition sliceLast {A} (n : nat) (l : list A) : list A :=
  drop (length l - n) l.

Definition lowerAscii (c : Ascii.ascii) : Ascii.ascii :=
  let n := Ascii.nat_of_ascii c in
  if (65 <=? n) && (n <=? 90) then Ascii.ascii_of_nat (n + 32) else c.

Fixpoint toLower (s : string) : string :=
  match s with
  | "" => ""
  | String c rest => String (lowerAscii c) (toLower rest)
  end.

(** [/lit/gi.test(s)] for a literal pattern, on a fresh regular expression. *)
Definition testCI (lit s : string) : bool :=
  includes (toLower lit) (toLower s).

Definition isDigit (c : Ascii.ascii) : bool :=
  let n := Ascii.nat_of_ascii c in (48 <=? n) && (n <=? 57).

(** [/^\d{3}-/.test(e)] *)
Definition threeDigitsDash (e : string) : bool :=
  match e with
  | String a (String b (String c (String d _))) =>
      isDigit a && isDigit b && isDigit c && Ascii.eqb d (Ascii.ascii_of_nat 45)
  | _ => false
  end.

(** ** Completions, outputs and the data model *)

(** A thrown value: an error object with its [name] (as it is printed,
    with the error code when the platform adds one) and its [message]. *)
Record JsError := {
  errName : string;
  errMessage : string
}.

(** [new Error(message)]; a bare text where an error is expected stands
    for this plain error. *)
Definition Error_ (message : string) : JsError :=
  {| errName := "Error"; errMessage := message |}.
Coercion Error_ : string >-> JsError.

(** How a call ends: with a value, or by raising the error [err]. *)
Inductive Completion (A : Type) : Type :=
| Normal (a : A)
| Throw (err : JsError).
Arguments Normal {A} a.
Arguments Throw {A} err.

(** [String(err)] for an error object ([Error.prototype.toString]): the
    name, a colon and the message; the one of the two that is not empty
    when the other is. *)
Definition String_of_error (err : JsError) : string :=
  if truthy (errName err) then
    if truthy (errMessage err) then errName err +:+ ": " +:+ errMessage err
    else errName err
  else errMessage err.

(** ** JavaScript numbers (binary64) *)

(** The number nearest to an integer (ties to even), as an integer
    literal or an integer operation gives it. *)
Definition Number_of_Z (z : Z) : PrimFloat.float :=
  if (Z.abs z <? 9223372036854775808)%Z then
    if (z <? 0)%Z then PrimFloat.opp (PrimFloat.of_uint63 (Uint63.of_Z (- z)))
    else PrimFloat.of_uint63 (Uint63.of_Z z)
  else FloatOps.SF2Prim
         (SpecFloat.binary_normalize FloatOps.prec FloatOps.emax z 0 false).

(** [Math.round]: the nearest integer, halves going up, computed on the
    exact value [n * 2^e] of the number.  For [e < 0] this is the floor
    of [n / 2^(-e) + 1/2], taken with shifts: the floor of
    [n / 2^(-e-1)], plus one, halved.  [None] stands for [NaN] and the
    infinities, which [Math.round] gives back. *)
Definition Math_round (x : PrimFloat.float) : option Z :=
  match FloatOps.Prim2SF x with
  | SpecFloat.S754_zero _ => Some 0%Z
  | SpecFloat.S754_finite s m e =>
      let n := if s then Z.neg m else Z.pos m in
      Some (if (0 <=? e)%Z then Z.shiftl n e
            else Z.shiftr (Z.shiftr n (- e - 1) + 1) 1)
  | SpecFloat.S754_infinity _ | SpecFloat.S754_nan => None
  end.

(** What a finished child process gives back. *)
Record ShellOutput := {
  exitCode : Z;
  stdout : string;
  stderr : string
}.

Definition succeeded (o : ShellOutput) : bool := (exitCode o =? 0)%Z.

Inductive Mode := FirstShot | Full.

Definition modeString (m : Mode) : string :=
  match m with FirstShot => "first-shot" | Full => "full" end.

(** [interface EvalResult]; [duration] is a JavaScript number. *)
Record EvalResult := {
  name : string;
  build : bool;
  lint : bool;
  tests : bool;
  duration : PrimFloat.float;
  attempts : nat;
  mode : Mode;
  error : option string
}.

Definition passed (r : EvalResult) : bool := build r && lint r && tests r.

(** JSON documents, and JavaScript values on their way to
    [JSON.stringify]. *)
Inductive json :=
| JNull
| JBool (b : bool)
| JNum (n : Z)
| JStr (s : string)
| JArr (items : list json)
| JObj (props : list (string * json)).

Inductive jsval :=
| VUndefined
| VNull
| VBool (b : bool)
| VNum (n : Z)
| VStr (s : string)
| VArr (items : list jsval)
| VObj (props : list (string * jsval)).

(** [JSON.stringify]: a property whose value is [undefined] is left out of
    its object; inside an array [undefined] becomes [null]. *)
Fixpoint stringify (v : jsval) : json :=
  match v with
  | VUndefined => JNull
  | VNull => JNull
  | VBool b => JBool b
  | VNum n => JNum n
  | VStr s => JStr s
  | VArr items => JArr (map stringify items)
  | VObj props =>
      JObj ((fix go (ps : list (string * jsval)) : list (string * json) :=
               match ps with
               | [] => []
               | (k, VUndefined) :: rest => go rest
               | (k, x) :: rest => (k, stringify x) :: go rest
               end) props)
  end.

(** ** The outside world *)

(** The working tree: regular files with their content, and directories. *)
Record FS := {
  files : gmap string string;
  dirs : gset string
}.

Definition existsSync (t : FS) (p : string) : bool :=
  bool_decide (is_Some (files t !! p)) || bool_decide (p ∈ dirs t).

(** External actions, in the order the script performs them. *)
Inductive Event :=
| EvGitPull
| EvGitClone
| EvGitStash
| EvGitCheckout
| EvGitClean
| EvGitStashPop
| EvMkdir (dir : string)
| EvCopy (src dst : string)
| EvClaude (prompt : string)
| EvBuild
| EvLint
| EvInstallVitest
| EvVitest (testPaths : list string)
| EvClearLogs
| EvSpawnD3k (pid : nat)
| EvKill (pid : nat)
| EvFetchHead
| EvSleep (ms : nat)
| EvWriteFile (path : string) (content : json).


(** The state the script acts on: the working tree, the module-level
    variable [d3kProcess], the next free process id, and the log of the
    external actions performed so far (oldest first). *)
Record World := {
  fs : FS;
  d3kProcess : option nat;
  nextPid : nat;
  trace : list Event
}.

(** What the environment answers during the run of one evaluation.  The
    evals cache is read-only input; the answers of the agent and of the
    gates are indexed by the attempt that asks.  A command whose result
    the script reads may also end in a fault of the runtime. *)
Record RunEnv := {
  startClock : Z;
  endClock : Z;
  promptFile : option (Completion string);
  inputDirExists : bool;
  findTestLines : list string;
  findStubLines : list string;
  fixture : string -> Completion string;
  claudeCli : nat -> Completion ShellOutput;
  bunRunBuild : nat -> Completion ShellOutput;
  ultraciteCheck : nat -> Completion ShellOutput;
  vitestRun : nat -> Completion ShellOutput;
  d3kHead : nat -> Completion Z;
  d3kLogFiles : nat -> option (list string);
  d3kReadLog : nat -> string -> Completion string
}.

(** The platform and the batch: [path.join], [import.meta.dirname],
    [os.homedir()], the result of refreshing the evals cache, the listing
    of the evals directory, the per-evaluation answers, and what each
    external command does to the working tree. *)
Record Env := {
  path_join : list string -> string;
  import_meta_dirname : string;
  os_homedir : string;
  cacheExists : bool;
  gitFetch : Completion unit;
  evalsDirListing : option string;
  run : string -> RunEnv;
  shellFs : Event -> FS -> FS
}.

(** ** Computations that may throw *)

Definition M (S A : Type) : Type := S -> Completion A * S.

Definition ret {S A} (a : A) : M S A := fun s => (Normal a, s).

Definition throw {S A} (err : JsError) : M S A := fun s => (Throw err, s).

Definition bind {S A B} (m : M S A) (k : A -> M S B) : M S B :=
  fun s =>
    match m s with
    | (Normal a, s') => k a s'
    | (Throw err, s') => (Throw err, s')
    end.

Declare Scope run_scope.
Delimit Scope run_scope with run.
Notation "'let*' x ':=' m 'in' k" := (bind m (fun x => k))
  (at level 10, x name, m at level 100, k at level 200) : run_scope.
Open Scope run_scope.

Definition when {S} (b : bool) (m : M S unit) : M S unit :=
  if b then m else ret tt.

(** [try { body } catch { }]: the fault is swallowed. *)
Definition tryIgnore {S A} (body : M S A) : M S (option A) :=
  fun s =>
    match body s with
    | (Normal a, s') => (Normal (Some a), s')
    | (Throw _, s') => (Normal None, s')
    end.

(** [try { body } catch (err) { handler(err) } finally { fin }] *)
Definition tryCatchFinally {S} (body : M S unit) (handler : JsError -> M S unit)
    (fin : M S unit) : M S unit :=
  fun s =>
    let '(c, s1) := body s in
    let '(c', s2) := match c with
                     | Normal _ => (Normal tt, s1)
                     | Throw err => handler err s1
                     end in
    let '(cf, s3) := fin s2 in
    match cf with
    | Throw err => (Throw err, s3)
    | Normal _ => (c', s3)
    end.

Fixpoint forEach {S A} (l : list A) (f : A -> M S unit) : M S unit :=
  match l with
  | [] => ret tt
  | x :: rest => let* _ := f x in forEach rest f
  end.

Definition MAX_FULL_ATTEMPTS : nat := 3.

Section Script.

Variable E : Env.

Definition EVALS_CACHE : string :=
  path_join E [import_meta_dirname E; "../.evals-cache"].
Definition PROJECT_ROOT : string :=
  path_join E [import_meta_dirname E; ".."].
Definition D3K_LOGS_DIR : string :=
  path_join E [os_homedir E; ".d3k/logs"].

(** *** Primitive actions on the world *)

Definition emit (e : Event) : M World unit :=
  fun w => (Normal tt,
            {| fs := fs w; d3kProcess := d3kProcess w; nextPid := nextPid w;
               trace := trace w ++ [e] |}).

(** A shell command: logged, and free to change the working tree. *)
Definition shell (e : Event) : M World unit :=
  fun w => (Normal tt,
            {| fs := shellFs E e (fs w); d3kProcess := d3kProcess w;
               nextPid := nextPid w; trace := trace w ++ [e] |}).

(** A command whose result is read: the environment gives the result. *)
Definition shellOut {A} (e : Event) (answer : Completion A) : M World A :=
  let* _ := shell e in fun w => (answer, w).

Definition sleep (ms : nat) : M World unit := emit (EvSleep ms).

Definition setD3kProcess (h : option nat) : M World unit :=
  fun w => (Normal tt,
            {| fs := fs w; d3kProcess := h; nextPid := nextPid w;
               trace := trace w |}).

Definition exists_ (p : string) : M World bool :=
  fun w => (Normal (existsSync (fs w) p), w).

(** [mkdirSync(dir, { recursive: true })] *)
Definition mkdirSync (dir : string) : M World unit :=
  fun w =>
    match files (fs w) !! dir with
    | Some _ => (Throw ("EEXIST: file already exists, mkdir " +:+ dir), w)
    | None =>
        (Normal tt,
         {| fs := {| files := files (fs w); dirs := {[dir]} ∪ dirs (fs w) |};
            d3kProcess := d3kProcess w; nextPid := nextPid w;
            trace := trace w ++ [EvMkdir dir] |})
    end.

(** [cpSync(src, dst)] of a file of the evals cache into the working tree;
    an existing file at [dst] is replaced ([force] defaults to true). *)
Definition cpSync (R : RunEnv) (src dst : string) : M World unit :=
  fun w =>
    match fixture R src with
    | Throw err => (Throw err, w)
    | Normal content =>
        if bool_decide (dst ∈ dirs (fs w))
        then (Throw ("cannot overwrite directory " +:+ dst), w)
        else
          (Normal tt,
           {| fs := {| files := <[dst := content]> (files (fs w));
                       dirs := dirs (fs w) |};
              d3kProcess := d3kProcess w; nextPid := nextPid w;
              trace := trace w ++ [EvCopy src dst] |})
    end.

(** *** lines 38-71: the evals cache *)

(** The cache is read-only input of a run: whether it exists, what
    [git] answers, the listing of its [evals] directory and the files of
    each evaluation come from the environment. *)
Definition fetchEvals : M World unit :=
  if cacheExists E then shellOut EvGitPull (gitFetch E)
  else shellOut EvGitClone (gitFetch E).

Definition listEvals : list string :=
  match evalsDirListing E with
  | None => []
  | Some out => filter (fun e => threeDigitsDash e = true) (splitLines (trim out))
  end.

(** [promptFile] is [None] when [prompt.md] does not exist, and otherwise
    what [readFileSync] gives. *)
Definition getEvalPrompt (evalName : string) : Completion string :=
  match promptFile (run E evalName) with
  | None => Throw ("Eval " +:+ evalName +:+ " not found")
  | Some (Throw err) => Throw err
  | Some (Normal content) => Normal (trim content)
  end.

(** [findTestLines] holds the lines of the output of [find] after
    [trim()] and [split]. *)
Definition getEvalTestFiles (evalName : string) : list string :=
  if inputDirExists (run E evalName)
  then filter (fun l => truthy l = true) (findTestLines (run E evalName))
  else [].

(** *** lines 77-120: the d3k process *)

Definition headReady (status : Z) : bool :=
  ((200 <=? status)%Z && (status <=? 299)%Z) || (status =? 404)%Z.

(** The polling loop of [startD3k] ([while (attempts < 30)]); it returns
    whether the server answered before the thirty polls were used up.
    [fuel] is 30 at the call, one unit per poll the condition allows. *)
Fixpoint waitForServer (R : RunEnv) (fuel attempts : nat) : M World bool :=
  match fuel with
  | 0 => ret false
  | S fuel' =>
      if attempts <? 30 then
        let* res := tryIgnore (shellOut EvFetchHead (d3kHead R attempts)) in
        match res with
        | Some status =>
            if headReady status then ret true
            else let* _ := sleep 1000 in waitForServer R fuel' (S attempts)
        | None => let* _ := sleep 1000 in waitForServer R fuel' (S attempts)
        end
      else ret false
  end.

(** [d3kProcess = Bun.spawn(...)]: the new process gets the next free
    process id and the module-level variable holds it from then on. *)
Definition spawnD3k : M World unit :=
  fun w =>
    (Normal tt,
     {| fs := fs w; d3kProcess := Some (nextPid w); nextPid := S (nextPid w);
        trace := trace w ++ [EvSpawnD3k (nextPid w)] |}).

Definition startD3k (R : RunEnv) : M World unit :=
  let* _ := shell EvClearLogs in
  let* _ := spawnD3k in
  let* ready := waitForServer R 30 0 in
  if ready then ret tt else throw "d3k server failed to start within 30s".

Definition stopD3k : M World unit :=
  fun w =>
    match d3kProcess w with
    | Some pid =>
        (let* _ := emit (EvKill pid) in
         let* _ := setD3kProcess None in
         sleep 500) w
    | None => (Normal tt, w)
    end.

(** lines 122-162.  The log directory lies outside the working tree and is
    written by d3k itself, so what the script finds there comes from the
    environment: [d3kLogFiles] is [None] when the directory does not exist,
    and otherwise the lines of [ls -t]. *)
Definition errorPatterns : list string :=
  ["Error:"; "Unhandled Runtime Error"; "TypeError:"; "ReferenceError:";
   "SyntaxError:"; "Build Error"; "Failed to compile"].

Definition getD3kErrors (R : RunEnv) (attempt : nat) : option string :=
  match d3kLogFiles R attempt with
  | None => None
  | Some listing =>
      match filter (fun l => truthy l = true) listing with
      | [] => None
      | newest :: _ =>
          match d3kReadLog R attempt (path_join E [D3K_LOGS_DIR; newest]) with
          | Throw _ => None
          | Normal logContent =>
              if existsb (fun pattern => testCI pattern logContent) errorPatterns
              then Some (joinWith LF (sliceLast 50 (splitLines logContent)))
              else None
          end
      end
  end.

(** *** The record under construction and the running call *)

Definition set_build (b : bool) (r : EvalResult) : EvalResult :=
  {| name := name r; build := b; lint := lint r; tests := tests r;
     duration := duration r; attempts := attempts r; mode := mode r;
     error := error r |}.
Definition set_lint (b : bool) (r : EvalResult) : EvalResult :=
  {| name := name r; build := build r; lint := b; tests := tests r;
     duration := duration r; attempts := attempts r; mode := mode r;
     error := error r |}.
Definition set_tests (b : bool) (r : EvalResult) : EvalResult :=
  {| name := name r; build := build r; lint := lint r; tests := b;
     duration := duration r; attempts := attempts r; mode := mode r;
     error := error r |}.
Definition set_attempts (n : nat) (r : EvalResult) : EvalResult :=
  {| name := name r; build := build r; lint := lint r; tests := tests r;
     duration := duration r; attempts := n; mode := mode r;
     error := error r |}.
Definition set_error (e : string) (r : EvalResult) : EvalResult :=
  {| name := name r; build := build r; lint := lint r; tests := tests r;
     duration := duration r; attempts := attempts r; mode := mode r;
     error := Some e |}.
Definition set_duration (d : PrimFloat.float) (r : EvalResult) : EvalResult :=
  {| name := name r; build := build r; lint := lint r; tests := tests r;
     duration := d; attempts := attempts r; mode := mode r;
     error := error r |}.

(** The [result] record is a local of the running call that the [catch]
    and the code after the [try] statement still read, so it lives in the
    state next to the world. *)
Record Frame := {
  world : World;
  result : EvalResult
}.

Definition liftW {A} (m : M World A) : M Frame A :=
  fun fr =>
    let '(c, w) := m (world fr) in (c, {| world := w; result := result fr |}).

Definition update (f : EvalResult -> EvalResult) : M Frame unit :=
  fun fr => (Normal tt, {| world := world fr; result := f (result fr) |}).

Definition getResult : M Frame EvalResult :=
  fun fr => (Normal (result fr), fr).

(** *** lines 207-247 and 381-420: staging (the same text in both runners) *)

Definition stageTestFile (R : RunEnv) (inputDir testFile : string)
    : M World unit :=
  let relativePath := replace (inputDir +:+ "/") "" testFile in
  let destPath := path_join E [PROJECT_ROOT; relativePath] in
  let destDir := path_join E [destPath; ".."] in
  let* there := exists_ destDir in
  let* _ := when (negb there) (mkdirSync destDir) in
  cpSync R testFile destPath.

Definition stageStubFile (R : RunEnv) (inputDir stubFile : string)
    : M World unit :=
  if includes ".test." stubFile then ret tt
  else
    let relativePath := replace (inputDir +:+ "/") "" stubFile in
    let destPath := path_join E [PROJECT_ROOT; relativePath] in
    let* taken := exists_ destPath in
    if negb taken then
      let destDir := path_join E [destPath; ".."] in
      let* there := exists_ destDir in
      let* _ := when (negb there) (mkdirSync destDir) in
      cpSync R stubFile destPath
    else ret tt.

Definition stubFilesOf (R : RunEnv) : list string :=
  filter (fun l => truthy l = true) (findStubLines R).

Definition stage (R : RunEnv) (evalName : string) (testFiles : list string)
    : M World unit :=
  let inputDir := path_join E [EVALS_CACHE; "evals"; evalName; "input"] in
  let* _ := forEach testFiles (stageTestFile R inputDir) in
  forEach (stubFilesOf R) (stageStubFile R inputDir).

(** *** The instruction payload *)

Definition INSTRUCTIONS : string :=
  joinWith LF
    [""; "";
     "IMPORTANT: Do not run npm, pnpm, yarn, bun, or any package manager commands. Dependencies have already been installed. Do not run build, test, or dev server commands. Just write the code files. DO NOT ask any followup questions either.";
     "";
     "This is the opinionated-next project. Use the existing project structure:";
     "- Use Biome for linting (not ESLint)";
     "- Use explicit file extensions in imports (.ts for TypeScript, .tsx for TSX/JSX files)";
     "- Use subpath imports (#/) only when importing from src/ directory"].

(** lines 444-451 *)
Definition feedbackBlock (feedbackContext : string) : string :=
  joinWith LF
    [""; "";
     "PREVIOUS ATTEMPT FAILED. Here's the error from the browser/build:";
     feedbackContext;
     "";
     "Please fix the issue and try again."].

Definition withFeedback (claudePrompt feedbackContext : string) : string :=
  if truthy feedbackContext
  then claudePrompt +:+ feedbackBlock feedbackContext
  else claudePrompt.

(** lines 484, 497 and 527-531 *)
Definition buildFeedback (o : ShellOutput) : string :=
  "Build failed:" +:+ LF +:+ stderr o +:+ LF +:+ stdout o.

Definition lintFeedback (o : ShellOutput) : string :=
  "Lint failed:" +:+ LF +:+ stderr o +:+ LF +:+ stdout o.

Definition testFeedback (o : ShellOutput) (browserErrors : option string)
    : string :=
  let allErrors :=
    [stdout o; stderr o] ++
    match browserErrors with
    | Some b => if truthy b
                then [LF +:+ "Browser console errors:" +:+ LF +:+ b]
                else []
    | None => []
    end in
  "Tests failed:" +:+ LF +:+ joinWith LF allErrors.

Definition testPathsOf (inputDir : string) (testFiles : list string)
    : list string :=
  map (replace (inputDir +:+ "/") "") testFiles.

Definition restore : M World unit :=
  let* _ := shell EvGitCheckout in
  let* _ := shell EvGitClean in
  shell EvGitStashPop.

(** *** lines 182-348: [runEval] *)

(** The object literal both runners start from (lines 184-192 and
    355-363); they differ in [attempts] and [mode]. *)
Definition newResult (evalName : string) (attempts0 : nat) (m : Mode)
    : EvalResult :=
  {| name := evalName; build := false; lint := false; tests := false;
     duration := PrimFloat.zero; attempts := attempts0; mode := m;
     error := None |}.

(** lines 249-334: the agent call and the three gates of [runEval]. *)
Definition firstShotAttempt (R : RunEnv) (evalName prompt : string)
    (testFiles : list string) : M Frame unit :=
  let claudePrompt := prompt +:+ INSTRUCTIONS in
  let* claudeResult := liftW (shellOut (EvClaude claudePrompt) (claudeCli R 1)) in
  let* buildResult := liftW (shellOut EvBuild (bunRunBuild R 1)) in
  let* _ := update (set_build (succeeded buildResult)) in
  let* lintResult := liftW (shellOut EvLint (ultraciteCheck R 1)) in
  let* _ := update (set_lint (succeeded lintResult)) in
  if 0 <? length testFiles then
    let* _ := liftW (shell EvInstallVitest) in
    let inputDir := path_join E [EVALS_CACHE; "evals"; evalName; "input"] in
    let testPaths := testPathsOf inputDir testFiles in
    let* testProc := liftW (shellOut (EvVitest testPaths) (vitestRun R 1)) in
    update (set_tests (succeeded testProc))
  else update (set_tests true).

(** The [try] block of [runEval]. *)
Definition firstShotTry (R : RunEnv) (evalName prompt : string)
    (testFiles : list string) : M Frame unit :=
  let* _ := liftW (stage R evalName testFiles) in
  firstShotAttempt R evalName prompt testFiles.

(** [(Date.now() - startTime) / 1000]: the clock readings are whole
    numbers of milliseconds, so their difference is the number nearest
    to the difference of the integers. *)
Definition secondsSince (startTime now : Z) : PrimFloat.float :=
  PrimFloat.div (Number_of_Z (now - startTime)) (Number_of_Z 1000).

Definition finish (R : RunEnv) (startTime : Z) (out : Completion unit * Frame)
    : Completion EvalResult * World :=
  match out with
  | (Throw err, fr) => (Throw err, world fr)
  | (Normal _, fr) =>
      (Normal (set_duration (secondsSince startTime (endClock R)) (result fr)),
       world fr)
  end.

Definition runEval (evalName : string) (debug : bool) : M World EvalResult :=
  let R := run E evalName in
  let startTime := startClock R in
  let result0 := newResult evalName 1 FirstShot in
  let* prompt := (fun w => (getEvalPrompt evalName, w)) in
  let testFiles := getEvalTestFiles evalName in
  let* _ := shell EvGitStash in
  fun w =>
    finish R startTime
      (tryCatchFinally
         (firstShotTry R evalName prompt testFiles)
         (fun err => update (set_error (String_of_error err)))
         (liftW restore)
         {| world := w; result := result0 |}).

(** *** lines 350-561: [runEvalFull] *)

Inductive Ctl := Next | Break.

(** The body of the retry loop (lines 429-543).  [feedbackContext] is the
    loop-carried local: the body takes its value on entry and gives back
    its value on exit, together with how the iteration left the body
    ([continue] and falling off the end are both [Next]). *)
Definition attemptBody (R : RunEnv) (evalName basePrompt : string)
    (testFiles : list string) (attempt : nat) (feedbackContext : string)
    : M Frame (Ctl * string) :=
  let* _ := update (set_attempts attempt) in
  let claudePrompt := withFeedback (basePrompt +:+ INSTRUCTIONS) feedbackContext in
  let* claudeResult :=
    liftW (shellOut (EvClaude claudePrompt) (claudeCli R attempt)) in
  let* _ := liftW (sleep 2000) in
  let browserErrors := getD3kErrors R attempt in
  let* buildResult := liftW (shellOut EvBuild (bunRunBuild R attempt)) in
  let* _ := update (set_build (succeeded buildResult)) in
  let feedbackContext :=
    if succeeded buildResult then feedbackContext
    else buildFeedback buildResult in
  if negb (succeeded buildResult) && (attempt <? MAX_FULL_ATTEMPTS)
  then ret (Next, feedbackContext)
  else
  let* lintResult := liftW (shellOut EvLint (ultraciteCheck R attempt)) in
  let* _ := update (set_lint (succeeded lintResult)) in
  let feedbackContext :=
    if succeeded lintResult then feedbackContext
    else lintFeedback lintResult in
  if negb (succeeded lintResult) && (attempt <? MAX_FULL_ATTEMPTS)
  then ret (Next, feedbackContext)
  else
  let* afterTests :=
    if 0 <? length testFiles then
      let* _ := liftW (shell EvInstallVitest) in
      let inputDir := path_join E [EVALS_CACHE; "evals"; evalName; "input"] in
      let testPaths := testPathsOf inputDir testFiles in
      let* testProc :=
        liftW (shellOut (EvVitest testPaths) (vitestRun R attempt)) in
      let* _ := update (set_tests (succeeded testProc)) in
      if succeeded testProc then ret (false, feedbackContext)
      else ret (attempt <? MAX_FULL_ATTEMPTS,
                testFeedback testProc browserErrors)
    else
      let* _ := update (set_tests true) in ret (false, feedbackContext) in
  let '(skip, feedbackContext) := afterTests in
  if (skip : bool) then ret (Next, feedbackContext)
  else
  let* r := getResult in
  if passed r then ret (Break, feedbackContext)
  else ret (Next, feedbackContext).

(** [for (let attempt = 1; attempt <= MAX_FULL_ATTEMPTS; attempt++)]:
    the loop condition is tested before every iteration; [fuel] bounds the
    number of iterations and [MAX_FULL_ATTEMPTS] of it are enough. *)
Fixpoint retryLoop (R : RunEnv) (evalName basePrompt : string)
    (testFiles : list string) (fuel attempt : nat) (feedbackContext : string)
    : M Frame unit :=
  match fuel with
  | 0 => ret tt
  | S fuel' =>
      if attempt <=? MAX_FULL_ATTEMPTS then
        let* out := attemptBody R evalName basePrompt testFiles attempt
                      feedbackContext in
        match out with
        | (Break, _) => ret tt
        | (Next, feedbackContext') =>
            retryLoop R evalName basePrompt testFiles fuel' (S attempt)
              feedbackContext'
        end
      else ret tt
  end.

(** The [try] block of [runEvalFull]. *)
Definition fullTry (R : RunEnv) (evalName basePrompt : string)
    (testFiles : list string) : M Frame unit :=
  let* _ := liftW (stage R evalName testFiles) in
  let* _ := liftW (startD3k R) in
  let feedbackContext := "" in
  retryLoop R evalName basePrompt testFiles MAX_FULL_ATTEMPTS 1 feedbackContext.

Definition runEvalFull (evalName : string) (debug : bool)
    : M World EvalResult :=
  let R := run E evalName in
  let startTime := startClock R in
  let result0 := newResult evalName 0 Full in
  let* basePrompt := (fun w => (getEvalPrompt evalName, w)) in
  let testFiles := getEvalTestFiles evalName in
  let* _ := shell EvGitStash in
  fun w =>
    finish R startTime
      (tryCatchFinally
         (fullTry R evalName basePrompt testFiles)
         (fun err => update (set_error (String_of_error err)))
         (liftW (let* _ := stopD3k in restore))
         {| world := w; result := result0 |}).

(** *** lines 630-647: [writeJsonResults] *)

(** A number on its way to [JSON.stringify]: [NaN] and the infinities
    are written as [null]. *)
Definition numberValue (n : option Z) : jsval :=
  match n with Some z => VNum z | None => VNull end.

(** [Math.round(r.duration * 1000)] *)
Definition millisOf (duration : PrimFloat.float) : option Z :=
  Math_round (PrimFloat.mul duration (Number_of_Z 1000)).

Definition jsonResultOf (r : EvalResult) : jsval :=
  VObj
    [("evalPath", VStr (name r));
     ("mode", VStr (modeString (mode r)));
     ("result",
      VObj
        [("success", VBool (passed r));
         ("buildSuccess", VBool (build r));
         ("lintSuccess", VBool (lint r));
         ("testSuccess", VBool (tests r));
         ("attempts", VNum (Z.of_nat (attempts r)));
         ("duration", numberValue (millisOf (duration r)));
         ("error", match error r with
                   | Some e => VStr e
                   | None => VUndefined
                   end)])].

(** The file is recorded as the document handed to [Bun.write], before
    its rendering as text with an indentation of two. *)
Definition writeJsonResults (results : list EvalResult) (outputPath : string)
    : M World unit :=
  let jsonResults := map jsonResultOf results in
  emit (EvWriteFile outputPath (stringify (VArr jsonResults))).

(** *** lines 649-717: [main] *)

Fixpoint indexOf (x : string) (l : list string) : option nat :=
  match l with
  | [] => None
  | y :: rest => if String.eqb y x then Some 0
                 else option_map S (indexOf x rest)
  end.

(** lines 658-668: the first argument that is neither a flag nor the
    value of [--output]. *)
Fixpoint positional (args : list string) : option string :=
  match args with
  | [] => None
  | arg :: rest =>
      if startsWith "--" arg then
        if String.eqb arg "--output" then
          match rest with
          | [] => None
          | _ :: rest' => positional rest'
          end
        else positional rest
      else Some arg
  end.

Definition truthyOpt (o : option string) : bool :=
  match o with Some s => truthy s | None => false end.

(** lines 701-710 *)
Fixpoint runBatch (fullMode debug : bool) (evalsToRun : list string)
    (results : list EvalResult) : M World (list EvalResult) :=
  match evalsToRun with
  | [] => ret results
  | name :: rest =>
      let* result := (if fullMode then runEvalFull name debug
                      else runEval name debug) in
      runBatch fullMode debug rest (results ++ [result])
  end.

Definition main (args : list string) : M World unit :=
  let runAll := existsb (String.eqb "--all") args in
  let debug := existsb (String.eqb "--debug") args in
  let fullMode := existsb (String.eqb "--full") args in
  let outputFile :=
    match indexOf "--output" args with
    | Some outputIdx => args !! (outputIdx + 1)
    | None => None
    end in
  let evalName := positional args in
  let* _ := fetchEvals in
  let evals := listEvals in
  if negb (runAll || truthyOpt evalName) then ret tt
  else
    let evalsToRun := if runAll then evals
                      else match evalName with Some n => [n] | None => [] end in
    let* results := runBatch fullMode debug evalsToRun [] in
    match outputFile with
    | Some path => if truthy path then writeJsonResults results path else ret tt
    | None => ret tt
    end.

End Script.

(** ** Reading the log of external actions *)

(** The instruction payloads given to the agent, oldest first. *)
Fixpoint payloads (tr : list Event) : list string :=
  match tr with
  | [] => []
  | EvClaude p :: rest => p :: payloads rest
  | _ :: rest => payloads rest
  end.

(** How often the coding agent was invoked. *)
Definition agentCalls (tr : list Event) : nat := length (payloads tr).

Inductive Gate := GBuild | GLint | GTests.

(** The gates that were run, oldest first. *)
Fixpoint gatesRun (tr : list Event) : list Gate :=
  match tr with
  | [] => []
  | EvBuild :: rest => GBuild :: gatesRun rest
  | EvLint :: rest => GLint :: gatesRun rest
  | EvVitest _ :: rest => GTests :: gatesRun rest
  | _ :: rest => gatesRun rest
  end.

(** The d3k processes that were spawned, and those that were killed. *)
Fixpoint spawned (tr : list Event) : list nat :=
  match tr with
  | [] => []
  | EvSpawnD3k pid :: rest => pid :: spawned rest
  | _ :: rest => spawned rest
  end.

Fixpoint killed (tr : list Event) : list nat :=
  match tr with
  | [] => []
  | EvKill pid :: rest => pid :: killed rest
  | _ :: rest => killed rest
  end.

(** The files written with [Bun.write]. *)
Fixpoint written (tr : list Event) : list (string * json) :=
  match tr with
  | [] => []
  | EvWriteFile path doc :: rest => (path, doc) :: written rest
  | _ :: rest => written rest
  end.

(** The events logged between the states [w] and [w']. *)
Definition added (w w' : World) : list Event :=
  drop (length (trace w)) (trace w').

(** [quiet w w' evs]: [w'] is [w] with the events [evs] added to the log,
    none of which is an agent call, a gate or a spawn, and the d3k handle
    is the same. *)
Definition quiet (w w' : World) (evs : list Event) : Prop :=
  trace w' = trace w ++ evs ∧ payloads evs = [] ∧ gatesRun evs = [] ∧
  spawned evs = [] ∧ d3kProcess w' = d3kProcess w.

(** The log ends with the three commands that restore the working tree. *)
Definition restoreEvents : list Event :=
  [EvGitCheckout; EvGitClean; EvGitStashPop].

(** ** What the environment holds for one attempt *)

(** The agent returns and every gate that applies exits with status 0. *)
Definition attemptPasses (R : RunEnv) (hasTests : bool) (k : nat) : bool :=
  match claudeCli R k, bunRunBuild R k, ultraciteCheck R k with
  | Normal _, Normal b, Normal l =>
      succeeded b && succeeded l &&
      (if hasTests
       then match vitestRun R k with
            | Normal t => succeeded t
            | Throw _ => false
            end
       else true)
  | _, _, _ => false
  end.

(** The text captured from a gate that failed: a heading, then what the
    command wrote to its error stream and to its output stream. *)
Definition capturedText (heading first second : string) : string :=
  heading +:+ LF +:+ first +:+ LF +:+ second.

(** The text captured from failing tests: what the test runner wrote to
    its output and to its error stream, and after an empty line the
    errors read from the browser log, when there are some. *)
Definition testsText (out err : string) (browserErrors : option string)
    : string :=
  match browserErrors with
  | Some b =>
      if truthy b
      then "Tests failed:" +:+ LF +:+ out +:+ LF +:+ err +:+ LF +:+ LF +:+
           "Browser console errors:" +:+ LF +:+ b
      else capturedText "Tests failed:" out err
  | None => capturedText "Tests failed:" out err
  end.

(** The captured failure text of the first failing gate of attempt [k]:
    the build's (stderr, then stdout) if the build failed, otherwise the
    lint's (stderr, then stdout), otherwise the tests' (stdout, then
    stderr, then the errors of the browser log when some were read). *)
Definition firstFailingGateOutput (R : RunEnv) (browserErrors : option string)
    (hasTests : bool) (k : nat) : option string :=
  match bunRunBuild R k with
  | Throw _ => None
  | Normal b =>
      if negb (succeeded b)
      then Some (capturedText "Build failed:" (stderr b) (stdout b))
      else
        match ultraciteCheck R k with
        | Throw _ => None
        | Normal l =>
            if negb (succeeded l)
            then Some (capturedText "Lint failed:" (stderr l) (stdout l))
            else if hasTests then
              match vitestRun R k with
              | Throw _ => None
              | Normal t =>
                  if negb (succeeded t)
                  then Some (testsText (stdout t) (stderr t) browserErrors)
                  else None
              end
            else None
        end
  end.

(** The payload of a retry: the payload of the first attempt, an empty
    line, the announcement, the captured text, an empty line and the
    request to try again. *)
Definition retryPayload (first captured : string) : string :=
  first +:+ LF +:+ LF +:+
  "PREVIOUS ATTEMPT FAILED. Here's the error from the browser/build:" +:+ LF +:+
  captured +:+ LF +:+ LF +:+
  "Please fix the issue and try again.".

(** The gates attempt [k] runs, in order, as the answers of the
    environment decide: the build once the agent has returned, then the
    lint, then the tests when test files were found; a command that
    raises ends the attempt, and when [cut] holds (an attempt of full
    mode before the last) so does a gate that fails. *)
Definition expectedGates (R : RunEnv) (hasTests cut : bool) (k : nat)
    : list Gate :=
  match claudeCli R k with
  | Throw _ => []
  | Normal _ =>
      GBuild ::
      match bunRunBuild R k with
      | Throw _ => []
      | Normal b =>
          if negb (succeeded b) && cut then []
          else
            GLint ::
            match ultraciteCheck R k with
            | Throw _ => []
            | Normal l =>
                if negb (succeeded l) && cut then []
                else if hasTests then [GTests] else []
            end
      end
  end.

(** The build of attempt [k] ran and failed. *)
Definition buildFails (R : RunEnv) (k : nat) : bool :=
  match claudeCli R k, bunRunBuild R k with
  | Normal _, Normal b => negb (succeeded b)
  | _, _ => false
  end.

(** The build of attempt [k] passed and its lint ran and failed. *)
Definition lintFails (R : RunEnv) (k : nat) : bool :=
  match claudeCli R k, bunRunBuild R k, ultraciteCheck R k with
  | Normal _, Normal b, Normal l => succeeded b && negb (succeeded l)
  | _, _, _ => false
  end.

(** No command of attempt [k] ends in a fault. *)
Definition attemptFaultless (R : RunEnv) (k : nat) : bool :=
  match claudeCli R k, bunRunBuild R k, ultraciteCheck R k, vitestRun R k with
  | Normal _, Normal _, Normal _, Normal _ => true
  | _, _, _, _ => false
  end.

(** ** The executions of the retry loop *)

(** [Iterations E R n b tf a fb fr segs c fr']: started before the
    iteration for attempt [a] with feedback [fb] in frame [fr], the loop
    runs the body once per element of [segs] (the events each iteration
    logs) and leaves with completion [c] in frame [fr']. *)
Inductive Iterations (E : Env) (R : RunEnv) (evalName basePrompt : string)
    (testFiles : list string)
    : nat → string → Frame → list (list Event) → Completion unit → Frame → Prop :=
| It_exhausted a fb fr :
    MAX_FULL_ATTEMPTS < a →
    Iterations E R evalName basePrompt testFiles a fb fr [] (Normal tt) fr
| It_break a fb fr fb' fr1 seg :
    a ≤ MAX_FULL_ATTEMPTS →
    attemptBody E R evalName basePrompt testFiles a fb fr
      = (Normal (Break, fb'), fr1) →
    trace (world fr1) = trace (world fr) ++ seg →
    Iterations E R evalName basePrompt testFiles a fb fr [seg] (Normal tt) fr1
| It_throw a fb fr err fr1 seg :
    a ≤ MAX_FULL_ATTEMPTS →
    attemptBody E R evalName basePrompt testFiles a fb fr = (Throw err, fr1) →
    trace (world fr1) = trace (world fr) ++ seg →
    Iterations E R evalName basePrompt testFiles a fb fr [seg] (Throw err) fr1
| It_next a fb fr fb' fr1 seg segs c fr2 :
    a ≤ MAX_FULL_ATTEMPTS →
    attemptBody E R evalName basePrompt testFiles a fb fr
      = (Normal (Next, fb'), fr1) →
    trace (world fr1) = trace (world fr) ++ seg →
    Iterations E R evalName basePrompt testFiles (S a) fb' fr1 segs c fr2 →
    Iterations E R evalName basePrompt testFiles a fb fr (seg :: segs) c fr2.

(** The gates of one attempt, read off the events [seg] it logged: they
    come in the order build, lint, tests; before the last attempt a failed
    build is followed by no other gate and a failed lint by no tests; on
    the last attempt every gate runs when no command faults. *)
Definition gateDiscipline (R : RunEnv) (hasTests : bool) (k : nat)
    (seg : list Event) : Prop :=
  gatesRun seg `prefix_of` [GBuild; GLint; GTests] ∧
  (k < MAX_FULL_ATTEMPTS → buildFails R k = true → gatesRun seg = [GBuild]) ∧
  (k < MAX_FULL_ATTEMPTS → lintFails R k = true →
   gatesRun seg = [GBuild; GLint]) ∧
  (k = MAX_FULL_ATTEMPTS → attemptFaultless R k = true →
   gatesRun seg = [GBuild; GLint] ++ (if hasTests then [GTests] else [])).

(** ** Faults *)

(** The text stored for a caught fault: the name of the error, a colon
    and its message; only the one that is not empty when the other is. *)
Definition storedText (err : JsError) (text : string) : Prop :=
  (errName err ≠ "" → errMessage err ≠ "" →
   text = errName err +:+ ": " +:+ errMessage err) ∧
  (errName err ≠ "" → errMessage err = "" → text = errName err) ∧
  (errName err = "" → text = errMessage err).

(** The guarded region of a runner, started in the state [w] in which
    the runner is called. *)
Definition tryBlockOf (E : Env) (fullMode : bool) (evalName base : string)
    (w : World) : Completion unit * Frame :=
  if fullMode then
    fullTry E (run E evalName) evalName base (getEvalTestFiles E evalName)
      {| world := (shell E EvGitStash w).2;
         result := newResult evalName 0 Full |}
  else
    firstShotTry E (run E evalName) evalName base (getEvalTestFiles E evalName)
      {| world := (shell E EvGitStash w).2;
         result := newResult evalName 1 FirstShot |}.

(** ** Durations *)

(** Whether a run of [d] milliseconds is written with the duration [d]. *)
Definition millisExact (d : Z) : bool :=
  match millisOf (PrimFloat.div (Number_of_Z d) (Number_of_Z 1000)) with
  | Some ms => (ms =? d)%Z
  | None => false
  end.

(** [millisExact] on the [2^k] integers from [lo] on. *)
Fixpoint checkRange (k : nat) (lo : Z) : bool :=
  match k with
  | O => millisExact lo
  | S k' => checkRange k' lo && checkRange k' (lo + 2 ^ Z.of_nat k')%Z
  end.

(** ** A sample platform for concrete runs *)

Definition okOut : ShellOutput := {| exitCode := 0; stdout := ""; stderr := "" |}.
Definition failOut (out err : string) : ShellOutput :=
  {| exitCode := 1; stdout := out; stderr := err |}.

Definition emptyFS : FS := {| files := ∅; dirs := ∅ |}.

Definition world0 : World :=
  {| fs := emptyFS; d3kProcess := None; nextPid := 100; trace := [] |}.

(** An evaluation with a prompt, no fixtures, and every command passing. *)
Definition quietRun : RunEnv :=
  {| startClock := 1000; endClock := 4500;
     promptFile := Some (Normal "Add a route");
     inputDirExists := true;
     findTestLines := []; findStubLines := [];
     fixture := fun _ => Throw "ENOENT: no such file or directory";
     claudeCli := fun _ => Normal okOut;
     bunRunBuild := fun _ => Normal okOut;
     ultraciteCheck := fun _ => Normal okOut;
     vitestRun := fun _ => Normal okOut;
     d3kHead := fun _ => Normal 200%Z;
     d3kLogFiles := fun _ => None;
     d3kReadLog := fun _ _ => Throw "ENOENT: no such file or directory" |}.

Definition envOf (runs : string → RunEnv) : Env :=
  {| path_join := joinWith "/";
     import_meta_dirname := "/repo/scripts";
     os_homedir := "/home/dev";
     cacheExists := true;
     gitFetch := Normal tt;
     evalsDirListing := Some ("001-first" +:+ LF +:+ "002-second" +:+ LF);
     run := runs;
     shellFs := fun _ t => t |}.

Definition withBuild (R : RunEnv) (f : nat → Completion ShellOutput) : RunEnv :=
  {| startClock := startClock R; endClock := endClock R;
     promptFile := promptFile R; inputDirExists := inputDirExists R;
     findTestLines := findTestLines R; findStubLines := findStubLines R;
     fixture := fixture R; claudeCli := claudeCli R;
     bunRunBuild := f;
     ultraciteCheck := ultraciteCheck R; vitestRun := vitestRun R;
     d3kHead := d3kHead R; d3kLogFiles := d3kLogFiles R;
     d3kReadLog := d3kReadLog R |}.

Definition withLint (R : RunEnv) (f : nat → Completion ShellOutput) : RunEnv :=
  {| startClock := startClock R; endClock := endClock R;
     promptFile := promptFile R; inputDirExists := inputDirExists R;
     findTestLines := findTestLines R; findStubLines := findStubLines R;
     fixture := fixture R; claudeCli := claudeCli R;
     bunRunBuild := bunRunBuild R;
     ultraciteCheck := f; vitestRun := vitestRun R;
     d3kHead := d3kHead R; d3kLogFiles := d3kLogFiles R;
     d3kReadLog := d3kReadLog R |}.

Definition withHead (R : RunEnv) (f : nat → Completion Z) : RunEnv :=
  {| startClock := startClock R; endClock := endClock R;
     promptFile := promptFile R; inputDirExists := inputDirExists R;
     findTestLines := findTestLines R; findStubLines := findStubLines R;
     fixture := fixture R; claudeCli := claudeCli R;
     bunRunBuild := bunRunBuild R;
     ultraciteCheck := ultraciteCheck R; vitestRun := vitestRun R;
     d3kHead := f; d3kLogFiles := d3kLogFiles R;
     d3kReadLog := d3kReadLog R |}.

Definition withPrompt (R : RunEnv) (p : option (Completion string)) : RunEnv :=
  {| startClock := startClock R; endClock := endClock R;
     promptFile := p; inputDirExists := inputDirExists R;
     findTestLines := findTestLines R; findStubLines := findStubLines R;
     fixture := fixture R; claudeCli := claudeCli R;
     bunRunBuild := bunRunBuild R;
     ultraciteCheck := ultraciteCheck R; vitestRun := vitestRun R;
     d3kHead := d3kHead R; d3kLogFiles := d3kLogFiles R;
     d3kReadLog := d3kReadLog R |}.

(** The cache paths of the sample platform. *)
Definition sampleInput : string :=
  "/repo/scripts/../.evals-cache/evals/001-first/input".

Definition withFixtures (R : RunEnv) (testLines stubLines : list string)
    (content : string → Completion string) : RunEnv :=
  {| startClock := startClock R; endClock := endClock R;
     promptFile := promptFile R; inputDirExists := inputDirExists R;
     findTestLines := testLines; findStubLines := stubLines;
     fixture := content; claudeCli := claudeCli R;
     bunRunBuild := bunRunBuild R;
     ultraciteCheck := ultraciteCheck R; vitestRun := vitestRun R;
     d3kHead := d3kHead R; d3kLogFiles := d3kLogFiles R;
     d3kReadLog := d3kReadLog R |}.

(** Keep [simpl] from unrolling the loops and from opening the text
    builders. *)
Arguments waitForServer : simpl never.
Arguments retryLoop : simpl never.
Arguments getD3kErrors : simpl never.
Arguments withFeedback : simpl never.
Arguments buildFeedback : simpl never.
Arguments lintFeedback : simpl never.
Arguments testFeedback : simpl never.
Arguments testPathsOf : simpl never.
Arguments stage : simpl never.
Arguments startD3k : simpl never.
Arguments stopD3k : simpl never.
Arguments restore : simpl never.
Arguments INSTRUCTIONS : simpl never.
Arguments String_of_error : simpl never.

(** ** Sample runs *)

Definition withClaude (R : RunEnv) (f : nat → Completion ShellOutput) : RunEnv :=
  {| startClock := startClock R; endClock := endClock R;
     promptFile := promptFile R; inputDirExists := inputDirExists R;
     findTestLines := findTestLines R; findStubLines := findStubLines R;
     fixture := fixture R; claudeCli := f;
     bunRunBuild := bunRunBuild R;
     ultraciteCheck := ultraciteCheck R; vitestRun := vitestRun R;
     d3kHead := d3kHead R; d3kLogFiles := d3kLogFiles R;
     d3kReadLog := d3kReadLog R |}.

Definition resultOf (x : Completion EvalResult * World) : EvalResult :=
  match x.1 with
  | Normal r => r
  | Throw _ => newResult "" 0 Full
  end.

Definition sampleEnv : Env := envOf (fun _ => quietRun).

(** The build fails on the first attempt only. *)
Definition flakyEnv : Env :=
  envOf (fun _ =>
    withBuild quietRun
      (fun k => if k =? 1 then Normal (failOut "compiling" "Type error in page.tsx")
                else Normal okOut)).

(** The build fails on every attempt. *)
Definition brokenEnv : Env :=
  envOf (fun _ => withBuild quietRun (fun _ => Normal (failOut "" "Type error"))).

(** The d3k server never answers. *)
Definition noServerEnv : Env :=
  envOf (fun _ => withHead quietRun (fun _ => Throw "ECONNREFUSED")).

(** Spawning the linter faults. *)
Definition lintFaultEnv : Env :=
  envOf (fun _ => withLint quietRun (fun _ => Throw "spawn ENOMEM")).

(** The first evaluation of the listing has no prompt.md. *)
Definition missingPromptEnv : Env :=
  envOf (fun n => if String.eqb n "001-first" then withPrompt quietRun None
                  else quietRun).

(** One test fixture and one stub, both already present in the tree. *)
Definition fixtureRun : RunEnv :=
  withFixtures quietRun
    [sampleInput +:+ "/app/page.test.tsx"]
    [sampleInput +:+ "/app/page.tsx"; sampleInput +:+ "/app/page.test.tsx"]
    (fun _ => Normal "theirs").

Definition fixtureEnv : Env := envOf (fun _ => fixtureRun).

Definition mineWorld : World :=
  {| fs := {| files := {[ "/repo/scripts/../app/page.test.tsx" := "mine";
                          "/repo/scripts/../app/page.tsx" := "mine too" ]};
              dirs := {[ "/repo/scripts/../app/page.test.tsx/.." ;
                         "/repo/scripts/../app/page.tsx/.." ]} |};
     d3kProcess := None; nextPid := 100; trace := [] |}.

(** Copying the fixture fails with an error that is not a plain
    [Error]. *)
Definition copyFaultEnv : Env :=
  envOf (fun _ =>
    withFixtures quietRun [sampleInput +:+ "/app/page.test.tsx"] []
      (fun _ => Throw {| errName := "SystemError [ERR_FS_EISDIR]";
                         errMessage := "Path is a directory: cp returned EISDIR" |})).

(** The unreadable fixture: staging faults before the agent is called. *)
Definition unreadableEnv : Env :=
  envOf (fun _ =>
    withFixtures quietRun [sampleInput +:+ "/app/page.test.tsx"] []
      (fun _ => Throw "EACCES: permission denied")).

Definition flakyRun := runEvalFull flakyEnv "001-first" false world0.
Definition brokenFirstShot := runEval brokenEnv "001-first" false world0.
Definition brokenFull := runEvalFull brokenEnv "001-first" false world0.
Definition noServerRun := runEvalFull noServerEnv "001-first" false world0.
Definition lintFaultRun := runEvalFull lintFaultEnv "001-first" false world0.
Definition lintFaultFirstShot := runEval lintFaultEnv "001-first" false world0.
Definition quietFirstShot := runEval sampleEnv "001-first" false world0.
Definition copyFaultFirstShot := runEval copyFaultEnv "001-first" false world0.

(** The entry of the JSON summary for one record, as documented:
    [{evalPath, mode, result}] with the six result fields, and [error]
    when the record has one. *)
Definition summaryEntry (r : EvalResult) : json :=
  JObj
    [("evalPath", JStr (name r));
     ("mode", JStr (modeString (mode r)));
     ("result",
      JObj
        ([("success", JBool (passed r));
          ("buildSuccess", JBool (build r));
          ("lintSuccess", JBool (lint r));
          ("testSuccess", JBool (tests r));
          ("attempts", JNum (Z.of_nat (attempts r)));
          ("duration", match millisOf (duration r) with
                       | Some ms => JNum ms
                       | None => JNull
                       end)] ++
         match error r with
         | Some e => [("error", JStr e)]
         | None => []
         end))].

(** ** Further readers of the log and of the environment *)

(** What the [i]-th poll of [startD3k] finds: the server answered with
    [res.ok] or with status 404.  A [fetch] that raises counts as not
    ready (line 103). *)
Definition pollReady (R : RunEnv) (i : nat) : bool :=
  match d3kHead R i with
  | Normal status => headReady status
  | Throw _ => false
  end.

(** The first ready poll among the polls [a], [a+1], ..., [a+n-1]. *)
Fixpoint firstReadyFrom (R : RunEnv) (n a : nat) : option nat :=
  match n with
  | 0 => None
  | S n' => if pollReady R a then Some a else firstReadyFrom R n' (S a)
  end.

Definition firstReady (R : RunEnv) : option nat := firstReadyFrom R 30 0.

(** One unsuccessful poll: the request, then the wait of one second. *)
Definition pollAndWait : list Event := [EvFetchHead; EvSleep 1000].

(** What the polling loop of [startD3k] logs when it starts at poll [a]
    with [n] polls left: the unsuccessful polls before the first ready
    one, and that one; or [n] unsuccessful polls. *)
Definition pollLog (R : RunEnv) (n a : nat) : list Event :=
  match firstReadyFrom R n a with
  | Some j => concat (replicate (j - a) pollAndWait) ++ [EvFetchHead]
  | None => concat (replicate n pollAndWait)
  end.

Definition isStagingEv (e : Event) : bool :=
  match e with EvMkdir _ | EvCopy _ _ => true | _ => false end.

Definition isD3kStartEv (e : Event) : bool :=
  match e with
  | EvClearLogs | EvSpawnD3k _ | EvFetchHead | EvSleep _ => true
  | _ => false
  end.

Definition isAttemptEv (e : Event) : bool :=
  match e with
  | EvClaude _ | EvSleep _ | EvBuild | EvLint | EvInstallVitest | EvVitest _ =>
      true
  | _ => false
  end.

Definition isStopEv (e : Event) : bool :=
  match e with EvKill _ | EvSleep _ => true | _ => false end.

Definition isTestRunnerEv (e : Event) : bool :=
  match e with EvInstallVitest | EvVitest _ => true | _ => false end.

Definition isStashEv (e : Event) : bool :=
  match e with EvGitStash => true | _ => false end.

Definition isStashPopEv (e : Event) : bool :=
  match e with EvGitStashPop => true | _ => false end.

(** The number of events of a kind in a log. *)
Definition countEv (p : Event → bool) (tr : list Event) : nat :=
  length (List.filter p tr).

(** The number of line feeds of a text: one less than its number of
    lines. *)
Fixpoint lineFeeds (s : string) : nat :=
  match s with
  | "" => 0
  | String c rest =>
      (if Ascii.eqb c (Ascii.ascii_of_nat 10) then 1 else 0) + lineFeeds rest
  end.

(** The four signatures that decide [getD3kErrors]: the three patterns
    [TypeError:], [ReferenceError:] and [SyntaxError:] of the list all
    contain [Error:]. *)
Definition decidingPatterns : list string :=
  ["Error:"; "Unhandled Runtime Error"; "Build Error"; "Failed to compile"].

(** *** The lets of [main] (lines 651-668 and 694) *)

Definition runAllOf (args : list string) : bool :=
  existsb (String.eqb "--all") args.

Definition fullModeOf (args : list string) : bool :=
  existsb (String.eqb "--full") args.

Definition outputFileOf (args : list string) : option string :=
  match indexOf "--output" args with
  | Some outputIdx => args !! (outputIdx + 1)
  | None => None
  end.

Definition evalsToRunOf (E : Env) (args : list string) : list string :=
  if runAllOf args then listEvals E
  else match positional args with Some n => [n] | None => [] end.

(** Whether [main] goes past the usage text. *)
Definition runsBatch (args : list string) : bool :=
  runAllOf args || truthyOpt (positional args).

Arguments firstReadyFrom : simpl never.
Arguments firstReady : simpl never.

(** The log of [stopD3k] for a given value of the handle. *)
Definition stopLog (h : option nat) : list Event :=
  match h with
  | Some pid => [EvKill pid; EvSleep 500]
  | None => []
  end.

(** The events that follow the first call of the agent. *)
Fixpoint afterFirstAgent (tr : list Event) : list Event :=
  match tr with
  | [] => []
  | EvClaude _ :: rest => rest
  | _ :: rest => afterFirstAgent rest
  end.

(** The steps that follow the agent call inside one attempt. *)
Definition isGateStepEv (e : Event) : bool :=
  match e with
  | EvSleep _ | EvBuild | EvLint | EvInstallVitest | EvVitest _ => true
  | _ => false
  end.

(** The log of one attempt: the agent call, then gate steps only. *)
Definition attemptSegment (seg : list Event) : bool :=
  match seg with
  | EvClaude _ :: rest => forallb isGateStepEv rest
  | _ => false
  end.

(** The refresh of the evals cache, as [fetchEvals] logs it. *)
Definition fetchEvent (E : Env) : Event :=
  if cacheExists E then EvGitPull else EvGitClone.

(** A run with d3k logs: one log file whose end holds a type error. *)
Definition sampleLog : string :=
  "ready on port 3000" +:+ LF +:+ "TypeError: x is not a function" +:+ LF +:+
  "    at Page (app/page.tsx:3:1)".

Definition logsRun : RunEnv :=
  {| startClock := 1000; endClock := 4500;
     promptFile := Some (Normal "Add a route");
     inputDirExists := true;
     findTestLines := []; findStubLines := [];
     fixture := fun _ => Throw "ENOENT: no such file or directory";
     claudeCli := fun _ => Normal okOut;
     bunRunBuild := fun _ => Normal okOut;
     ultraciteCheck := fun _ => Normal okOut;
     vitestRun := fun _ => Normal okOut;
     d3kHead := fun _ => Normal 200%Z;
     d3kLogFiles := fun _ => Some ["d3k-2026.log"; "older.log"];
     d3kReadLog := fun _ _ => Normal sampleLog |}.

(** [emits p w w']: [w'] is [w] with events added to the log that all
    satisfy [p], and with the same d3k handle. *)
Definition emits (p : Event → bool) (w w' : World) : Prop :=
  ∃ evs, trace w' = trace w ++ evs ∧ forallb p evs = true ∧
         d3kProcess w' = d3kProcess w.

Definition isPollEv (e : Event) : bool :=
  match e with EvFetchHead | EvSleep _ => true | _ => false end.

(** The d3k processes a run that found the handle [h] kills when it
    spawns none of its own. *)
Definition handleList (h : option nat) : list nat :=
  match h with Some pid => [pid] | None => [] end.

Definition debugOf (args : list string) : bool :=
  existsb (String.eqb "--debug") args.

(** What [main] hands to [Bun.write] for the records [results]. *)
Definition summaryWritten (args : list string) (results : list EvalResult)
    : list (string * json) :=
  match outputFileOf args with
  | Some path =>
      if truthy path then [(path, JArr (map summaryEntry results))] else []
  | None => []
  end.

(** The most agent calls one evaluation can take in a mode. *)
Definition callBudget (fullMode : bool) : nat :=
  if fullMode then MAX_FULL_ATTEMPTS else 1.

(** [exitCode === 0] for a command of the environment; a command that
    raised gave no exit code. *)
Definition exitOk (c : Completion ShellOutput) : bool :=
  match c with Normal o => succeeded o | Throw _ => false end.


(** The lists of paths the test runner was started with, oldest first. *)
Fixpoint vitestArgs (tr : list Event) : list (list string) :=
  match tr with
  | [] => []
  | EvVitest paths :: rest => paths :: vitestArgs rest
  | _ :: rest => vitestArgs rest
  end.

(** The copies made, as pairs of source and destination. *)
Fixpoint copies (tr : list Event) : list (string * string) :=
  match tr with
  | [] => []
  | EvCopy src dst :: rest => (src, dst) :: copies rest
  | _ :: rest => copies rest
  end.
(** ** Facts about the log readers *)

Lemma payloads_app (l1 l2 : list Event) :
  payloads (l1 ++ l2) = payloads l1 ++ payloads l2.
Proof.
  induction l1 as [|e l1 IH]; [reflexivity|].
  destruct e; simpl; rewrite ?IH; reflexivity.
Qed.

Lemma gatesRun_app (l1 l2 : list Event) :
  gatesRun (l1 ++ l2) = gatesRun l1 ++ gatesRun l2.
Proof.
  induction l1 as [|e l1 IH]; [reflexivity|].
  destruct e; simpl; rewrite ?IH; reflexivity.
Qed.

Lemma spawned_app (l1 l2 : list Event) :
  spawned (l1 ++ l2) = spawned l1 ++ spawned l2.
Proof.
  induction l1 as [|e l1 IH]; [reflexivity|].
  destruct e; simpl; rewrite ?IH; reflexivity.
Qed.

Lemma killed_app (l1 l2 : list Event) :
  killed (l1 ++ l2) = killed l1 ++ killed l2.
Proof.
  induction l1 as [|e l1 IH]; [reflexivity|].
  destruct e; simpl; rewrite ?IH; reflexivity.
Qed.

Lemma agentCalls_app (l1 l2 : list Event) :
  agentCalls (l1 ++ l2) = agentCalls l1 + agentCalls l2.
Proof. unfold agentCalls. rewrite payloads_app. apply length_app. Qed.

Lemma quiet_refl (w : World) : quiet w w [].
Proof. unfold quiet. rewrite app_nil_r. auto. Qed.

Lemma quiet_trans (w1 w2 w3 : World) (e1 e2 : list Event) :
  quiet w1 w2 e1 → quiet w2 w3 e2 → quiet w1 w3 (e1 ++ e2).
Proof.
  intros (T1 & P1 & G1 & S1 & D1) (T2 & P2 & G2 & S2 & D2). unfold quiet.
  rewrite T2, T1, <- app_assoc, payloads_app, gatesRun_app, spawned_app,
    P1, P2, G1, G2, S1, S2.
  repeat split; congruence.
Qed.

Lemma quiet_one (w : World) (e : Event) (t : FS) :
  payloads [e] = [] → gatesRun [e] = [] → spawned [e] = [] →
  quiet w {| fs := t; d3kProcess := d3kProcess w; nextPid := nextPid w;
             trace := trace w ++ [e] |} [e].
Proof. unfold quiet. simpl. auto. Qed.

(** ** The d3k process *)

Section D3k.

Variable E : Env.

Lemma waitForServer_quiet (R : RunEnv) (fuel a : nat) (w : World) :
  ∃ evs, quiet w (waitForServer E R fuel a w).2 evs.
Proof.
  revert a w. induction fuel as [|fuel IH]; intros a w.
  { exists []. apply quiet_refl. }
  change (waitForServer E R (S fuel) a) with
    (if a <? 30 then
       let* res := tryIgnore (shellOut E EvFetchHead (d3kHead R a)) in
       match res with
       | Some status =>
           if headReady status then ret true
           else let* _ := sleep 1000 in waitForServer E R fuel (S a)
       | None => let* _ := sleep 1000 in waitForServer E R fuel (S a)
       end
     else ret false).
  destruct (a <? 30); [|exists []; apply quiet_refl].
  unfold bind, tryIgnore, shellOut, bind, shell, sleep, emit, ret.
  cbn [fst snd trace fs d3kProcess nextPid].
  set (w1 := {| fs := shellFs E EvFetchHead (fs w); d3kProcess := d3kProcess w;
                nextPid := nextPid w; trace := trace w ++ [EvFetchHead] |}).
  assert (Q1 : quiet w w1 [EvFetchHead]) by (apply quiet_one; reflexivity).
  set (w2 := {| fs := fs w1; d3kProcess := d3kProcess w1; nextPid := nextPid w1;
                trace := trace w1 ++ [EvSleep 1000] |}).
  assert (Q2 : quiet w1 w2 [EvSleep 1000]) by (apply quiet_one; reflexivity).
  destruct (d3kHead R a) as [status|err]; simpl.
  - destruct (headReady status); simpl.
    + eexists; exact Q1.
    + destruct (IH (S a) w2) as [evs Q3]. eexists.
      exact (quiet_trans _ _ _ _ _ Q1 (quiet_trans _ _ _ _ _ Q2 Q3)).
  - destruct (IH (S a) w2) as [evs Q3]. eexists.
    exact (quiet_trans _ _ _ _ _ Q1 (quiet_trans _ _ _ _ _ Q2 Q3)).
Qed.

(** [startD3k] stores the handle of the process it spawned, whether or not
    the server then answers in time. *)
Lemma startD3k_spec (R : RunEnv) (w : World) :
  ∃ evs,
    trace (startD3k E R w).2 =
      trace w ++ EvClearLogs :: EvSpawnD3k (nextPid w) :: evs ∧
    payloads evs = [] ∧ gatesRun evs = [] ∧ spawned evs = [] ∧
    d3kProcess (startD3k E R w).2 = Some (nextPid w).
Proof.
  unfold startD3k, bind, shell, spawnD3k.
  match goal with |- context [waitForServer E R 30 0 ?w1] =>
    destruct (waitForServer_quiet R 30 0 w1) as (evs & T & P & G & S & D);
    destruct (waitForServer E R 30 0 w1) as [[ready|err] w2] end;
    cbn [fst snd trace fs d3kProcess nextPid] in *; exists evs.
  - destruct ready; unfold ret, throw; cbn [fst snd];
      rewrite T, D, <- !app_assoc; auto.
  - rewrite T, D, <- !app_assoc; auto.
Qed.

Lemma restore_spec (w : World) :
  ∃ t, restore E w =
         (Normal tt,
          {| fs := t; d3kProcess := d3kProcess w; nextPid := nextPid w;
             trace := trace w ++ restoreEvents |}).
Proof.
  unfold restore, bind, shell. cbn [fst snd trace fs d3kProcess nextPid].
  rewrite <- !app_assoc. eexists. reflexivity.
Qed.

End D3k.

Lemma stopD3k_running (w : World) (pid : nat) :
  d3kProcess w = Some pid →
  stopD3k w =
    (Normal tt,
     {| fs := fs w; d3kProcess := None; nextPid := nextPid w;
        trace := trace w ++ [EvKill pid; EvSleep 500] |}).
Proof.
  intros H. unfold stopD3k. rewrite H.
  unfold bind, sleep, emit, setD3kProcess. simpl.
  rewrite <- app_assoc. reflexivity.
Qed.

Lemma stopD3k_idle (w : World) :
  d3kProcess w = None → stopD3k w = (Normal tt, w).
Proof. intros H. unfold stopD3k. rewrite H. reflexivity. Qed.

(** ** Staging *)

Lemma existsSync_false (t : FS) (p : string) :
  existsSync t p = false → files t !! p = None ∧ p ∉ dirs t.
Proof.
  unfold existsSync. intros H. apply orb_false_elim in H as [H1 H2].
  apply bool_decide_eq_false in H1, H2. split; [|exact H2].
  destruct (files t !! p) eqn:Hp; [|reflexivity].
  exfalso. apply H1. eauto.
Qed.

Lemma forEach_quiet {A} (f : A → M World unit) (l : list A) :
  (∀ x w, ∃ evs, quiet w (f x w).2 evs) →
  ∀ w, ∃ evs, quiet w (forEach l f w).2 evs.
Proof.
  intros Hf. induction l as [|x l IH]; intros w; simpl.
  { exists []. apply quiet_refl. }
  unfold bind. destruct (Hf x w) as [e1 Q1].
  destruct (f x w) as [[[]|err] w1]; simpl in *.
  - destruct (IH w1) as [e2 Q2]. eexists. exact (quiet_trans _ _ _ _ _ Q1 Q2).
  - eexists. exact Q1.
Qed.

Section Staging.

Variable E : Env.
Variable R : RunEnv.

Lemma mkdirSync_quiet (dir : string) (w : World) :
  ∃ evs, quiet w (mkdirSync dir w).2 evs.
Proof.
  unfold mkdirSync. destruct (files (fs w) !! dir); simpl.
  - exists []. apply quiet_refl.
  - exists [EvMkdir dir]. apply quiet_one; reflexivity.
Qed.

Lemma cpSync_quiet (src dst : string) (w : World) :
  ∃ evs, quiet w (cpSync R src dst w).2 evs.
Proof.
  unfold cpSync. destruct (fixture R src); simpl.
  - destruct (bool_decide _); simpl.
    + exists []. apply quiet_refl.
    + exists [EvCopy src dst]. apply quiet_one; reflexivity.
  - exists []. apply quiet_refl.
Qed.

Lemma mkdir_then_copy_quiet (there : bool) (dir src dst : string) (w : World) :
  ∃ evs,
    quiet w ((let* _ := when (negb there) (mkdirSync dir) in
              cpSync R src dst) w).2 evs.
Proof.
  unfold bind, when. destruct there; simpl.
  - apply cpSync_quiet.
  - destruct (mkdirSync_quiet dir w) as [e1 Q1].
    destruct (mkdirSync dir w) as [[[]|err] w1]; simpl in *.
    + destruct (cpSync_quiet src dst w1) as [e2 Q2].
      eexists. exact (quiet_trans _ _ _ _ _ Q1 Q2).
    + eexists. exact Q1.
Qed.

Lemma stageTestFile_quiet (inputDir testFile : string) (w : World) :
  ∃ evs, quiet w (stageTestFile E R inputDir testFile w).2 evs.
Proof.
  unfold stageTestFile. unfold bind at 1. unfold exists_ at 1.
  apply mkdir_then_copy_quiet.
Qed.

Lemma stageStubFile_quiet (inputDir stubFile : string) (w : World) :
  ∃ evs, quiet w (stageStubFile E R inputDir stubFile w).2 evs.
Proof.
  unfold stageStubFile. destruct (includes _ _).
  { exists []. apply quiet_refl. }
  unfold bind at 1. unfold exists_ at 1.
  destruct (existsSync _ _); simpl.
  { exists []. apply quiet_refl. }
  unfold bind at 1. unfold exists_ at 1.
  apply mkdir_then_copy_quiet.
Qed.

Lemma stage_quiet (evalName : string) (testFiles : list string) (w : World) :
  ∃ evs, quiet w (stage E R evalName testFiles w).2 evs.
Proof.
  unfold stage.
  set (inputDir := path_join E [EVALS_CACHE E; "evals"; evalName; "input"]).
  unfold bind at 1.
  destruct (forEach_quiet _ testFiles (stageTestFile_quiet inputDir) w)
    as [e1 Q1].
  destruct (forEach testFiles _ w) as [[[]|err] w1]; simpl in *.
  - destruct (forEach_quiet _ (stubFilesOf R) (stageStubFile_quiet inputDir) w1)
      as [e2 Q2].
    eexists. exact (quiet_trans _ _ _ _ _ Q1 Q2).
  - eexists. exact Q1.
Qed.

Lemma mkdirSync_files (dir : string) (w : World) :
  files (fs (mkdirSync dir w).2) = files (fs w).
Proof. unfold mkdirSync. destruct (files (fs w) !! dir); reflexivity. Qed.

Lemma cpSync_other (src dst p : string) (w : World) :
  dst ≠ p →
  files (fs (cpSync R src dst w).2) !! p = files (fs w) !! p.
Proof.
  intros Hne. unfold cpSync. destruct (fixture R src); simpl; [|reflexivity].
  destruct (bool_decide _); simpl; [reflexivity|].
  apply lookup_insert_ne. exact Hne.
Qed.

Lemma cpSync_writes (src dst : string) (w : World) :
  (cpSync R src dst w).1 = Normal tt →
  ∃ content,
    fixture R src = Normal content ∧
    files (fs (cpSync R src dst w).2) !! dst = Some content.
Proof.
  unfold cpSync. destruct (fixture R src) as [content|]; simpl; [|discriminate].
  destruct (bool_decide _); simpl; [discriminate|].
  intros _. exists content. split; [reflexivity|]. apply lookup_insert_eq.
Qed.

Lemma mkdir_then_copy_other (there : bool) (dir src dst p : string)
    (w : World) :
  dst ≠ p →
  files (fs ((let* _ := when (negb there) (mkdirSync dir) in
              cpSync R src dst) w).2) !! p = files (fs w) !! p.
Proof.
  intros Hne. unfold bind, when. destruct there; simpl.
  - apply cpSync_other. exact Hne.
  - pose proof (mkdirSync_files dir w) as Hm.
    destruct (mkdirSync dir w) as [[[]|err] w1]; simpl in *.
    + rewrite cpSync_other by exact Hne. rewrite Hm. reflexivity.
    + rewrite Hm. reflexivity.
Qed.

Lemma mkdir_then_copy_writes (there : bool) (dir src dst : string)
    (w : World) :
  ((let* _ := when (negb there) (mkdirSync dir) in
    cpSync R src dst) w).1 = Normal tt →
  ∃ content,
    fixture R src = Normal content ∧
    files (fs ((let* _ := when (negb there) (mkdirSync dir) in
                cpSync R src dst) w).2) !! dst = Some content.
Proof.
  unfold bind, when. destruct there; simpl.
  - apply cpSync_writes.
  - destruct (mkdirSync dir w) as [[[]|err] w1]; simpl.
    + apply cpSync_writes.
    + discriminate.
Qed.

(** A stub is copied only to a path where nothing exists, so every file of
    the working tree keeps its content. *)
Lemma stageStubFile_keeps (inputDir stubFile : string) (w : World)
    (p c : string) :
  files (fs w) !! p = Some c →
  files (fs (stageStubFile E R inputDir stubFile w).2) !! p = Some c.
Proof.
  intros Hp. unfold stageStubFile. destruct (includes _ _); [exact Hp|].
  unfold bind at 1. unfold exists_ at 1.
  destruct (existsSync _ _) eqn:Hex; simpl; [exact Hp|].
  apply existsSync_false in Hex as [Hfree _].
  unfold bind at 1. unfold exists_ at 1.
  rewrite mkdir_then_copy_other; [exact Hp|].
  intros Heq. rewrite Heq in Hfree. congruence.
Qed.

Lemma stageStubs_keep (inputDir : string) (stubs : list string) (w : World)
    (p c : string) :
  files (fs w) !! p = Some c →
  files (fs (forEach stubs (stageStubFile E R inputDir) w).2) !! p = Some c.
Proof.
  revert w. induction stubs as [|s stubs IH]; intros w Hp; simpl; [exact Hp|].
  unfold bind.
  pose proof (stageStubFile_keeps inputDir s w p c Hp) as H1.
  destruct (stageStubFile E R inputDir s w) as [[[]|err] w1]; simpl in *.
  - apply IH. exact H1.
  - exact H1.
Qed.

(** A test fixture is copied without looking at the destination. *)
Lemma stageTestFile_replaces (inputDir testFile : string) (w : World) :
  (stageTestFile E R inputDir testFile w).1 = Normal tt →
  ∃ content,
    fixture R testFile = Normal content ∧
    files (fs (stageTestFile E R inputDir testFile w).2)
      !! path_join E [PROJECT_ROOT E; replace (inputDir +:+ "/") "" testFile]
    = Some content.
Proof.
  unfold stageTestFile. unfold bind at 1 3. unfold exists_ at 1 2.
  apply mkdir_then_copy_writes.
Qed.

End Staging.

(** ** One attempt of the retry loop *)

(** Case analysis on what the environment answers during one attempt. *)
Ltac split_on H :=
  repeat match type of H with
         | context [claudeCli ?R' ?k] =>
             let Hx := fresh "Hx" in destruct (claudeCli R' k) eqn:Hx; simpl in H
         | context [bunRunBuild ?R' ?k] =>
             let Hx := fresh "Hx" in destruct (bunRunBuild R' k) eqn:Hx; simpl in H
         | context [ultraciteCheck ?R' ?k] =>
             let Hx := fresh "Hx" in
             destruct (ultraciteCheck R' k) eqn:Hx; simpl in H
         | context [vitestRun ?R' ?k] =>
             let Hx := fresh "Hx" in destruct (vitestRun R' k) eqn:Hx; simpl in H
         | context [succeeded ?o] =>
             let Hx := fresh "Hx" in destruct (succeeded o) eqn:Hx; simpl in H
         | context [?k <? MAX_FULL_ATTEMPTS] =>
             let Hx := fresh "Hx" in
             destruct (k <? MAX_FULL_ATTEMPTS) eqn:Hx; simpl in H
         | context [0 <? length ?l] =>
             let Hx := fresh "Hx" in destruct (0 <? length l) eqn:Hx; simpl in H
         end.

Ltac run_body H :=
  unfold attemptBody, firstShotAttempt, bind, liftW, shellOut, shell, update,
    ret, getResult, sleep, emit in H;
  simpl in H; split_on H; inversion H; subst; clear H; simpl.

Ltac use_cases :=
  repeat match goal with
         | Hx : _ = _ |- _ => rewrite Hx
         end; simpl.

Section Attempt.

Variable E : Env.
Variable R : RunEnv.
Variables evalName basePrompt : string.
Variable testFiles : list string.

Let hasTests : bool := 0 <? length testFiles.
Let body := attemptBody E R evalName basePrompt testFiles.

Lemma attemptBody_log (k : nat) (fb : string) (fr fr' : Frame)
    (c : Completion (Ctl * string)) :
  body k fb fr = (c, fr') →
  ∃ evs,
    trace (world fr') =
      trace (world fr) ++
      EvClaude (withFeedback (basePrompt +:+ INSTRUCTIONS) fb) :: evs ∧
    payloads evs = [] ∧ spawned evs = [] ∧
    d3kProcess (world fr') = d3kProcess (world fr) ∧
    attempts (result fr') = k ∧
    error (result fr') = error (result fr) ∧
    name (result fr') = name (result fr) ∧
    mode (result fr') = mode (result fr).
Proof.
  intros H. unfold body in H. run_body H.
  all: rewrite <- ?app_assoc; simpl; eexists; split; [reflexivity|];
    repeat split; reflexivity.
Qed.

Lemma attemptBody_verdict (k : nat) (fb : string) (fr fr' : Frame)
    (c : Completion (Ctl * string)) :
  body k fb fr = (c, fr') →
  match c with
  | Throw _ =>
      tests (result fr') = tests (result fr) ∧
      attemptPasses R hasTests k = false
  | Normal (Break, _) =>
      passed (result fr') = true ∧ attemptPasses R hasTests k = true
  | Normal (Next, fb') =>
      passed (result fr') = false ∧
      attemptPasses R hasTests k = false ∧
      (k < MAX_FULL_ATTEMPTS →
       firstFailingGateOutput R (getD3kErrors E R k) hasTests k = Some fb' ∧
       (tests (result fr) = false → tests (result fr') = false))
  end.
Proof.
  intros H. unfold attemptPasses, firstFailingGateOutput, hasTests.
  unfold body in H. run_body H.
  all: use_cases.
  all: unfold testFeedback, buildFeedback, lintFeedback, testsText,
    capturedText.
  all: try (destruct (getD3kErrors E R k) as [b|]; [destruct (truthy b)|]).
  all: try reflexivity.
  all: try (split; [assumption || reflexivity|]).
  all: try (split; [reflexivity|]).
  all: try (intros Hk; apply Nat.ltb_lt in Hk; try congruence).
  all: try (split; [reflexivity|tauto]).
  all: reflexivity.
Qed.

Lemma attemptBody_gates (k : nat) (fb : string) (fr fr' : Frame)
    (c : Completion (Ctl * string)) (seg : list Event) :
  body k fb fr = (c, fr') →
  trace (world fr') = trace (world fr) ++ seg →
  gateDiscipline R hasTests k seg.
Proof.
  intros H Hseg.
  unfold gateDiscipline, buildFails, lintFails, attemptFaultless, hasTests.
  unfold body in H. run_body H.
  all: simpl in Hseg; rewrite <- ?app_assoc in Hseg;
    apply app_inv_head in Hseg; subst seg; simpl.
  all: use_cases.
  all: split; [eexists; reflexivity|].
  all: repeat split; intros Hk; try discriminate; try reflexivity.
  all: try (apply Nat.ltb_lt in Hk; congruence).
  all: try (subst k; discriminate).
Qed.

(** The gates of an attempt of the loop are the ones the answers of the
    environment decide, cut short behind a failing gate on every attempt
    before the last. *)
Lemma attemptBody_gates_exact (k : nat) (fb : string) (fr fr' : Frame)
    (c : Completion (Ctl * string)) (seg : list Event) :
  body k fb fr = (c, fr') →
  trace (world fr') = trace (world fr) ++ seg →
  gatesRun seg = expectedGates R hasTests (k <? MAX_FULL_ATTEMPTS) k.
Proof.
  intros H Hseg. unfold expectedGates, hasTests.
  unfold body in H. run_body H.
  all: simpl in Hseg; rewrite <- ?app_assoc in Hseg;
    apply app_inv_head in Hseg; subst seg; simpl.
  all: use_cases.
  all: reflexivity.
Qed.

End Attempt.

(** ** The retry loop *)

Lemma feedback_truthy (R : RunEnv) (be : option string) (hasTests : bool)
    (k : nat) (fb : string) :
  firstFailingGateOutput R be hasTests k = Some fb → truthy fb = true.
Proof.
  unfold firstFailingGateOutput, testsText, capturedText.
  repeat match goal with
         | |- context [match ?x with _ => _ end] => destruct x
         end; intros H; inversion H; reflexivity.
Qed.

Section Loop.

Variable E : Env.
Variable R : RunEnv.
Variables evalName basePrompt : string.
Variable testFiles : list string.

Let hasTests : bool := 0 <? length testFiles.
Let body := attemptBody E R evalName basePrompt testFiles.
Let loop := retryLoop E R evalName basePrompt testFiles.
Let Runs := Iterations E R evalName basePrompt testFiles.
Let B : string := basePrompt +:+ INSTRUCTIONS.

(** The loop function follows the executions described by [Iterations]
    as soon as its fuel covers the attempts that remain. *)
Lemma retryLoop_iterations (fuel a : nat) (fb : string) (fr : Frame) :
  MAX_FULL_ATTEMPTS < fuel + a →
  ∃ segs, Runs a fb fr segs (loop fuel a fb fr).1 (loop fuel a fb fr).2.
Proof.
  revert a fb fr. induction fuel as [|fuel IH]; intros a fb fr Hfuel.
  { exists []. simpl. apply It_exhausted. lia. }
  unfold loop.
  change (retryLoop E R evalName basePrompt testFiles (S fuel) a fb) with
    (if a <=? MAX_FULL_ATTEMPTS then
       let* out := attemptBody E R evalName basePrompt testFiles a fb in
       match out with
       | (Break, _) => ret tt
       | (Next, feedbackContext') =>
           retryLoop E R evalName basePrompt testFiles fuel (S a)
             feedbackContext'
       end
     else ret tt).
  destruct (a <=? MAX_FULL_ATTEMPTS) eqn:Ha.
  2:{ exists []. apply It_exhausted. apply Nat.leb_gt in Ha. exact Ha. }
  apply Nat.leb_le in Ha. unfold bind.
  destruct (attemptBody E R evalName basePrompt testFiles a fb fr)
    as [[[ctl fb']|err] fr1] eqn:Hb.
  - destruct (attemptBody_log E R _ _ _ _ _ _ _ _ Hb) as (evs & T & _).
    destruct ctl.
    + destruct (IH (S a) fb' fr1) as [segs HI]; [lia|].
      eexists. eapply It_next; eauto.
    + eexists. simpl. eapply It_break; eauto.
  - destruct (attemptBody_log E R _ _ _ _ _ _ _ _ Hb) as (evs & T & _).
    eexists. simpl. eapply It_throw; eauto.
Qed.

Lemma Iterations_frame a fb fr segs c fr' :
  Runs a fb fr segs c fr' →
  trace (world fr') = trace (world fr) ++ concat segs ∧
  d3kProcess (world fr') = d3kProcess (world fr) ∧
  error (result fr') = error (result fr) ∧
  name (result fr') = name (result fr) ∧
  mode (result fr') = mode (result fr).
Proof.
  induction 1 as [a fb fr Ha
                 |a fb fr fb' fr1 seg Ha Hb T
                 |a fb fr err fr1 seg Ha Hb T
                 |a fb fr fb' fr1 seg segs c fr2 Ha Hb T HI IH]; simpl.
  - rewrite app_nil_r. auto.
  - destruct (attemptBody_log E R _ _ _ _ _ _ _ _ Hb)
      as (evs & _ & _ & _ & D & _ & Er & Nm & Md).
    rewrite app_nil_r. auto.
  - destruct (attemptBody_log E R _ _ _ _ _ _ _ _ Hb)
      as (evs & _ & _ & _ & D & _ & Er & Nm & Md).
    rewrite app_nil_r. auto.
  - destruct (attemptBody_log E R _ _ _ _ _ _ _ _ Hb)
      as (evs & _ & _ & _ & D & _ & Er & Nm & Md).
    destruct IH as (T2 & D2 & Er2 & Nm2 & Md2).
    rewrite T2, T, <- app_assoc.
    repeat split; congruence.
Qed.

(** Every iteration calls the agent exactly once and spawns nothing. *)
Lemma segment_shape k fb fr c fr' seg :
  body k fb fr = (c, fr') →
  trace (world fr') = trace (world fr) ++ seg →
  payloads seg = [withFeedback B fb] ∧ spawned seg = [].
Proof.
  intros Hb T.
  destruct (attemptBody_log E R _ _ _ _ _ _ _ _ Hb) as (evs & T' & P & S & _).
  rewrite T' in T. apply app_inv_head in T. subst seg. simpl.
  rewrite P, S. auto.
Qed.

Lemma Iterations_count a fb fr segs c fr' :
  Runs a fb fr segs c fr' →
  agentCalls (concat segs) = length segs ∧
  spawned (concat segs) = [] ∧
  (a ≤ S MAX_FULL_ATTEMPTS → a + length segs ≤ S MAX_FULL_ATTEMPTS) ∧
  (segs ≠ [] → attempts (result fr') + 1 = a + length segs) ∧
  (segs = [] → fr' = fr ∧ c = Normal tt).
Proof.
  unfold agentCalls.
  induction 1 as [a fb fr Ha
                 |a fb fr fb' fr1 seg Ha Hb T
                 |a fb fr err fr1 seg Ha Hb T
                 |a fb fr fb' fr1 seg segs c fr2 Ha Hb T HI IH]; simpl.
  - repeat split; auto; try lia; congruence.
  - destruct (segment_shape _ _ _ _ _ _ Hb T) as [P S].
    destruct (attemptBody_log E R _ _ _ _ _ _ _ _ Hb)
      as (evs & _ & _ & _ & _ & At & _).
    rewrite app_nil_r, P, S. simpl.
    repeat split; auto; try lia; try congruence.
  - destruct (segment_shape _ _ _ _ _ _ Hb T) as [P S].
    destruct (attemptBody_log E R _ _ _ _ _ _ _ _ Hb)
      as (evs & _ & _ & _ & _ & At & _).
    rewrite app_nil_r, P, S. simpl.
    repeat split; auto; try lia; try congruence.
  - destruct (segment_shape _ _ _ _ _ _ Hb T) as [P S].
    destruct (attemptBody_log E R _ _ _ _ _ _ _ _ Hb)
      as (evs & _ & _ & _ & _ & At & _).
    destruct IH as (C2 & S2 & B2 & A2 & N2).
    rewrite payloads_app, spawned_app, P, S, S2. simpl. rewrite C2.
    repeat split; auto; try lia; try congruence.
    intros _. destruct segs as [|s segs'].
    + destruct (N2 eq_refl) as [-> _]. simpl. lia.
    + assert (s :: segs' ≠ []) as Hne by discriminate.
      specialize (A2 Hne). simpl in *. lia.
Qed.

(** After [Next] on the last attempt the loop is over. *)
Lemma Iterations_past a fb fr segs c fr' :
  Runs a fb fr segs c fr' → MAX_FULL_ATTEMPTS < a →
  segs = [] ∧ c = Normal tt ∧ fr' = fr.
Proof. destruct 1; intros; try lia; auto. Qed.

Lemma Iterations_payloads a fb fr segs c fr' :
  Runs a fb fr segs c fr' →
  ∀ i p, payloads (concat segs) !! i = Some p →
    match i with
    | 0 => p = withFeedback B fb
    | S j =>
        ∃ fbk,
          firstFailingGateOutput R (getD3kErrors E R (a + j)) hasTests (a + j)
            = Some fbk ∧
          p = B +:+ feedbackBlock fbk
    end.
Proof.
  induction 1 as [a fb fr Ha
                 |a fb fr fb' fr1 seg Ha Hb T
                 |a fb fr err fr1 seg Ha Hb T
                 |a fb fr fb' fr1 seg segs c fr2 Ha Hb T HI IH];
    intros i p; simpl.
  - intros Hp. destruct i; discriminate.
  - destruct (segment_shape _ _ _ _ _ _ Hb T) as [P _].
    rewrite app_nil_r, P. destruct i as [|[|j]]; simpl; intros Hp;
      inversion Hp; reflexivity.
  - destruct (segment_shape _ _ _ _ _ _ Hb T) as [P _].
    rewrite app_nil_r, P. destruct i as [|[|j]]; simpl; intros Hp;
      inversion Hp; reflexivity.
  - destruct (segment_shape _ _ _ _ _ _ Hb T) as [P _].
    rewrite payloads_app, P. simpl.
    destruct i as [|j]; simpl; intros Hp; [inversion Hp; reflexivity|].
    destruct (decide (a < MAX_FULL_ATTEMPTS)) as [Hlt|Hge].
    2:{ destruct (Iterations_past _ _ _ _ _ _ HI) as (-> & _); [lia|].
        simpl in Hp. discriminate. }
    pose proof (attemptBody_verdict E R _ _ _ _ _ _ _ _ Hb) as V.
    simpl in V. destruct V as (_ & _ & V). destruct (V Hlt) as [F _].
    specialize (IH j p Hp). destruct j as [|j'].
    + subst p. exists fb'. rewrite Nat.add_0_r. split; [exact F|].
      unfold withFeedback. rewrite (feedback_truthy _ _ _ _ _ F). reflexivity.
    + rewrite Nat.add_succ_r. exact IH.
Qed.

Lemma Iterations_early_exit a fb fr segs c fr' :
  Runs a fb fr segs c fr' →
  ∀ k, a ≤ k → k < a + length segs → attemptPasses R hasTests k = true →
    a + length segs = S k ∧ c = Normal tt ∧
    passed (result fr') = true ∧ attempts (result fr') = k.
Proof.
  induction 1 as [a fb fr Ha
                 |a fb fr fb' fr1 seg Ha Hb T
                 |a fb fr err fr1 seg Ha Hb T
                 |a fb fr fb' fr1 seg segs c fr2 Ha Hb T HI IH];
    intros k Hk1 Hk2 Hpass; simpl in *.
  - lia.
  - assert (k = a) as -> by lia.
    pose proof (attemptBody_verdict E R _ _ _ _ _ _ _ _ Hb) as V.
    destruct (attemptBody_log E R _ _ _ _ _ _ _ _ Hb)
      as (evs & _ & _ & _ & _ & At & _).
    simpl in V. destruct V as [V _]. repeat split; auto; lia.
  - assert (k = a) as -> by lia.
    pose proof (attemptBody_verdict E R _ _ _ _ _ _ _ _ Hb) as V.
    simpl in V. destruct V as [_ V]. fold hasTests in V. congruence.
  - destruct (decide (k = a)) as [->|Hne].
    + pose proof (attemptBody_verdict E R _ _ _ _ _ _ _ _ Hb) as V.
      simpl in V. destruct V as (_ & V & _). fold hasTests in V. congruence.
    + destruct (IH k) as (L & C & P & At); auto; try lia.
      repeat split; auto; lia.
Qed.

(** A fault inside the loop finds the [tests] field still false. *)
Lemma Iterations_fault a fb fr segs c fr' :
  Runs a fb fr segs c fr' →
  tests (result fr) = false →
  ∀ err, c = Throw err → tests (result fr') = false.
Proof.
  induction 1 as [a fb fr Ha
                 |a fb fr fb' fr1 seg Ha Hb T
                 |a fb fr err fr1 seg Ha Hb T
                 |a fb fr fb' fr1 seg segs c fr2 Ha Hb T HI IH];
    intros Ht e He; try discriminate.
  - pose proof (attemptBody_verdict E R _ _ _ _ _ _ _ _ Hb) as V.
    simpl in V. destruct V as [V _]. congruence.
  - destruct (decide (a < MAX_FULL_ATTEMPTS)) as [Hlt|Hge].
    2:{ destruct (Iterations_past _ _ _ _ _ _ HI) as (_ & -> & _); [lia|].
        discriminate. }
    pose proof (attemptBody_verdict E R _ _ _ _ _ _ _ _ Hb) as V.
    simpl in V. destruct V as (_ & _ & V). destruct (V Hlt) as [_ V'].
    eapply IH; eauto.
Qed.

(** Every iteration keeps the discipline of the gates for its attempt. *)
Lemma Iterations_gates a fb fr segs c fr' :
  Runs a fb fr segs c fr' →
  ∀ i seg, segs !! i = Some seg → gateDiscipline R hasTests (a + i) seg.
Proof.
  induction 1 as [a fb fr Ha
                 |a fb fr fb' fr1 seg Ha Hb T
                 |a fb fr err fr1 seg Ha Hb T
                 |a fb fr fb' fr1 seg segs c fr2 Ha Hb T HI IH];
    intros i s Hs.
  - destruct i; discriminate.
  - destruct i as [|i]; [|destruct i; discriminate].
    inversion Hs; subst s. rewrite Nat.add_0_r.
    exact (attemptBody_gates E R _ _ _ _ _ _ _ _ _ Hb T).
  - destruct i as [|i]; [|destruct i; discriminate].
    inversion Hs; subst s. rewrite Nat.add_0_r.
    exact (attemptBody_gates E R _ _ _ _ _ _ _ _ _ Hb T).
  - destruct i as [|i]; simpl in Hs.
    + inversion Hs; subst s. rewrite Nat.add_0_r.
      exact (attemptBody_gates E R _ _ _ _ _ _ _ _ _ Hb T).
    + rewrite Nat.add_succ_r. exact (IH i s Hs).
Qed.

Lemma Iterations_gates_exact a fb fr segs c fr' :
  Runs a fb fr segs c fr' →
  ∀ i seg, segs !! i = Some seg →
    gatesRun seg =
      expectedGates R hasTests (a + i <? MAX_FULL_ATTEMPTS) (a + i).
Proof.
  induction 1 as [a fb fr Ha
                 |a fb fr fb' fr1 seg Ha Hb T
                 |a fb fr err fr1 seg Ha Hb T
                 |a fb fr fb' fr1 seg segs c fr2 Ha Hb T HI IH];
    intros i s Hs.
  - destruct i; discriminate.
  - destruct i as [|i]; [|destruct i; discriminate].
    inversion Hs; subst s. rewrite Nat.add_0_r.
    exact (attemptBody_gates_exact E R _ _ _ _ _ _ _ _ _ Hb T).
  - destruct i as [|i]; [|destruct i; discriminate].
    inversion Hs; subst s. rewrite Nat.add_0_r.
    exact (attemptBody_gates_exact E R _ _ _ _ _ _ _ _ _ Hb T).
  - destruct i as [|i]; simpl in Hs.
    + inversion Hs; subst s. rewrite Nat.add_0_r.
      exact (attemptBody_gates_exact E R _ _ _ _ _ _ _ _ _ Hb T).
    + rewrite Nat.add_succ_r. exact (IH i s Hs).
Qed.

End Loop.

(** ** Whole runs *)

Section Runs.

Variable E : Env.

Lemma teardown_full (w : World) :
  ∃ stop t,
    (let* _ := stopD3k in restore E) w =
      (Normal tt,
       {| fs := t; d3kProcess := None; nextPid := nextPid w;
          trace := trace w ++ stop ++ restoreEvents |}) ∧
    payloads stop = [] ∧ gatesRun stop = [] ∧ spawned stop = [] ∧
    (∀ pid, d3kProcess w = Some pid → pid ∈ killed stop).
Proof.
  unfold bind. destruct (d3kProcess w) as [pid|] eqn:D.
  - rewrite (stopD3k_running w pid D).
    match goal with |- context [restore E ?w1] =>
      destruct (restore_spec E w1) as [t Hr]; rewrite Hr end.
    exists [EvKill pid; EvSleep 500], t. simpl. rewrite <- app_assoc.
    repeat split; auto. intros p Hp. inversion Hp; subst. set_solver.
  - rewrite (stopD3k_idle w D).
    destruct (restore_spec E w) as [t Hr]; rewrite Hr.
    exists [], t. simpl. rewrite D. repeat split; auto. discriminate.
Qed.

(** The [try] block of [runEvalFull]: either staging or the start of d3k
    raised and no attempt was made, or the loop ran. *)
Lemma fullTry_inv (R : RunEnv) (evalName basePrompt : string)
    (testFiles : list string) (fr fr' : Frame) (c : Completion unit) :
  fullTry E R evalName basePrompt testFiles fr = (c, fr') →
  ∃ pre segs,
    trace (world fr') = trace (world fr) ++ pre ++ concat segs ∧
    payloads pre = [] ∧ gatesRun pre = [] ∧
    (∀ pid, pid ∈ spawned (pre ++ concat segs) →
            d3kProcess (world fr') = Some pid) ∧
    ((segs = [] ∧ result fr' = result fr ∧ ∃ err, c = Throw err) ∨
     (∃ fr1, result fr1 = result fr ∧
             Iterations E R evalName basePrompt testFiles 1 "" fr1 segs c fr')).
Proof.
  unfold fullTry, bind, liftW.
  destruct (stage_quiet E R evalName testFiles (world fr))
    as (e1 & T1 & P1 & G1 & S1 & D1).
  destruct (stage E R evalName testFiles (world fr)) as [[[]|err] w1];
    cbn [fst snd world result] in *.
  2:{ intros H; inversion H; subst; clear H. exists e1, [].
      cbn [world result concat].
      rewrite !app_nil_r, S1. repeat split; auto.
      - intros pid Hin. inversion Hin.
      - left. eauto. }
  destruct (startD3k_spec E R w1) as (e2 & T2 & P2 & G2 & S2 & D2).
  destruct (startD3k E R w1) as [[[]|err] w2]; cbn [fst snd world result] in *.
  2:{ intros H; inversion H; subst; clear H.
      exists (e1 ++ EvClearLogs :: EvSpawnD3k (nextPid w1) :: e2), [].
      cbn [world result concat].
      rewrite T2, T1, app_nil_r, <- app_assoc, payloads_app, gatesRun_app,
        spawned_app, P1, G1, S1. simpl. rewrite P2, G2, S2.
      repeat split; auto.
      - intros pid Hin. apply list_elem_of_singleton in Hin. congruence.
      - left. eauto. }
  set (fr1 := {| world := w2; result := result fr |}).
  destruct (retryLoop_iterations E R evalName basePrompt testFiles
              MAX_FULL_ATTEMPTS 1 "" fr1) as [segs HI]; [unfold MAX_FULL_ATTEMPTS; lia|].
  intros H. rewrite H in HI. cbn [fst snd] in HI.
  destruct (Iterations_frame _ _ _ _ _ _ _ _ _ _ _ HI) as (T3 & D3 & _).
  destruct (Iterations_count _ _ _ _ _ _ _ _ _ _ _ HI) as (_ & S3 & _).
  exists (e1 ++ EvClearLogs :: EvSpawnD3k (nextPid w1) :: e2), segs.
  rewrite T3. simpl. rewrite T2, T1, <- !app_assoc.
  rewrite payloads_app, gatesRun_app, !spawned_app, P1, G1, S1, S3. simpl.
  rewrite P2, G2, S2, D3. simpl.
  repeat split; auto.
  - intros pid Hin. apply list_elem_of_singleton in Hin. congruence.
  - right. exists fr1. auto.
Qed.

Lemma runEvalFull_inv (evalName : string) (debug : bool) (w w' : World)
    (r : EvalResult) :
  runEvalFull E evalName debug w = (Normal r, w') →
  ∃ base c fr stop,
    getEvalPrompt E evalName = Normal base ∧
    fullTry E (run E evalName) evalName base (getEvalTestFiles E evalName)
      {| world := (shell E EvGitStash w).2;
         result := newResult evalName 0 Full |} = (c, fr) ∧
    trace w' = trace (world fr) ++ stop ++ restoreEvents ∧
    payloads stop = [] ∧ gatesRun stop = [] ∧ spawned stop = [] ∧
    (∀ pid, d3kProcess (world fr) = Some pid → pid ∈ killed stop) ∧
    d3kProcess w' = None ∧
    r = set_duration
          (secondsSince (startClock (run E evalName)) (endClock (run E evalName)))
          (match c with
           | Throw err => set_error (String_of_error err) (result fr)
           | Normal _ => result fr
           end).
Proof.
  unfold runEvalFull. unfold bind at 1.
  destruct (getEvalPrompt E evalName) as [base|err]; [|discriminate].
  unfold bind at 1. unfold shell at 1.
  set (w1 := {| fs := shellFs E EvGitStash (fs w); d3kProcess := d3kProcess w;
                nextPid := nextPid w; trace := trace w ++ [EvGitStash] |}).
  unfold tryCatchFinally.
  destruct (fullTry E (run E evalName) evalName base
              (getEvalTestFiles E evalName)
              {| world := w1; result := newResult evalName 0 Full |})
    as [c fr] eqn:Htry.
  intros H. exists base, c, fr.
  destruct c as [[]|err]; unfold update, liftW in H; cbn [world result] in H.
  - destruct (teardown_full (world fr)) as (stop & t & Ht & Ps & Gs & Ss & Ks).
    rewrite Ht in H. simpl in H. inversion H; subst; clear H.
    exists stop. simpl. repeat split; auto.
  - destruct (teardown_full (world fr)) as (stop & t & Ht & Ps & Gs & Ss & Ks).
    rewrite Ht in H. simpl in H. inversion H; subst; clear H.
    exists stop. simpl. repeat split; auto.
Qed.

(** A readable prompt is all [runEvalFull] needs to return a record. *)
Lemma runEvalFull_total (evalName base : string) (debug : bool) (w : World) :
  getEvalPrompt E evalName = Normal base →
  ∃ r w', runEvalFull E evalName debug w = (Normal r, w') ∧ name r = evalName.
Proof.
  intros Hp. unfold runEvalFull. unfold bind at 1. rewrite Hp.
  unfold bind at 1. unfold shell at 1. unfold tryCatchFinally.
  match goal with |- context [fullTry E ?R' ?n ?b ?tf ?fr0] =>
    pose proof (fullTry_inv R' n b tf fr0) as Hinv;
    destruct (fullTry E R' n b tf fr0) as [c fr] end.
  destruct (Hinv fr c eq_refl) as (pre & segs & _ & _ & _ & _ & Hcase).
  assert (Hn : name (result fr) = evalName).
  { destruct Hcase as [(_ & -> & _)|(fr1 & Hr & HI)]; [reflexivity|].
    destruct (Iterations_frame _ _ _ _ _ _ _ _ _ _ _ HI) as (_ & _ & _ & Nm & _).
    rewrite Nm, Hr. reflexivity. }
  destruct c as [[]|err]; unfold update, liftW; cbn [world result].
  - destruct (teardown_full (world fr)) as (stop & t & Ht & _).
    rewrite Ht. simpl. eauto.
  - destruct (teardown_full (world fr)) as (stop & t & Ht & _).
    rewrite Ht. simpl. eauto.
Qed.

(** The agent call and the gates of [runEval]: one agent call, then every
    gate in turn, whatever the earlier ones gave. *)
Lemma firstShotAttempt_spec (R : RunEnv) (evalName prompt : string)
    (testFiles : list string) (fr fr' : Frame) (c : Completion unit)
    (seg : list Event) :
  firstShotAttempt E R evalName prompt testFiles fr = (c, fr') →
  trace (world fr') = trace (world fr) ++ seg →
  payloads seg = [prompt +:+ INSTRUCTIONS] ∧
  gatesRun seg `prefix_of` [GBuild; GLint; GTests] ∧
  (attemptFaultless R 1 = true →
   gatesRun seg =
     [GBuild; GLint] ++ (if 0 <? length testFiles then [GTests] else [])) ∧
  d3kProcess (world fr') = d3kProcess (world fr) ∧
  attempts (result fr') = attempts (result fr) ∧
  error (result fr') = error (result fr) ∧
  name (result fr') = name (result fr) ∧
  mode (result fr') = mode (result fr) ∧
  (∀ err, c = Throw err → tests (result fr') = tests (result fr)).
Proof.
  intros H Hseg. unfold attemptFaultless. run_body H.
  all: simpl in Hseg; rewrite <- ?app_assoc in Hseg;
    apply app_inv_head in Hseg; subst seg; simpl.
  all: use_cases.
  all: split; [reflexivity|].
  all: split; [eexists; reflexivity|].
  all: repeat split; try reflexivity; intros; discriminate.
Qed.

(** The single-shot runner never cuts an attempt short behind a failing
    gate. *)
Lemma firstShotAttempt_gates_exact (R : RunEnv) (evalName prompt : string)
    (testFiles : list string) (fr fr' : Frame) (c : Completion unit)
    (seg : list Event) :
  firstShotAttempt E R evalName prompt testFiles fr = (c, fr') →
  trace (world fr') = trace (world fr) ++ seg →
  gatesRun seg = expectedGates R (0 <? length testFiles) false 1.
Proof.
  intros H Hseg. unfold expectedGates. run_body H.
  all: simpl in Hseg; rewrite <- ?app_assoc in Hseg;
    apply app_inv_head in Hseg; subst seg; simpl.
  all: use_cases.
  all: reflexivity.
Qed.

Lemma firstShotTry_inv (R : RunEnv) (evalName prompt : string)
    (testFiles : list string) (fr fr' : Frame) (c : Completion unit) :
  firstShotTry E R evalName prompt testFiles fr = (c, fr') →
  ∃ pre seg,
    trace (world fr') = trace (world fr) ++ pre ++ seg ∧
    payloads pre = [] ∧ gatesRun pre = [] ∧
    d3kProcess (world fr') = d3kProcess (world fr) ∧
    attempts (result fr') = attempts (result fr) ∧
    error (result fr') = error (result fr) ∧
    name (result fr') = name (result fr) ∧
    mode (result fr') = mode (result fr) ∧
    (∀ err, c = Throw err → tests (result fr') = tests (result fr)) ∧
    (((stage E R evalName testFiles (world fr)).1 ≠ Normal tt ∧ seg = [] ∧
      ∃ err, c = Throw err) ∨
     ((stage E R evalName testFiles (world fr)).1 = Normal tt ∧
      payloads seg = [prompt +:+ INSTRUCTIONS] ∧
      gatesRun seg `prefix_of` [GBuild; GLint; GTests] ∧
      (attemptFaultless R 1 = true →
       gatesRun seg =
         [GBuild; GLint] ++ (if 0 <? length testFiles then [GTests] else [])) ∧
      gatesRun seg = expectedGates R (0 <? length testFiles) false 1)).
Proof.
  unfold firstShotTry. unfold bind at 1. unfold liftW at 1.
  destruct (stage_quiet E R evalName testFiles (world fr))
    as (e1 & T1 & P1 & G1 & S1 & D1).
  destruct (stage E R evalName testFiles (world fr)) as [[[]|err] w1];
    cbn [fst snd world result] in *.
  2:{ intros H; inversion H; subst; clear H. exists e1, [].
      cbn [world result]. rewrite app_nil_r.
      repeat split; auto;
        try (left; split; [discriminate|split; [reflexivity|eauto]]). }
  set (fr1 := {| world := w1; result := result fr |}).
  intros H.
  destruct (firstShotAttempt E R evalName prompt testFiles fr1)
    as [c1 fr2] eqn:Hatt. inversion H; subst c1 fr2; clear H.
  assert (∃ seg, trace (world fr') = trace (world fr1) ++ seg) as [seg Hseg].
  { revert Hatt. clear. intros H. run_body H.
    all: rewrite <- ?app_assoc; eexists; reflexivity. }
  destruct (firstShotAttempt_spec _ _ _ _ _ _ _ _ Hatt Hseg)
    as (P & Pre & Fl & D & At & Er & Nm & Md & Th).
  pose proof (firstShotAttempt_gates_exact _ _ _ _ _ _ _ _ Hatt Hseg) as Gx.
  exists e1, seg. rewrite Hseg. subst fr1. cbn [world result] in *.
  rewrite T1, <- app_assoc.
  repeat split; auto; try congruence; try (right; auto).
Qed.

Lemma runEval_inv (evalName : string) (debug : bool) (w w' : World)
    (r : EvalResult) :
  runEval E evalName debug w = (Normal r, w') →
  ∃ base c fr,
    getEvalPrompt E evalName = Normal base ∧
    firstShotTry E (run E evalName) evalName base (getEvalTestFiles E evalName)
      {| world := (shell E EvGitStash w).2;
         result := newResult evalName 1 FirstShot |} = (c, fr) ∧
    trace w' = trace (world fr) ++ restoreEvents ∧
    d3kProcess w' = d3kProcess (world fr) ∧
    r = set_duration
          (secondsSince (startClock (run E evalName)) (endClock (run E evalName)))
          (match c with
           | Throw err => set_error (String_of_error err) (result fr)
           | Normal _ => result fr
           end).
Proof.
  unfold runEval. unfold bind at 1.
  destruct (getEvalPrompt E evalName) as [base|err]; [|discriminate].
  unfold bind at 1. unfold shell at 1.
  set (w1 := {| fs := shellFs E EvGitStash (fs w); d3kProcess := d3kProcess w;
                nextPid := nextPid w; trace := trace w ++ [EvGitStash] |}).
  unfold tryCatchFinally.
  destruct (firstShotTry E (run E evalName) evalName base
              (getEvalTestFiles E evalName)
              {| world := w1; result := newResult evalName 1 FirstShot |})
    as [c fr] eqn:Htry.
  intros H. exists base, c, fr.
  destruct c as [[]|err]; unfold update, liftW in H; cbn [world result] in H.
  - destruct (restore_spec E (world fr)) as [t Ht].
    rewrite Ht in H. simpl in H. inversion H; subst; clear H.
    simpl. repeat split; auto.
  - destruct (restore_spec E (world fr)) as [t Ht].
    rewrite Ht in H. simpl in H. inversion H; subst; clear H.
    simpl. repeat split; auto.
Qed.

Lemma runEval_total (evalName base : string) (debug : bool) (w : World) :
  getEvalPrompt E evalName = Normal base →
  ∃ r w', runEval E evalName debug w = (Normal r, w') ∧ name r = evalName.
Proof.
  intros Hp. unfold runEval. unfold bind at 1. rewrite Hp.
  unfold bind at 1. unfold shell at 1. unfold tryCatchFinally.
  match goal with |- context [firstShotTry E ?R' ?n ?b ?tf ?fr0] =>
    pose proof (firstShotTry_inv R' n b tf fr0) as Hinv;
    destruct (firstShotTry E R' n b tf fr0) as [c fr] end.
  destruct (Hinv fr c eq_refl) as (pre & seg & _ & _ & _ & _ & _ & _ & Nm & _).
  cbn [world result newResult name] in Nm.
  destruct c as [[]|err]; unfold update, liftW; cbn [world result].
  - destruct (restore_spec E (world fr)) as [t Ht].
    rewrite Ht. simpl. eauto.
  - destruct (restore_spec E (world fr)) as [t Ht].
    rewrite Ht. simpl. eauto.
Qed.

(** *** The error a record carries *)

Lemma String_of_error_stored (err : JsError) :
  storedText err (String_of_error err).
Proof.
  unfold storedText, String_of_error.
  destruct (errName err) as [|a n'], (errMessage err) as [|b m'];
    simpl; repeat split; intros; congruence.
Qed.

(** A record carries the fault its guarded region raised, and no error
    when the region completed. *)
Lemma runner_error (fullMode : bool) (evalName : string) (debug : bool)
    (w w' : World) (r : EvalResult) :
  (if fullMode then runEvalFull E evalName debug
   else runEval E evalName debug) w = (Normal r, w') →
  ∃ base,
    getEvalPrompt E evalName = Normal base ∧
    match (tryBlockOf E fullMode evalName base w).1 with
    | Throw err => error r = Some (String_of_error err)
    | Normal _ => error r = None
    end.
Proof.
  destruct fullMode; intros H; unfold tryBlockOf.
  - destruct (runEvalFull_inv _ _ _ _ _ H)
      as (base & c & fr & stop & Hb & Htry & _ & _ & _ & _ & _ & _ & Hr).
    exists base. split; [exact Hb|]. rewrite Htry. cbn [fst].
    subst r. destruct c as [[]|err]; [|reflexivity]. simpl.
    destruct (fullTry_inv _ _ _ _ _ _ _ Htry)
      as (pre & segs & _ & _ & _ & _ & Hcase).
    destruct Hcase as [(_ & _ & err & Herr)|(fr1 & Hr1 & HI)]; [congruence|].
    destruct (Iterations_frame _ _ _ _ _ _ _ _ _ _ _ HI) as (_ & _ & Er & _).
    rewrite Er, Hr1. reflexivity.
  - destruct (runEval_inv _ _ _ _ _ H) as (base & c & fr & Hb & Htry & _ & _ & Hr).
    exists base. split; [exact Hb|]. rewrite Htry. cbn [fst].
    subst r. destruct c as [[]|err]; [|reflexivity]. simpl.
    destruct (firstShotTry_inv _ _ _ _ _ _ _ Htry)
      as (pre & seg & _ & _ & _ & _ & _ & Er & _).
    exact Er.
Qed.

(** *** Batches *)

Lemma runBatch_total (fullMode debug : bool) (names : list string) :
  (∀ n, n ∈ names → ∃ base, getEvalPrompt E n = Normal base) →
  ∀ acc w, ∃ results w',
    runBatch E fullMode debug names acc w = (Normal results, w') ∧
    map name results = map name acc ++ names.
Proof.
  induction names as [|n names IH]; intros Hall acc w; simpl.
  { exists acc, w. rewrite app_nil_r. auto. }
  destruct (Hall n) as [base Hb]; [set_solver|].
  unfold bind.
  assert (∃ r w1, (if fullMode then runEvalFull E n debug
                   else runEval E n debug) w = (Normal r, w1) ∧ name r = n)
    as (r & w1 & Hr & Hn).
  { destruct fullMode;
      [eapply runEvalFull_total|eapply runEval_total]; eauto. }
  rewrite Hr.
  destruct (IH (λ m Hm, Hall m ltac:(set_solver)) (acc ++ [r]) w1)
    as (results & w' & Hres & Hmap).
  exists results, w'. split; [exact Hres|].
  rewrite Hmap, map_app, <- app_assoc. simpl. rewrite Hn. reflexivity.
Qed.

Lemma runBatch_length (fullMode debug : bool) (names : list string) :
  ∀ acc w results w',
    runBatch E fullMode debug names acc w = (Normal results, w') →
    length results = length acc + length names.
Proof.
  induction names as [|n names IH]; intros acc w results w'; simpl.
  { unfold ret. intros H. inversion H. lia. }
  unfold bind.
  destruct ((if fullMode then runEvalFull E n debug else runEval E n debug) w)
    as [[r|err] w1]; [|discriminate].
  intros H. apply IH in H. rewrite H, length_app. simpl. lia.
Qed.

(** Every record of a batch was made by the runner of the mode, for the
    evaluation at its place in the list, in some state of the run. *)
Lemma runBatch_records (fullMode debug : bool) (names : list string) :
  ∀ acc w results w',
    runBatch E fullMode debug names acc w = (Normal results, w') →
    ∃ rs, results = acc ++ rs ∧
          Forall2 (λ n r, ∃ wi wi',
                     (if fullMode then runEvalFull E n debug
                      else runEval E n debug) wi = (Normal r, wi'))
                  names rs.
Proof.
  induction names as [|n names IH]; intros acc w results w'; simpl.
  { unfold ret. intros H. inversion H; subst. exists [].
    rewrite app_nil_r. split; [reflexivity|constructor]. }
  unfold bind.
  destruct ((if fullMode then runEvalFull E n debug else runEval E n debug) w)
    as [[r|err] w1] eqn:Hrun; [|discriminate].
  intros H. destruct (IH _ _ _ _ H) as (rs & -> & Hall).
  exists (r :: rs). rewrite <- app_assoc. split; [reflexivity|].
  constructor; [eauto|exact Hall].
Qed.

Lemma runBatch_firstShot (debug : bool) (names : list string) :
  ∀ acc w results w',
    runBatch E false debug names acc w = (Normal results, w') →
    (∀ r, r ∈ acc → attempts r = 1 ∧ mode r = FirstShot) →
    ∀ r, r ∈ results → attempts r = 1 ∧ mode r = FirstShot.
Proof.
  induction names as [|n names IH]; intros acc w results w'; simpl.
  { unfold ret. intros H Hacc. inversion H; subst. exact Hacc. }
  unfold bind.
  destruct (runEval E n debug w) as [[r0|err] w1] eqn:Hrun; [|discriminate].
  intros H Hacc. eapply IH; [exact H|].
  intros r Hr. apply elem_of_app in Hr as [Hr|Hr]; [auto|].
  apply list_elem_of_singleton in Hr. subst r.
  destruct (runEval_inv _ _ _ _ _ Hrun) as (base & c & fr & _ & Htry & _ & _ & ->).
  destruct (firstShotTry_inv _ _ _ _ _ _ _ Htry)
    as (pre & seg & _ & _ & _ & _ & At & _ & _ & Md & _).
  cbn [world result newResult attempts mode] in At, Md.
  destruct c as [[]|e]; simpl; auto.
Qed.

(** The anatomy of a run of [runEvalFull] that returns: the log is the
    stash, the quiet prelude, one segment per attempt, the stop of d3k
    and the restore of the tree. *)
Lemma runEvalFull_anatomy (evalName : string) (debug : bool) (w w' : World)
    (r : EvalResult) :
  runEvalFull E evalName debug w = (Normal r, w') →
  ∃ base pre segs stop c fr,
    getEvalPrompt E evalName = Normal base ∧
    fullTry E (run E evalName) evalName base (getEvalTestFiles E evalName)
      {| world := (shell E EvGitStash w).2;
         result := newResult evalName 0 Full |} = (c, fr) ∧
    added w w' = (EvGitStash :: pre) ++ concat segs ++ stop ++ restoreEvents ∧
    payloads pre = [] ∧ gatesRun pre = [] ∧
    payloads stop = [] ∧ gatesRun stop = [] ∧
    (∀ pid, pid ∈ spawned (added w w') → pid ∈ killed (added w w')) ∧
    d3kProcess w' = None ∧
    r = set_duration
          (secondsSince (startClock (run E evalName)) (endClock (run E evalName)))
          (match c with
           | Throw err => set_error (String_of_error err) (result fr)
           | Normal _ => result fr
           end) ∧
    ((segs = [] ∧ result fr = newResult evalName 0 Full ∧ ∃ err, c = Throw err) ∨
     (∃ fr1, result fr1 = newResult evalName 0 Full ∧
             Iterations E (run E evalName) evalName base
               (getEvalTestFiles E evalName) 1 "" fr1 segs c fr)).
Proof.
  intros H.
  destruct (runEvalFull_inv _ _ _ _ _ H)
    as (base & c & fr & stop & Hp & Htry & T & Ps & Gs & Ss & Ks & D & Hr).
  destruct (fullTry_inv _ _ _ _ _ _ _ Htry)
    as (pre & segs & T1 & Pp & Gp & Sp & Hcase).
  cbn [world result shell snd trace] in T1.
  assert (Hadd : added w w' =
                   (EvGitStash :: pre) ++ concat segs ++ stop ++ restoreEvents).
  { unfold added. rewrite T, T1, <- !app_assoc, drop_app_length.
    reflexivity. }
  exists base, pre, segs, stop, c, fr.
  repeat split; auto.
  intros pid Hin. rewrite Hadd in *.
  change (EvGitStash :: pre) with ([EvGitStash] ++ pre) in *.
  rewrite <- !app_assoc in *.
  rewrite !spawned_app in Hin. rewrite !killed_app.
  simpl in Hin. rewrite Ss, app_nil_l in Hin.
  rewrite !elem_of_app. right. right. right. left.
  apply Ks, Sp. rewrite spawned_app. apply elem_of_app.
  apply elem_of_app in Hin as [Hin|Hin]; auto.
  apply elem_of_app in Hin as [Hin|Hin]; auto.
  inversion Hin.
Qed.

End Runs.

(** ** Numbers *)

Lemma checkRange_spec (k : nat) :
  ∀ lo, checkRange k lo = true →
        ∀ d, (lo ≤ d < lo + 2 ^ Z.of_nat k)%Z → millisExact d = true.
Proof.
  induction k as [|k IH]; intros lo H d Hd.
  - simpl in Hd. assert (d = lo) by lia. subst d. exact H.
  - cbn [checkRange] in H. apply andb_true_iff in H as [H1 H2].
    rewrite Nat2Z.inj_succ, Z.pow_succ_r in Hd by lia.
    destruct (Z_lt_le_dec d (lo + 2 ^ Z.of_nat k)) as [Hlt|Hge].
    + apply (IH lo H1). lia.
    + apply (IH _ H2). lia.
Qed.

(** The shifts of [Math_round] compute the floor of [n / 2^k + 1/2]. *)
Lemma round_half_up_shifts (n k : Z) :
  (1 ≤ k)%Z →
  Z.shiftr (Z.shiftr n (k - 1) + 1) 1 = ((2 * n + 2 ^ k) / 2 ^ (k + 1))%Z.
Proof.
  intros Hk. rewrite !Z.shiftr_div_pow2 by lia.
  replace k with (k - 1 + 1)%Z at 2 3 by lia.
  rewrite !Z.pow_add_r by lia. change (2 ^ 1)%Z with 2%Z.
  assert (HP : (0 < 2 ^ (k - 1))%Z) by (apply Z.pow_pos_nonneg; lia).
  set (P := (2 ^ (k - 1))%Z) in *.
  replace (2 * n + P * 2)%Z with (2 * (n + 1 * P))%Z by lia.
  replace (P * 2 * 2)%Z with (2 * (P * 2))%Z by lia.
  rewrite Z.div_mul_cancel_l by lia.
  rewrite <- Z.div_div by lia.
  rewrite Z.div_add by lia. reflexivity.
Qed.

Lemma checked_range : checkRange 20 0 = true.
Proof. vm_cast_no_check (eq_refl true). Qed.

(** A run shorter than [2^20] milliseconds (about seventeen minutes) is
    written with its exact number of milliseconds: the division by 1000
    and the multiplication by 1000 are both rounded, and [Math.round]
    makes up for it. *)
Lemma millis_exact (d : Z) :
  (0 ≤ d < 2 ^ 20)%Z →
  millisOf (PrimFloat.div (Number_of_Z d) (Number_of_Z 1000)) = Some d.
Proof.
  intros Hd.
  assert (Hp : (2 ^ Z.of_nat 20 = 2 ^ 20)%Z) by reflexivity.
  assert (Hd' : (0 ≤ d < 0 + 2 ^ Z.of_nat 20)%Z) by (rewrite Hp; lia).
  pose proof (checkRange_spec 20 0 checked_range d Hd') as Hx.
  unfold millisExact in Hx.
  destruct (millisOf _) as [ms|]; [|discriminate].
  apply Z.eqb_eq in Hx. congruence.
Qed.

(** Far beyond that range the two roundings show: one more millisecond
    is written than the clock readings differ by. *)
Lemma millis_off_by_one_far_out :
  millisOf (secondsSince 0 4398051999099650) = Some 4398051999099651%Z.
Proof. vm_compute. reflexivity. Qed.

(** ** The claims about the runner *)

(** C1, the claim as stated fails: with a build that exits non-zero, the
    single-shot runner still runs lint in that attempt, and so does the
    last attempt of the full-mode runner. *)
Lemma failed_build_does_not_skip_lint :
  runEval brokenEnv "001-first" false world0 =
    (Normal (resultOf brokenFirstShot), brokenFirstShot.2) ∧
  build (resultOf brokenFirstShot) = false ∧
  gatesRun (added world0 brokenFirstShot.2) = [GBuild; GLint] ∧
  runEvalFull brokenEnv "001-first" false world0 =
    (Normal (resultOf brokenFull), brokenFull.2) ∧
  build (resultOf brokenFull) = false ∧
  gatesRun (added world0 brokenFull.2) = [GBuild; GBuild; GBuild; GLint].
Proof. vm_compute. repeat split; reflexivity. Qed.

(** C1, amended.  In every attempt the gates run in the order build,
    lint, tests, the tests only when test files were found.  In full
    mode the log of a run is one segment per attempt, and the gates of
    each attempt are exactly the ones the exit codes decide: on every
    attempt before the last a failed build is followed by no other gate
    and a failed lint by no tests, and when build and lint pass the tests
    follow; on the last attempt, and in single-shot mode, a failed gate
    does not skip the later ones.  (A command that raises ends the
    attempt.) *)
Theorem gates_ordered_and_cut_short_before_last (E : Env) (evalName : string)
    (debug : bool) (w w' : World) (r : EvalResult) :
  (runEvalFull E evalName debug w = (Normal r, w') →
   ∃ pre segs post,
     added w w' = pre ++ concat segs ++ post ∧
     gatesRun pre = [] ∧ gatesRun post = [] ∧
     length segs = attempts r ∧
     ∀ i seg, segs !! i = Some seg →
       gateDiscipline (run E evalName)
         (0 <? length (getEvalTestFiles E evalName)) (S i) seg ∧
       gatesRun seg =
         expectedGates (run E evalName)
           (0 <? length (getEvalTestFiles E evalName))
           (S i <? MAX_FULL_ATTEMPTS) (S i)) ∧
  (runEval E evalName debug w = (Normal r, w') →
   ∃ pre seg post,
     added w w' = pre ++ seg ++ post ∧
     gatesRun pre = [] ∧ gatesRun post = [] ∧
     gatesRun seg `prefix_of` [GBuild; GLint; GTests] ∧
     ((stage E (run E evalName) evalName (getEvalTestFiles E evalName)
         (shell E EvGitStash w).2).1 = Normal tt →
      gatesRun seg =
        expectedGates (run E evalName)
          (0 <? length (getEvalTestFiles E evalName)) false 1 ∧
      (attemptFaultless (run E evalName) 1 = true →
       gatesRun seg =
         [GBuild; GLint] ++
         (if 0 <? length (getEvalTestFiles E evalName) then [GTests]
          else [])))).
Proof.
  split.
  - intros H.
    destruct (runEvalFull_anatomy E _ _ _ _ _ H)
      as (base & pre & segs & stop & c & fr & _ & _ & Hadd & _ & Gp & _ & Gs & _
          & _ & Hr & Hcase).
    exists (EvGitStash :: pre), segs, (stop ++ restoreEvents).
    assert (Ha : attempts r = attempts (result fr))
      by (subst r; destruct c; reflexivity).
    split; [exact Hadd|]. split; [simpl; exact Gp|].
    split; [rewrite gatesRun_app, Gs; reflexivity|].
    destruct Hcase as [(-> & Hfr & _)|(fr1 & Hr1 & HI)].
    + rewrite Ha, Hfr. split; [reflexivity|]. intros i seg Hs.
      destruct i; discriminate.
    + split.
      * destruct (Iterations_count _ _ _ _ _ _ _ _ _ _ _ HI)
          as (_ & _ & _ & Hne & _).
        destruct segs as [|s segs'].
        { inversion HI; subst; unfold MAX_FULL_ATTEMPTS in *; lia. }
        assert (Hne' : s :: segs' ≠ []) by discriminate.
        specialize (Hne Hne'). simpl in *. lia.
      * intros i seg Hs. split.
        -- exact (Iterations_gates _ _ _ _ _ _ _ _ _ _ _ HI i seg Hs).
        -- exact (Iterations_gates_exact _ _ _ _ _ _ _ _ _ _ _ HI i seg Hs).
  - intros H.
    destruct (runEval_inv E _ _ _ _ _ H) as (base & c & fr & _ & Htry & T & _ & _).
    destruct (firstShotTry_inv E _ _ _ _ _ _ _ Htry)
      as (pre & seg & T1 & _ & Gp & _ & _ & _ & _ & _ & _ & Hcase).
    cbn [world result shell snd trace] in T1.
    exists (EvGitStash :: pre), seg, restoreEvents.
    split.
    { unfold added. rewrite T, T1, <- !app_assoc, drop_app_length.
      reflexivity. }
    split; [simpl; exact Gp|]. split; [reflexivity|].
    destruct Hcase as [(Hst & -> & _)|(Hst & _ & Hpre & Hall & Hx)].
    + split; [exists [GBuild; GLint; GTests]; reflexivity|].
      intros Hok. exfalso. apply Hst. exact Hok.
    + split; [exact Hpre|]. intros _. exact (conj Hx Hall).
Qed.

Lemma gates_ordered_and_cut_short_before_last_witness :
  runEvalFull flakyEnv "001-first" false world0 =
    (Normal (resultOf flakyRun), flakyRun.2) ∧
  buildFails (run flakyEnv "001-first") 1 = true ∧
  ∃ pre segs post,
    added world0 flakyRun.2 = pre ++ concat segs ++ post ∧
    length segs = attempts (resultOf flakyRun) ∧
    (∀ seg, segs !! 0 = Some seg → gatesRun seg = [GBuild]) ∧
    (∀ seg, segs !! 1 = Some seg → gatesRun seg = [GBuild; GLint]).
Proof.
  assert (Hrun : runEvalFull flakyEnv "001-first" false world0 =
                   (Normal (resultOf flakyRun), flakyRun.2))
    by (vm_compute; reflexivity).
  assert (Hfail : buildFails (run flakyEnv "001-first") 1 = true)
    by (vm_compute; reflexivity).
  split; [exact Hrun|]. split; [exact Hfail|].
  destruct (gates_ordered_and_cut_short_before_last flakyEnv "001-first" false
              world0 flakyRun.2 (resultOf flakyRun)) as [Hfull _].
  destruct (Hfull Hrun) as (pre & segs & post & Hadd & _ & _ & Hlen & Hall).
  exists pre, segs, post. split; [exact Hadd|]. split; [exact Hlen|].
  split; intros seg Hs.
  - exact (proj2 (Hall 0 seg Hs)).
  - exact (proj2 (Hall 1 seg Hs)).
Defined.

(** C2.  In a full-mode run, the instruction payload of attempt [k+1] is
    the payload attempt 1 was given, followed by an empty line, the line
    that announces the failure, the text captured on attempt [k] at its
    first failing gate, an empty line and the request to try again.  The
    captured text is the build's heading, error stream and output stream
    if the build failed, otherwise the lint's, otherwise the tests'
    heading, output stream and error stream (and the browser errors read
    on attempt [k]).  Nothing of an earlier attempt enters it. *)
Theorem feedback_is_previous_first_failure (E : Env) (evalName : string)
    (debug : bool) (w w' : World) (r : EvalResult) (k : nat) (p : string) :
  runEvalFull E evalName debug w = (Normal r, w') →
  1 ≤ k →
  payloads (added w w') !! k = Some p →
  ∃ base first fb,
    getEvalPrompt E evalName = Normal base ∧
    payloads (added w w') !! 0 = Some first ∧
    first = base +:+ INSTRUCTIONS ∧
    firstFailingGateOutput (run E evalName)
      (getD3kErrors E (run E evalName) k)
      (0 <? length (getEvalTestFiles E evalName)) k = Some fb ∧
    p = retryPayload first fb.
Proof.
  intros H Hk Hp.
  destruct (runEvalFull_anatomy E _ _ _ _ _ H)
    as (base & pre & segs & stop & c & fr & Hb & _ & Hadd & Pp & _ & Ps & _ & _
        & _ & Hr & Hcase).
  assert (Hpay : payloads (added w w') = payloads (concat segs)).
  { rewrite Hadd. change (EvGitStash :: pre) with ([EvGitStash] ++ pre).
    rewrite !payloads_app, Pp, Ps. simpl. rewrite app_nil_r. reflexivity. }
  rewrite Hpay in *.
  destruct Hcase as [(-> & _)|(fr1 & Hr1 & HI)]; [discriminate|].
  pose proof (Iterations_payloads _ _ _ _ _ _ _ _ _ _ _ HI) as Hall.
  destruct k as [|j]; [lia|].
  destruct (Hall (S j) p Hp) as (fb & Hfb & ->).
  assert (H0 : ∃ p0, payloads (concat segs) !! 0 = Some p0).
  { destruct (payloads (concat segs)) as [|p0 rest]; [discriminate|eauto]. }
  destruct H0 as [p0 Hp0]. pose proof (Hall 0 p0 Hp0) as Hbase.
  simpl in Hbase. subst p0.
  exists base, (base +:+ INSTRUCTIONS), fb.
  split; [exact Hb|]. split; [exact Hp0|]. split; [reflexivity|].
  split; [exact Hfb|]. reflexivity.
Qed.

Lemma feedback_is_previous_first_failure_witness :
  runEvalFull flakyEnv "001-first" false world0 =
    (Normal (resultOf flakyRun), flakyRun.2) ∧
  ∃ first,
    payloads (added world0 flakyRun.2) !! 0 = Some first ∧
    payloads (added world0 flakyRun.2) !! 1 =
      Some (first +:+ LF +:+ LF +:+
            "PREVIOUS ATTEMPT FAILED. Here's the error from the browser/build:"
            +:+ LF +:+
            "Build failed:" +:+ LF +:+ "Type error in page.tsx" +:+ LF +:+
            "compiling" +:+ LF +:+ LF +:+
            "Please fix the issue and try again.").
Proof.
  assert (Hrun : runEvalFull flakyEnv "001-first" false world0 =
                   (Normal (resultOf flakyRun), flakyRun.2))
    by (vm_compute; reflexivity).
  assert (Hp : ∃ p, payloads (added world0 flakyRun.2) !! 1 = Some p).
  { eexists. vm_compute. reflexivity. }
  destruct Hp as [p Hp].
  split; [exact Hrun|].
  destruct (feedback_is_previous_first_failure flakyEnv "001-first" false
              world0 _ _ 1 p Hrun (le_n 1) Hp)
    as (base & first & fb & _ & H0 & _ & Hfb & ->).
  exists first. split; [exact H0|]. rewrite Hp. f_equal.
  assert (Hc : firstFailingGateOutput (run flakyEnv "001-first")
                 (getD3kErrors flakyEnv (run flakyEnv "001-first") 1)
                 (0 <? length (getEvalTestFiles flakyEnv "001-first")) 1 =
               Some ("Build failed:" +:+ LF +:+ "Type error in page.tsx" +:+ LF
                     +:+ "compiling")) by (vm_compute; reflexivity).
  rewrite Hc in Hfb. inversion Hfb; subst fb. reflexivity.
Defined.

(** C3, the claim as stated fails: when the d3k server never answers,
    [runEvalFull] records the fault and hands back a record with
    [attempts = 0]. *)
Lemma fault_before_first_attempt_leaves_zero :
  runEvalFull noServerEnv "001-first" false world0 =
    (Normal (resultOf noServerRun), noServerRun.2) ∧
  attempts (resultOf noServerRun) = 0 ∧
  error (resultOf noServerRun) =
    Some "Error: d3k server failed to start within 30s".
Proof. vm_compute. repeat split; reflexivity. Qed.

(** C3, amended.  [attempts] never exceeds the maximum of 3.  In
    single-shot mode it is 1.  In full mode it is the number of attempts
    started, which is the number of agent invocations; it is at least 1
    whenever the record carries no error, and can be 0 only when a fault
    was recorded before the first attempt began. *)
Theorem attempts_counts_started_attempts (E : Env) (evalName : string)
    (debug : bool) (w w' : World) (r : EvalResult) :
  (runEvalFull E evalName debug w = (Normal r, w') →
   attempts r = agentCalls (added w w') ∧
   attempts r ≤ MAX_FULL_ATTEMPTS ∧
   (error r = None → 1 ≤ attempts r)) ∧
  (runEval E evalName debug w = (Normal r, w') → attempts r = 1).
Proof.
  split.
  - intros H.
    destruct (runEvalFull_anatomy E _ _ _ _ _ H)
      as (base & pre & segs & stop & c & fr & _ & _ & Hadd & Pp & _ & Ps & _ & _
          & _ & Hr & Hcase).
    assert (Hcalls : agentCalls (added w w') = agentCalls (concat segs)).
    { rewrite Hadd. unfold agentCalls.
      change (EvGitStash :: pre) with ([EvGitStash] ++ pre).
      rewrite !payloads_app, Pp, Ps. simpl. rewrite app_nil_r. reflexivity. }
    rewrite Hcalls.
    assert (Ha : attempts r = attempts (result fr))
      by (subst r; destruct c; reflexivity).
    destruct Hcase as [(-> & Hfr & err & ->)|(fr1 & Hr1 & HI)].
    + rewrite Ha, Hfr. simpl. subst r. simpl.
      repeat split; auto; try lia. discriminate.
    + destruct (Iterations_count _ _ _ _ _ _ _ _ _ _ _ HI)
        as (Hc & _ & Hle & Hne & Hnil).
      rewrite Hc, Ha.
      destruct segs as [|s segs'].
      { inversion HI; subst; unfold MAX_FULL_ATTEMPTS in *; lia. }
      assert (Hne' : s :: segs' ≠ []) by discriminate.
      specialize (Hne Hne'). specialize (Hle ltac:(unfold MAX_FULL_ATTEMPTS; lia)).
      simpl in *. repeat split; lia.
  - intros H.
    destruct (runEval_inv E _ _ _ _ _ H) as (base & c & fr & _ & Htry & _ & _ & ->).
    destruct (firstShotTry_inv E _ _ _ _ _ _ _ Htry)
      as (pre & seg & _ & _ & _ & _ & At & _).
    cbn [world result newResult attempts] in At.
    destruct c; simpl; exact At.
Qed.

Lemma attempts_counts_started_attempts_witness :
  runEvalFull flakyEnv "001-first" false world0 =
    (Normal (resultOf flakyRun), flakyRun.2) ∧
  runEval sampleEnv "001-first" false world0 =
    (Normal (resultOf quietFirstShot), quietFirstShot.2) ∧
  error (resultOf flakyRun) = None ∧
  attempts (resultOf flakyRun) = agentCalls (added world0 flakyRun.2) ∧
  attempts (resultOf flakyRun) ≤ MAX_FULL_ATTEMPTS ∧
  1 ≤ attempts (resultOf flakyRun) ∧
  attempts (resultOf quietFirstShot) = 1.
Proof.
  assert (Hfull : runEvalFull flakyEnv "001-first" false world0 =
                    (Normal (resultOf flakyRun), flakyRun.2))
    by (vm_compute; reflexivity).
  assert (Hone : runEval sampleEnv "001-first" false world0 =
                   (Normal (resultOf quietFirstShot), quietFirstShot.2))
    by (vm_compute; reflexivity).
  assert (Herr : error (resultOf flakyRun) = None) by (vm_compute; reflexivity).
  destruct (attempts_counts_started_attempts flakyEnv "001-first" false world0
              flakyRun.2 (resultOf flakyRun)) as [Hf _].
  destruct (attempts_counts_started_attempts sampleEnv "001-first" false world0
              quietFirstShot.2 (resultOf quietFirstShot)) as [_ Hs].
  destruct (Hf Hfull) as (H1 & H2 & H3).
  exact (conj Hfull (conj Hone (conj Herr (conj H1 (conj H2
           (conj (H3 Herr) (Hs Hone))))))).
Defined.

(** C4.  In a full-mode run, when attempt [k] is performed and the agent
    returns and the build, lint and test gates all pass on it, the loop
    ends there: the agent has been invoked exactly [k] times in the whole
    run (no attempt [k+1]), and the record says [attempts = k], passed,
    without error. *)
Theorem early_exit_on_first_pass (E : Env) (evalName : string) (debug : bool)
    (w w' : World) (r : EvalResult) (k : nat) :
  runEvalFull E evalName debug w = (Normal r, w') →
  1 ≤ k →
  k ≤ agentCalls (added w w') →
  attemptPasses (run E evalName)
    (0 <? length (getEvalTestFiles E evalName)) k = true →
  agentCalls (added w w') = k ∧
  attempts r = k ∧ passed r = true ∧ error r = None.
Proof.
  intros H Hk1 Hk2 Hpass.
  destruct (runEvalFull_anatomy E _ _ _ _ _ H)
    as (base & pre & segs & stop & c & fr & _ & _ & Hadd & Pp & _ & Ps & _ & _
        & _ & Hr & Hcase).
  assert (Hcalls : agentCalls (added w w') = agentCalls (concat segs)).
  { rewrite Hadd. unfold agentCalls.
    change (EvGitStash :: pre) with ([EvGitStash] ++ pre).
    rewrite !payloads_app, Pp, Ps. simpl. rewrite app_nil_r. reflexivity. }
  rewrite Hcalls in *.
  destruct Hcase as [(-> & _)|(fr1 & Hr1 & HI)];
    [unfold agentCalls in Hk2; simpl in Hk2; lia|].
  destruct (Iterations_count _ _ _ _ _ _ _ _ _ _ _ HI) as (Hc & _).
  destruct (Iterations_frame _ _ _ _ _ _ _ _ _ _ _ HI) as (_ & _ & Er & _).
  rewrite Hc in *.
  destruct (Iterations_early_exit _ _ _ _ _ _ _ _ _ _ _ HI k)
    as (Hlen & -> & Hp & Ha); auto; try lia.
  subst r. simpl. rewrite Er, Hr1. simpl.
  repeat split; auto; lia.
Qed.

Lemma early_exit_on_first_pass_witness :
  runEvalFull flakyEnv "001-first" false world0 =
    (Normal (resultOf flakyRun), flakyRun.2) ∧
  2 ≤ agentCalls (added world0 flakyRun.2) ∧
  attemptPasses (run flakyEnv "001-first")
    (0 <? length (getEvalTestFiles flakyEnv "001-first")) 2 = true ∧
  agentCalls (added world0 flakyRun.2) = 2 ∧
  attempts (resultOf flakyRun) = 2 ∧
  passed (resultOf flakyRun) = true ∧
  error (resultOf flakyRun) = None.
Proof.
  assert (Hrun : runEvalFull flakyEnv "001-first" false world0 =
                   (Normal (resultOf flakyRun), flakyRun.2))
    by (vm_compute; reflexivity).
  assert (Hcalls : 2 ≤ agentCalls (added world0 flakyRun.2))
    by (vm_compute; lia).
  assert (Hpass : attemptPasses (run flakyEnv "001-first")
                    (0 <? length (getEvalTestFiles flakyEnv "001-first")) 2
                  = true) by (vm_compute; reflexivity).
  split; [exact Hrun|]. split; [exact Hcalls|]. split; [exact Hpass|].
  apply (early_exit_on_first_pass flakyEnv "001-first" false world0 _ _ 2 Hrun);
    [lia|exact Hcalls|exact Hpass].
Defined.

(** C5.  A fault raised inside the [try] block (staging, the start of
    d3k, the agent call, a gate) never leaves the runner: its text (the
    name of the error, a colon and its message) is stored in the
    record's [error] field, the record counts as failed, and its gate
    booleans are the ones the frame held when the fault was raised.
    Whatever way the [try] block ended, the log ends with the three
    commands that restore the working tree, and in full mode every d3k
    process spawned during the run has been killed and the handle is
    cleared. *)
Theorem faults_recorded_and_teardown_runs (E : Env) (evalName : string)
    (debug : bool) (w w' : World) (r : EvalResult) :
  (runEvalFull E evalName debug w = (Normal r, w') →
   ∃ base c fr evs,
     getEvalPrompt E evalName = Normal base ∧
     fullTry E (run E evalName) evalName base (getEvalTestFiles E evalName)
       {| world := (shell E EvGitStash w).2;
          result := newResult evalName 0 Full |} = (c, fr) ∧
     added w w' = evs ++ restoreEvents ∧
     d3kProcess w' = None ∧
     (∀ pid, pid ∈ spawned (added w w') → pid ∈ killed (added w w')) ∧
     build r = build (result fr) ∧ lint r = lint (result fr) ∧
     tests r = tests (result fr) ∧
     match c with
     | Throw err =>
         (∃ text, error r = Some text ∧ storedText err text) ∧ passed r = false
     | Normal _ => error r = None
     end) ∧
  (runEval E evalName debug w = (Normal r, w') →
   ∃ base c fr evs,
     getEvalPrompt E evalName = Normal base ∧
     firstShotTry E (run E evalName) evalName base (getEvalTestFiles E evalName)
       {| world := (shell E EvGitStash w).2;
          result := newResult evalName 1 FirstShot |} = (c, fr) ∧
     added w w' = evs ++ restoreEvents ∧
     build r = build (result fr) ∧ lint r = lint (result fr) ∧
     tests r = tests (result fr) ∧
     match c with
     | Throw err =>
         (∃ text, error r = Some text ∧ storedText err text) ∧ passed r = false
     | Normal _ => error r = None
     end) ∧
  (∀ base, getEvalPrompt E evalName = Normal base →
     (∃ r0 w0, runEvalFull E evalName debug w = (Normal r0, w0)) ∧
     (∃ r0 w0, runEval E evalName debug w = (Normal r0, w0))).
Proof.
  split; [|split].
  - intros H.
    destruct (runEvalFull_anatomy E _ _ _ _ _ H)
      as (base & pre & segs & stop & c & fr & Hb & Htry & Hadd & _ & _ & _ & _
          & Hkill & D & Hr & Hcase).
    exists base, c, fr, ((EvGitStash :: pre) ++ concat segs ++ stop).
    split; [exact Hb|]. split; [exact Htry|].
    split; [rewrite Hadd, <- !app_assoc; reflexivity|].
    split; [exact D|]. split; [exact Hkill|].
    assert (Ht : ∀ err, c = Throw err → tests (result fr) = false).
    { intros err Hc. destruct Hcase as [(_ & -> & _)|(fr1 & Hr1 & HI)];
        [reflexivity|].
      eapply (Iterations_fault _ _ _ _ _ _ _ _ _ _ _ HI); [|exact Hc].
      rewrite Hr1. reflexivity. }
    assert (He : c = Normal tt → error (result fr) = None).
    { intros Hc. destruct Hcase as [(_ & _ & err & Herr)|(fr1 & Hr1 & HI)];
        [congruence|].
      destruct (Iterations_frame _ _ _ _ _ _ _ _ _ _ _ HI) as (_ & _ & Er & _).
      rewrite Er, Hr1. reflexivity. }
    subst r. destruct c as [[]|err]; simpl.
    + repeat split; auto.
    + repeat split; auto;
        try (eexists; split; [reflexivity|apply String_of_error_stored]).
      unfold passed. simpl.
      rewrite (Ht err eq_refl), !andb_false_r. reflexivity.
  - intros H.
    destruct (runEval_inv E _ _ _ _ _ H)
      as (base & c & fr & Hb & Htry & T & _ & Hr).
    destruct (firstShotTry_inv E _ _ _ _ _ _ _ Htry)
      as (pre & seg & T1 & _ & _ & _ & _ & Er & _ & _ & Th & _).
    cbn [world result shell snd trace newResult error tests] in T1, Er, Th.
    exists base, c, fr, ((EvGitStash :: pre) ++ seg).
    split; [exact Hb|]. split; [exact Htry|].
    split.
    { unfold added. rewrite T, T1, <- !app_assoc, drop_app_length.
      reflexivity. }
    subst r. destruct c as [[]|err]; simpl.
    + repeat split; auto.
    + repeat split; auto;
        try (eexists; split; [reflexivity|apply String_of_error_stored]).
      unfold passed. simpl.
      rewrite (Th err eq_refl), !andb_false_r. reflexivity.
  - intros base Hb. split.
    + destruct (runEvalFull_total E evalName base debug w Hb) as (r0 & w0 & H0 & _).
      eauto.
    + destruct (runEval_total E evalName base debug w Hb) as (r0 & w0 & H0 & _).
      eauto.
Qed.

Lemma faults_recorded_and_teardown_runs_witness :
  runEvalFull lintFaultEnv "001-first" false world0 =
    (Normal (resultOf lintFaultRun), lintFaultRun.2) ∧
  error (resultOf lintFaultRun) = Some "Error: spawn ENOMEM" ∧
  passed (resultOf lintFaultRun) = false ∧
  d3kProcess lintFaultRun.2 = None ∧
  (∃ evs, added world0 lintFaultRun.2 = evs ++ restoreEvents) ∧
  (∀ pid, pid ∈ spawned (added world0 lintFaultRun.2) →
          pid ∈ killed (added world0 lintFaultRun.2)) ∧
  runEval copyFaultEnv "001-first" false world0 =
    (Normal (resultOf copyFaultFirstShot), copyFaultFirstShot.2) ∧
  error (resultOf copyFaultFirstShot) =
    Some "SystemError [ERR_FS_EISDIR]: Path is a directory: cp returned EISDIR".
Proof.
  assert (Hrun : runEvalFull lintFaultEnv "001-first" false world0 =
                   (Normal (resultOf lintFaultRun), lintFaultRun.2))
    by (vm_compute; reflexivity).
  assert (Hone : runEval copyFaultEnv "001-first" false world0 =
                   (Normal (resultOf copyFaultFirstShot), copyFaultFirstShot.2))
    by (vm_compute; reflexivity).
  split; [exact Hrun|].
  destruct (faults_recorded_and_teardown_runs lintFaultEnv "001-first" false
              world0 lintFaultRun.2 (resultOf lintFaultRun)) as [Hfull _].
  destruct (Hfull Hrun)
    as (base & c & fr & evs & Hb & Htry & Hadd & D & Hkill & _ & _ & _ & Hc).
  assert (Hbase : getEvalPrompt lintFaultEnv "001-first" = Normal "Add a route")
    by (vm_compute; reflexivity).
  rewrite Hbase in Hb. inversion Hb; subst base.
  assert (Hthrow :
    (fullTry lintFaultEnv (run lintFaultEnv "001-first") "001-first"
       "Add a route" (getEvalTestFiles lintFaultEnv "001-first")
       {| world := (shell lintFaultEnv EvGitStash world0).2;
          result := newResult "001-first" 0 Full |}).1 = Throw "spawn ENOMEM")
    by (vm_compute; reflexivity).
  rewrite Htry in Hthrow. cbn [fst] in Hthrow. subst c.
  destruct Hc as [(text & He & (Hboth & _ & _)) Hp].
  assert (Htext : text = "Error: spawn ENOMEM")
    by (apply Hboth; discriminate).
  subst text.
  destruct (faults_recorded_and_teardown_runs copyFaultEnv "001-first" false
              world0 copyFaultFirstShot.2 (resultOf copyFaultFirstShot))
    as (_ & Hshot & _).
  destruct (Hshot Hone)
    as (base1 & c1 & fr1 & evs1 & Hb1 & Htry1 & _ & _ & _ & _ & Hc1).
  assert (Hbase1 : getEvalPrompt copyFaultEnv "001-first" = Normal "Add a route")
    by (vm_compute; reflexivity).
  rewrite Hbase1 in Hb1. inversion Hb1; subst base1.
  assert (Hthrow1 :
    (firstShotTry copyFaultEnv (run copyFaultEnv "001-first") "001-first"
       "Add a route" (getEvalTestFiles copyFaultEnv "001-first")
       {| world := (shell copyFaultEnv EvGitStash world0).2;
          result := newResult "001-first" 1 FirstShot |}).1 =
    Throw {| errName := "SystemError [ERR_FS_EISDIR]";
             errMessage := "Path is a directory: cp returned EISDIR" |})
    by (vm_compute; reflexivity).
  rewrite Htry1 in Hthrow1. cbn [fst] in Hthrow1. subst c1.
  destruct Hc1 as [(text1 & He1 & (Hboth1 & _ & _)) _].
  assert (Htext1 : text1 = "SystemError [ERR_FS_EISDIR]: Path is a directory: cp returned EISDIR")
    by (apply Hboth1; discriminate).
  subst text1.
  exact (conj He (conj Hp (conj D (conj (ex_intro _ evs Hadd)
           (conj Hkill (conj Hone He1)))))).
Defined.

(** C6, the claim as stated fails: a test fixture is copied onto a file
    that already exists at its destination and replaces its content. *)
Lemma fixture_overwrites_existing_file :
  let out := stage fixtureEnv fixtureRun "001-first"
               (getEvalTestFiles fixtureEnv "001-first") mineWorld in
  files (fs mineWorld) !! "/repo/scripts/../app/page.test.tsx" = Some "mine" ∧
  out.1 = Normal tt ∧
  trace out.2 =
    [EvCopy (sampleInput +:+ "/app/page.test.tsx")
       "/repo/scripts/../app/page.test.tsx"] ∧
  files (fs out.2) !! "/repo/scripts/../app/page.test.tsx" = Some "theirs".
Proof. vm_compute. repeat split; reflexivity. Qed.

(** C6, amended.  Staging a stub source file never overwrites: whatever
    file exists in the working tree before the stubs are staged has the
    same content afterwards.  A test fixture is copied unconditionally:
    when its copy succeeds the destination holds the fixture's content,
    whatever was there. *)
Theorem stubs_never_overwrite (E : Env) (R : RunEnv) (inputDir : string)
    (w : World) :
  (∀ p c, files (fs w) !! p = Some c →
     files (fs (forEach (stubFilesOf R) (stageStubFile E R inputDir) w).2) !! p
     = Some c) ∧
  (∀ testFile,
     (stageTestFile E R inputDir testFile w).1 = Normal tt →
     ∃ content,
       fixture R testFile = Normal content ∧
       files (fs (stageTestFile E R inputDir testFile w).2)
         !! path_join E [PROJECT_ROOT E; replace (inputDir +:+ "/") "" testFile]
       = Some content).
Proof.
  split.
  - intros p c Hp. apply stageStubs_keep. exact Hp.
  - intros testFile. apply stageTestFile_replaces.
Qed.

Lemma stubs_never_overwrite_witness :
  files (fs mineWorld) !! "/repo/scripts/../app/page.tsx" = Some "mine too" ∧
  files (fs (forEach (stubFilesOf fixtureRun)
               (stageStubFile fixtureEnv fixtureRun sampleInput) mineWorld).2)
    !! "/repo/scripts/../app/page.tsx" = Some "mine too" ∧
  (stageTestFile fixtureEnv fixtureRun sampleInput
     (sampleInput +:+ "/app/page.test.tsx") mineWorld).1 = Normal tt ∧
  ∃ content,
    fixture fixtureRun (sampleInput +:+ "/app/page.test.tsx") = Normal content ∧
    files (fs (stageTestFile fixtureEnv fixtureRun sampleInput
                 (sampleInput +:+ "/app/page.test.tsx") mineWorld).2)
      !! path_join fixtureEnv
           [PROJECT_ROOT fixtureEnv;
            replace (sampleInput +:+ "/") "" (sampleInput +:+ "/app/page.test.tsx")]
    = Some content.
Proof.
  pose proof (stubs_never_overwrite fixtureEnv fixtureRun sampleInput mineWorld)
    as [Hstub Htest].
  split; [vm_compute; reflexivity|].
  split; [apply Hstub; vm_compute; reflexivity|].
  split; [vm_compute; reflexivity|].
  apply Htest. vm_compute. reflexivity.
Defined.

(** C7, the claim as stated fails: the first evaluation of the batch has
    no prompt file; [getEvalPrompt] raises before the [try] block, [main]
    ends with that fault, the second evaluation is never run and no
    summary is written. *)
Lemma missing_prompt_aborts_batch :
  let out := main missingPromptEnv ["--all"; "--output"; "results.json"]
               world0 in
  listEvals missingPromptEnv = ["001-first"; "002-second"] ∧
  getEvalPrompt missingPromptEnv "002-second" = Normal "Add a route" ∧
  out.1 = Throw "Eval 001-first not found" ∧
  agentCalls (trace out.2) = 0 ∧
  written (trace out.2) = [].
Proof. vm_compute. repeat split; reflexivity. Qed.

(** C7, amended.  When every evaluation of the batch has a readable
    prompt file, the batch produces one record per evaluation identifier,
    in order, whatever faults staging, the start of d3k, the agent or the
    gates raise: those are caught per evaluation, and the record the
    runner made for an evaluation whose guarded region raised carries
    the text of that fault in its [error] field (a record whose region
    completed carries none).  An evaluation whose prompt file is missing or unreadable
    raises before the guarded region and the batch ends there with that
    fault. *)
Theorem batch_continues_after_caught_faults (E : Env) (fullMode debug : bool)
    (names : list string) (w : World) :
  ((∀ n, n ∈ names → ∃ base, getEvalPrompt E n = Normal base) →
   ∃ results w',
     runBatch E fullMode debug names [] w = (Normal results, w') ∧
     map name results = names ∧
     Forall2
       (λ n r, ∃ wi wi' base,
          (if fullMode then runEvalFull E n debug
           else runEval E n debug) wi = (Normal r, wi') ∧
          getEvalPrompt E n = Normal base ∧
          match (tryBlockOf E fullMode n base wi).1 with
          | Throw err => ∃ text, error r = Some text ∧ storedText err text
          | Normal _ => error r = None
          end)
       names results) ∧
  (∀ n rest err acc,
     getEvalPrompt E n = Throw err →
     runBatch E fullMode debug (n :: rest) acc w = (Throw err, w)).
Proof.
  split.
  - intros Hall.
    destruct (runBatch_total E fullMode debug names Hall [] w)
      as (results & w' & Hres & Hmap).
    exists results, w'. split; [exact Hres|]. split; [exact Hmap|].
    destruct (runBatch_records E _ _ _ _ _ _ _ Hres) as (rs & Hrs & Hrec).
    simpl in Hrs. subst rs.
    eapply Forall2_impl; [exact Hrec|].
    intros n r (wi & wi' & Hrun).
    destruct (runner_error E _ _ _ _ _ _ Hrun) as (base & Hb & He).
    exists wi, wi', base. split; [exact Hrun|]. split; [exact Hb|].
    destruct (tryBlockOf E fullMode n base wi).1 as [[]|err]; [exact He|].
    exists (String_of_error err). split; [exact He|].
    apply String_of_error_stored.
  - intros n rest err acc Hp. simpl. unfold bind.
    destruct fullMode; unfold runEvalFull, runEval; unfold bind at 1;
      rewrite Hp; reflexivity.
Qed.

Lemma batch_continues_after_caught_faults_witness :
  (∀ n, n ∈ ["001-first"; "002-second"] →
        ∃ base, getEvalPrompt lintFaultEnv n = Normal base) ∧
  (∃ results w',
     runBatch lintFaultEnv true false ["001-first"; "002-second"] [] world0 =
       (Normal results, w') ∧
     map name results = ["001-first"; "002-second"] ∧
     map error results =
       [Some "Error: spawn ENOMEM"; Some "Error: spawn ENOMEM"]) ∧
  getEvalPrompt missingPromptEnv "001-first" = Throw "Eval 001-first not found" ∧
  runBatch missingPromptEnv true false ["001-first"; "002-second"] [] world0 =
    (Throw "Eval 001-first not found", world0).
Proof.
  assert (Hall : ∀ n, n ∈ ["001-first"; "002-second"] →
                      ∃ base, getEvalPrompt lintFaultEnv n = Normal base).
  { intros n _. exists "Add a route". vm_compute. reflexivity. }
  assert (Hmiss : getEvalPrompt missingPromptEnv "001-first" =
                    Throw "Eval 001-first not found")
    by (vm_compute; reflexivity).
  destruct (batch_continues_after_caught_faults lintFaultEnv true false
              ["001-first"; "002-second"] world0) as [Hgo _].
  destruct (batch_continues_after_caught_faults missingPromptEnv true false
              ["001-first"; "002-second"] world0) as [_ Hstop].
  destruct (Hgo Hall) as (results & w' & Hrun & Hnames & _).
  assert (Herrs : ∃ rs ws,
            runBatch lintFaultEnv true false ["001-first"; "002-second"] []
              world0 = (Normal rs, ws) ∧
            map error rs =
              [Some "Error: spawn ENOMEM"; Some "Error: spawn ENOMEM"]).
  { eexists. eexists. split; vm_compute; reflexivity. }
  destruct Herrs as (rs & ws & Hrs & Herr).
  rewrite Hrun in Hrs. inversion Hrs; subst rs ws.
  exact (conj Hall
           (conj (ex_intro _ results
                    (ex_intro _ w' (conj Hrun (conj Hnames Herr))))
              (conj Hmiss (Hstop "001-first" ["002-second"] _ [] Hmiss)))).
Defined.

(** C8, the claim as stated fails: when a test fixture cannot be copied,
    staging raises inside the [try] block before the agent is reached;
    the single-shot runner hands back a record with [attempts = 1] and
    the error, and the agent has not been invoked at all. *)
Lemma staging_fault_skips_the_agent :
  let out := runEval unreadableEnv "001-first" false world0 in
  getEvalTestFiles unreadableEnv "001-first" =
    [sampleInput +:+ "/app/page.test.tsx"] ∧
  (∃ r, out.1 = Normal r ∧ attempts r = 1 ∧ mode r = FirstShot ∧
        error r = Some "Error: EACCES: permission denied") ∧
  agentCalls (trace out.2) = 0 ∧
  gatesRun (trace out.2) = [].
Proof.
  vm_compute. split; [reflexivity|]. split; [|split; reflexivity].
  eexists. repeat split; reflexivity.
Qed.

(** C8, amended.  In single-shot mode (the runner [main] uses when
    [--full] is absent) the record always has [attempts = 1], the agent
    is never invoked a second time whatever the build, lint and tests
    give, and it is invoked exactly once as soon as staging completes.
    A fault while staging is caught before the agent is reached: the
    agent is then not invoked and the record carries the error. *)
Theorem single_shot_invokes_agent_once (E : Env) (evalName : string)
    (debug : bool) (w w' : World) (r : EvalResult) :
  (runEval E evalName debug w = (Normal r, w') →
   attempts r = 1 ∧ mode r = FirstShot ∧
   agentCalls (added w w') ≤ 1 ∧
   ((stage E (run E evalName) evalName (getEvalTestFiles E evalName)
       (shell E EvGitStash w).2).1 = Normal tt →
    agentCalls (added w w') = 1) ∧
   ((stage E (run E evalName) evalName (getEvalTestFiles E evalName)
       (shell E EvGitStash w).2).1 ≠ Normal tt →
    agentCalls (added w w') = 0 ∧ is_Some (error r))) ∧
  (∀ names results w0 w1,
     runBatch E false debug names [] w0 = (Normal results, w1) →
     ∀ r0, r0 ∈ results → attempts r0 = 1 ∧ mode r0 = FirstShot).
Proof.
  split.
  - intros H.
    destruct (runEval_inv E _ _ _ _ _ H) as (base & c & fr & _ & Htry & T & _ & Hr).
    destruct (firstShotTry_inv E _ _ _ _ _ _ _ Htry)
      as (pre & seg & T1 & Pp & _ & _ & At & _ & _ & Md & _ & Hcase).
    cbn [world result shell snd trace newResult attempts mode] in T1, At, Md.
    assert (Hadd : added w w' = (EvGitStash :: pre) ++ seg ++ restoreEvents).
    { unfold added. rewrite T, T1, <- !app_assoc, drop_app_length.
      reflexivity. }
    assert (Hcalls : agentCalls (added w w') = length (payloads seg)).
    { rewrite Hadd. unfold agentCalls.
      change (EvGitStash :: pre) with ([EvGitStash] ++ pre).
      rewrite !payloads_app, Pp. simpl. rewrite app_nil_r. reflexivity. }
    rewrite Hcalls.
    split; [subst r; destruct c; simpl; exact At|].
    split; [subst r; destruct c; simpl; exact Md|].
    destruct Hcase as [(Hst & -> & err & ->)|(Hst & Hp & _)].
    + split; [simpl; lia|]. split.
      * intros Hok. exfalso. apply Hst. exact Hok.
      * intros _. subst r. simpl. split; [reflexivity|eauto].
    + rewrite Hp. simpl. split; [lia|]. split; [reflexivity|].
      intros Hno. exfalso. apply Hno. exact Hst.
  - intros names results w0 w1 H r0 Hr0.
    eapply (runBatch_firstShot E debug names [] w0 results w1 H); [|exact Hr0].
    intros r' Hin. inversion Hin.
Qed.

Lemma single_shot_invokes_agent_once_witness :
  runEval brokenEnv "001-first" false world0 =
    (Normal (resultOf brokenFirstShot), brokenFirstShot.2) ∧
  (stage brokenEnv (run brokenEnv "001-first") "001-first"
     (getEvalTestFiles brokenEnv "001-first")
     (shell brokenEnv EvGitStash world0).2).1 = Normal tt ∧
  passed (resultOf brokenFirstShot) = false ∧
  attempts (resultOf brokenFirstShot) = 1 ∧
  agentCalls (added world0 brokenFirstShot.2) = 1.
Proof.
  assert (Hrun : runEval brokenEnv "001-first" false world0 =
                   (Normal (resultOf brokenFirstShot), brokenFirstShot.2))
    by (vm_compute; reflexivity).
  assert (Hst : (stage brokenEnv (run brokenEnv "001-first") "001-first"
                   (getEvalTestFiles brokenEnv "001-first")
                   (shell brokenEnv EvGitStash world0).2).1 = Normal tt)
    by (vm_compute; reflexivity).
  assert (Hfail : passed (resultOf brokenFirstShot) = false)
    by (vm_compute; reflexivity).
  destruct (single_shot_invokes_agent_once brokenEnv "001-first" false world0
              brokenFirstShot.2 (resultOf brokenFirstShot)) as [Hone _].
  destruct (Hone Hrun) as (Ha & _ & _ & Hcalls & _).
  exact (conj Hrun (conj Hst (conj Hfail (conj Ha (Hcalls Hst))))).
Defined.

(** C9.  [writeJsonResults] hands [Bun.write] one array with one entry per
    record, in order, each of the shape [{evalPath, mode, result}] where
    [result] holds success, buildSuccess, lintSuccess, testSuccess,
    attempts and duration, and error when the record has one (a record
    without error has no such key: [JSON.stringify] leaves out
    [undefined]).  A batch of N evaluations gives N records.  The
    duration of a record made by either runner is the difference of its
    two clock readings divided by 1000, and for a run shorter than
    [2^20] milliseconds (about seventeen minutes) the entry holds
    exactly that difference: the duration in milliseconds. *)
Theorem json_summary_shape (E : Env) (results : list EvalResult)
    (outputPath : string) (w : World) :
  (∃ docs,
     writeJsonResults results outputPath w =
       (Normal tt,
        {| fs := fs w; d3kProcess := d3kProcess w; nextPid := nextPid w;
           trace := trace w ++ [EvWriteFile outputPath (JArr docs)] |}) ∧
     length docs = length results ∧
     ∀ i r, results !! i = Some r → docs !! i = Some (summaryEntry r)) ∧
  (∀ fullMode debug names w0 w1,
     runBatch E fullMode debug names [] w0 = (Normal results, w1) →
     length results = length names) ∧
  (∀ evalName debug w0 w1 r,
     runEvalFull E evalName debug w0 = (Normal r, w1) ∨
     runEval E evalName debug w0 = (Normal r, w1) →
     duration r =
       secondsSince (startClock (run E evalName)) (endClock (run E evalName)) ∧
     ((0 ≤ endClock (run E evalName) - startClock (run E evalName) < 2 ^ 20)%Z →
      millisOf (duration r) =
        Some (endClock (run E evalName) - startClock (run E evalName))%Z)).
Proof.
  split; [|split].
  - exists (map summaryEntry results). split; [|split].
    + assert (Hdocs : map stringify (map jsonResultOf results) =
                      map summaryEntry results).
      { rewrite map_map. apply map_ext. intros r.
        unfold jsonResultOf, summaryEntry. simpl.
        destruct (millisOf (duration r)); destruct (error r); reflexivity. }
      unfold writeJsonResults, emit. simpl. rewrite Hdocs. reflexivity.
    + apply length_map.
    + intros i r Hr. rewrite list_lookup_fmap, Hr. reflexivity.
  - intros fullMode debug names w0 w1 H.
    apply runBatch_length in H. simpl in H. exact H.
  - intros evalName debug w0 w1 r H.
    assert (Hd : duration r =
                 secondsSince (startClock (run E evalName))
                   (endClock (run E evalName))).
    { destruct H as [H|H].
      + destruct (runEvalFull_inv E _ _ _ _ _ H)
          as (base & c & fr & stop & _ & _ & _ & _ & _ & _ & _ & _ & ->).
        reflexivity.
      + destruct (runEval_inv E _ _ _ _ _ H)
          as (base & c & fr & _ & _ & _ & _ & ->).
        reflexivity. }
    split; [exact Hd|]. intros Hb. rewrite Hd. apply millis_exact. exact Hb.
Qed.

Lemma json_summary_shape_witness :
  runEvalFull flakyEnv "001-first" false world0 =
    (Normal (resultOf flakyRun), flakyRun.2) ∧
  millisOf (duration (resultOf flakyRun)) = Some 3500%Z ∧
  [resultOf flakyRun] !! 0 = Some (resultOf flakyRun) ∧
  ∃ docs,
    (writeJsonResults [resultOf flakyRun] "results.json" world0).2 =
      {| fs := fs world0; d3kProcess := None; nextPid := 100;
         trace := [EvWriteFile "results.json" (JArr docs)] |} ∧
    docs !! 0 = Some (summaryEntry (resultOf flakyRun)).
Proof.
  assert (Hrun : runEvalFull flakyEnv "001-first" false world0 =
                   (Normal (resultOf flakyRun), flakyRun.2))
    by (vm_compute; reflexivity).
  assert (Hb : (0 ≤ endClock (run flakyEnv "001-first")
                    - startClock (run flakyEnv "001-first") < 2 ^ 20)%Z)
    by (vm_compute; split; [discriminate|reflexivity]).
  destruct (json_summary_shape flakyEnv [resultOf flakyRun] "results.json" world0)
    as ((docs & Hw & _ & Hd) & _ & Hms).
  split; [exact Hrun|].
  split; [exact (proj2 (Hms "001-first" false world0 _ _ (or_introl Hrun)) Hb)|].
  split; [reflexivity|].
  exists docs. rewrite Hw. split; [reflexivity|].
  apply Hd. reflexivity.
Defined.

(** C10.  Once [startD3k] has spawned the dev server, the first [stopD3k]
    kills exactly that process and clears the module-level handle; a
    second [stopD3k], like a [stopD3k] when no process is held, changes
    nothing and kills nothing. *)
Theorem stopD3k_idempotent (E : Env) (R : RunEnv) (w : World) :
  let w1 := (startD3k E R w).2 in
  let w2 := (stopD3k w1).2 in
  spawned (added w w1) = [nextPid w] ∧
  d3kProcess w1 = Some (nextPid w) ∧
  trace w2 = trace w1 ++ [EvKill (nextPid w); EvSleep 500] ∧
  d3kProcess w2 = None ∧
  stopD3k w2 = (Normal tt, w2) ∧
  stopD3k {| fs := fs w; d3kProcess := None; nextPid := nextPid w;
             trace := trace w |} =
    (Normal tt, {| fs := fs w; d3kProcess := None; nextPid := nextPid w;
                   trace := trace w |}).
Proof.
  intros w1 w2.
  destruct (startD3k_spec E R w) as (evs & T & _ & _ & S & D).
  fold w1 in T, D.
  assert (S2 := stopD3k_running w1 _ D).
  assert (Hw2 : w2 = (stopD3k w1).2) by reflexivity.
  rewrite S2 in Hw2. simpl in Hw2.
  split.
  { unfold added. rewrite T, drop_app_length. simpl. rewrite S. reflexivity. }
  split; [exact D|].
  rewrite Hw2. simpl.
  repeat split; reflexivity.
Qed.

(** ** Beyond the claims: the start of d3k *)

Lemma added_of_extension (w w' : World) (evs : list Event) :
  trace w' = trace w ++ evs → added w w' = evs.
Proof. intros T. unfold added. rewrite T. apply drop_app_length. Qed.

Lemma firstReadyFrom_step (R : RunEnv) (n a : nat) :
  firstReadyFrom R (S n) a =
    if pollReady R a then Some a else firstReadyFrom R n (S a).
Proof. reflexivity. Qed.

Lemma firstReadyFrom_Some (R : RunEnv) (n a j : nat) :
  firstReadyFrom R n a = Some j ↔
  (a ≤ j < a + n ∧ pollReady R j = true ∧
   ∀ i, a ≤ i < j → pollReady R i = false).
Proof.
  revert a. induction n as [|n IH]; intros a.
  { split; [discriminate|]. intros ([? ?] & _). lia. }
  rewrite firstReadyFrom_step.
  destruct (pollReady R a) eqn:Ha.
  - split.
    + intros H. inversion H; subst j.
      repeat split; auto; try lia; intros i Hi; lia.
    + intros (Hj & Hr & Hfirst).
      destruct (decide (j = a)) as [->|Hne]; [reflexivity|].
      rewrite (Hfirst a) in Ha by lia. discriminate.
  - rewrite IH. split.
    + intros (Hj & Hr & Hfirst). split; [lia|]. split; [exact Hr|].
      intros i Hi. destruct (decide (i = a)) as [->|Hne]; [exact Ha|].
      apply Hfirst. lia.
    + intros (Hj & Hr & Hfirst).
      assert (j ≠ a) by (intros ->; congruence).
      split; [lia|]. split; [exact Hr|]. intros i Hi. apply Hfirst. lia.
Qed.

Lemma firstReadyFrom_None (R : RunEnv) (n a : nat) :
  firstReadyFrom R n a = None ↔ ∀ i, a ≤ i < a + n → pollReady R i = false.
Proof.
  revert a. induction n as [|n IH]; intros a.
  { split; [intros _ i Hi; lia|reflexivity]. }
  rewrite firstReadyFrom_step.
  destruct (pollReady R a) eqn:Ha.
  - split; [discriminate|]. intros H. rewrite (H a) in Ha by lia. discriminate.
  - rewrite IH. split.
    + intros H i Hi. destruct (decide (i = a)) as [->|Hne]; [exact Ha|].
      apply H. lia.
    + intros H i Hi. apply H. lia.
Qed.

Section D3kStart.

Variable E : Env.
Variable R : RunEnv.

Lemma waitForServer_run (fuel a : nat) (w : World) :
  fuel + a = 30 →
  (waitForServer E R fuel a w).1 =
    Normal (bool_decide (is_Some (firstReadyFrom R fuel a))) ∧
  trace (waitForServer E R fuel a w).2 = trace w ++ pollLog R fuel a ∧
  d3kProcess (waitForServer E R fuel a w).2 = d3kProcess w.
Proof.
  revert a w. induction fuel as [|fuel IH]; intros a w Hsum.
  { unfold pollLog. cbn. rewrite app_nil_r. auto. }
  change (waitForServer E R (S fuel) a) with
    (if a <? 30 then
       let* res := tryIgnore (shellOut E EvFetchHead (d3kHead R a)) in
       match res with
       | Some status =>
           if headReady status then ret true
           else let* _ := sleep 1000 in waitForServer E R fuel (S a)
       | None => let* _ := sleep 1000 in waitForServer E R fuel (S a)
       end
     else ret false).
  assert (Hlt : (a <? 30) = true) by (apply Nat.ltb_lt; lia).
  rewrite Hlt. unfold pollLog. rewrite firstReadyFrom_step.
  unfold bind, tryIgnore, shellOut, bind, shell, sleep, emit, ret, pollReady.
  cbn [fst snd trace fs d3kProcess nextPid].
  set (w2 := {| fs := shellFs E EvFetchHead (fs w); d3kProcess := d3kProcess w;
                nextPid := nextPid w;
                trace := (trace w ++ [EvFetchHead]) ++ [EvSleep 1000] |}).
  assert (Hrest :
    (waitForServer E R fuel (S a) w2).1 =
      Normal (bool_decide (is_Some (firstReadyFrom R fuel (S a)))) ∧
    trace (waitForServer E R fuel (S a) w2).2 =
      trace w ++ pollAndWait ++ pollLog R fuel (S a) ∧
    d3kProcess (waitForServer E R fuel (S a) w2).2 = d3kProcess w).
  { destruct (IH (S a) w2) as (H1 & H2 & H3); [lia|].
    split; [exact H1|]. split; [|exact H3].
    rewrite H2. unfold w2. cbn [trace]. rewrite <- !app_assoc. reflexivity. }
  assert (Hlog : pollAndWait ++ pollLog R fuel (S a) =
                 match firstReadyFrom R fuel (S a) with
                 | Some j => concat (replicate (j - a) pollAndWait) ++ [EvFetchHead]
                 | None => concat (replicate (S fuel) pollAndWait)
                 end).
  { unfold pollLog. destruct (firstReadyFrom R fuel (S a)) as [j|] eqn:Hj.
    - apply firstReadyFrom_Some in Hj as ([Hj _] & _).
      replace (j - a) with (S (j - S a)) by lia.
      cbn [replicate concat]. rewrite <- app_assoc. reflexivity.
    - reflexivity. }
  destruct Hrest as (H1 & H2 & H3). rewrite Hlog in H2.
  destruct (d3kHead R a) as [status|err]; cbn [fst snd].
  - destruct (headReady status); cbn [fst snd trace d3kProcess].
    + rewrite Nat.sub_diag. split; [reflexivity|]. auto.
    + fold w2. auto.
  - fold w2. auto.
Qed.

Lemma startD3k_run (w : World) :
  (startD3k E R w).1 =
    (if bool_decide (is_Some (firstReady R)) then Normal tt
     else Throw "d3k server failed to start within 30s") ∧
  added w (startD3k E R w).2 =
    EvClearLogs :: EvSpawnD3k (nextPid w) :: pollLog R 30 0 ∧
  d3kProcess (startD3k E R w).2 = Some (nextPid w).
Proof.
  unfold startD3k, bind, shell, spawnD3k.
  match goal with |- context [waitForServer E R 30 0 ?w1] =>
    destruct (waitForServer_run 30 0 w1 eq_refl) as (H1 & H2 & H3);
    destruct (waitForServer E R 30 0 w1) as [[ready|err] w2] end;
    cbn [fst snd trace fs d3kProcess nextPid] in *; [|discriminate].
  inversion H1; subst ready. fold (firstReady R).
  split; [destruct (bool_decide _); reflexivity|].
  split; [|destruct (bool_decide _); exact H3].
  apply added_of_extension.
  destruct (bool_decide _); unfold ret, throw; cbn [snd];
    rewrite H2, <- !app_assoc; reflexivity.
Qed.

End D3kStart.

(** X1.  [startD3k] returns as soon as a poll finds the server ready
    ([res.ok] or status 404): when poll [j] (counted from 0, below 30) is
    the first ready one, it clears the logs, spawns the process, makes
    [j] unsuccessful polls each followed by a wait of one second, and the
    successful one, then returns with the handle of the spawned process
    stored. *)
Theorem startD3k_returns_at_first_ready_poll (E : Env) (R : RunEnv)
    (w : World) (j : nat) :
  j < 30 →
  pollReady R j = true →
  (∀ i, i < j → pollReady R i = false) →
  (startD3k E R w).1 = Normal tt ∧
  added w (startD3k E R w).2 =
    EvClearLogs :: EvSpawnD3k (nextPid w) ::
    concat (replicate j pollAndWait) ++ [EvFetchHead] ∧
  d3kProcess (startD3k E R w).2 = Some (nextPid w).
Proof.
  intros Hj Hr Hfirst.
  assert (Hf : firstReady R = Some j).
  { apply firstReadyFrom_Some. repeat split; auto; try lia.
    intros i Hi. apply Hfirst. lia. }
  destruct (startD3k_run E R w) as (H1 & H2 & H3).
  unfold pollLog in H2. fold (firstReady R) in H2. rewrite Hf in *.
  rewrite Nat.sub_0_r in H2. auto.
Qed.

Lemma startD3k_returns_at_first_ready_poll_witness :
  2 < 30 ∧
  pollReady (withHead quietRun (fun i => if i <? 2 then Throw "ECONNREFUSED"
                                         else Normal 404%Z)) 2 = true ∧
  (startD3k sampleEnv
     (withHead quietRun (fun i => if i <? 2 then Throw "ECONNREFUSED"
                                  else Normal 404%Z)) world0).1 = Normal tt ∧
  added world0
    (startD3k sampleEnv
       (withHead quietRun (fun i => if i <? 2 then Throw "ECONNREFUSED"
                                    else Normal 404%Z)) world0).2 =
    [EvClearLogs; EvSpawnD3k 100; EvFetchHead; EvSleep 1000; EvFetchHead;
     EvSleep 1000; EvFetchHead].
Proof.
  assert (H2 : 2 < 30) by lia.
  assert (Hr : pollReady (withHead quietRun
                 (fun i => if i <? 2 then Throw "ECONNREFUSED"
                           else Normal 404%Z)) 2 = true) by reflexivity.
  destruct (startD3k_returns_at_first_ready_poll sampleEnv
              (withHead quietRun (fun i => if i <? 2 then Throw "ECONNREFUSED"
                                           else Normal 404%Z)) world0 2 H2 Hr)
    as (Hn & Hlog & _).
  { intros i Hi. destruct i as [|[|i]]; [reflexivity|reflexivity|lia]. }
  exact (conj H2 (conj Hr (conj Hn Hlog))).
Defined.

(** X2.  When none of the thirty polls finds the server ready (a [fetch]
    that raises counts as not ready), [startD3k] raises "d3k server
    failed to start within 30s" after exactly thirty polls, each followed
    by a wait of one second; the spawned process is not killed by
    [startD3k] and its handle stays stored for [stopD3k]. *)
Theorem startD3k_times_out_after_thirty_polls (E : Env) (R : RunEnv)
    (w : World) :
  (∀ i, i < 30 → pollReady R i = false) →
  (startD3k E R w).1 = Throw "d3k server failed to start within 30s" ∧
  added w (startD3k E R w).2 =
    EvClearLogs :: EvSpawnD3k (nextPid w) :: concat (replicate 30 pollAndWait) ∧
  killed (added w (startD3k E R w).2) = [] ∧
  d3kProcess (startD3k E R w).2 = Some (nextPid w).
Proof.
  intros Hnone.
  assert (Hf : firstReady R = None).
  { apply firstReadyFrom_None. intros i Hi. apply Hnone. lia. }
  destruct (startD3k_run E R w) as (H1 & H2 & H3).
  unfold pollLog in H2. fold (firstReady R) in H2. rewrite Hf in *.
  repeat split; auto. rewrite H2. reflexivity.
Qed.

Lemma startD3k_times_out_after_thirty_polls_witness :
  (∀ i, i < 30 → pollReady (run noServerEnv "001-first") i = false) ∧
  (startD3k noServerEnv (run noServerEnv "001-first") world0).1 =
    Throw "d3k server failed to start within 30s" ∧
  d3kProcess (startD3k noServerEnv (run noServerEnv "001-first") world0).2 =
    Some 100.
Proof.
  assert (Hnone : ∀ i, i < 30 →
                       pollReady (run noServerEnv "001-first") i = false)
    by (intros i _; reflexivity).
  destruct (startD3k_times_out_after_thirty_polls noServerEnv
              (run noServerEnv "001-first") world0 Hnone) as (H1 & _ & _ & H4).
  exact (conj Hnone (conj H1 H4)).
Defined.

(** X3.  [startD3k] returns normally exactly when one of its thirty polls
    finds the server ready. *)
Theorem startD3k_succeeds_iff_ready_within_thirty (E : Env) (R : RunEnv)
    (w : World) :
  (startD3k E R w).1 = Normal tt ↔ ∃ j, j < 30 ∧ pollReady R j = true.
Proof.
  destruct (startD3k_run E R w) as (H1 & _ & _). rewrite H1.
  destruct (firstReady R) as [j|] eqn:Hf.
  - apply firstReadyFrom_Some in Hf as ([_ Hj] & Hr & _).
    rewrite bool_decide_eq_true_2 by eauto.
    split; [intros _; exists j; split; [lia|exact Hr]|reflexivity].
  - rewrite bool_decide_eq_false_2 by (intros [? ?]; discriminate).
    split; [discriminate|]. intros (j & Hj & Hr).
    rewrite (proj1 (firstReadyFrom_None R 30 0) Hf j) in Hr by lia.
    discriminate.
Qed.

Lemma startD3k_succeeds_iff_ready_within_thirty_witness :
  (∃ j, j < 30 ∧ pollReady quietRun j = true) ∧
  (startD3k sampleEnv quietRun world0).1 = Normal tt.
Proof.
  assert (Hready : ∃ j, j < 30 ∧ pollReady quietRun j = true).
  { exists 0. split; [lia|reflexivity]. }
  exact (conj Hready
           (proj2 (startD3k_succeeds_iff_ready_within_thirty sampleEnv quietRun
                     world0) Hready)).
Defined.


(** ** Beyond the claims: the browser errors read from the d3k logs *)

Lemma str_app_cons (c : Ascii.ascii) (s t : string) :
  String c s +:+ t = String c (s +:+ t).
Proof. reflexivity. Qed.

Lemma str_app_nil_r (s : string) : s +:+ "" = s.
Proof. induction s as [|c s IH]; [reflexivity|]. rewrite str_app_cons, IH. reflexivity. Qed.

Lemma str_app_assoc (s t u : string) : (s +:+ t) +:+ u = s +:+ (t +:+ u).
Proof.
  induction s as [|c s IH]; [reflexivity|].
  rewrite !str_app_cons, IH. reflexivity.
Qed.

Lemma rev_app_app (s1 s2 s3 : string) :
  String.rev_app s1 s2 +:+ s3 = String.rev_app s1 (s2 +:+ s3).
Proof.
  revert s2. induction s1 as [|c s1 IH]; intros s2; [reflexivity|].
  simpl. rewrite IH. reflexivity.
Qed.

Lemma rev_cons_app (c : Ascii.ascii) (cur rest : string) :
  String.rev (String c cur) +:+ rest = String.rev cur +:+ String c rest.
Proof. unfold String.rev. simpl. rewrite !rev_app_app. reflexivity. Qed.

Lemma lineFeeds_app (s t : string) :
  lineFeeds (s +:+ t) = lineFeeds s + lineFeeds t.
Proof.
  induction s as [|c s IH]; [reflexivity|].
  rewrite str_app_cons. simpl. rewrite IH. lia.
Qed.

Lemma lineFeeds_rev_app (s t : string) :
  lineFeeds (String.rev_app s t) = lineFeeds s + lineFeeds t.
Proof.
  revert t. induction s as [|c s IH]; intros t; [reflexivity|].
  simpl. rewrite IH. simpl. lia.
Qed.

Lemma split_go_cons (cur s : string) :
  ∃ first others, split_go cur s = first :: others.
Proof.
  revert cur. induction s as [|c s IH]; intros cur; simpl; [eauto|].
  destruct (Ascii.eqb c _); [eauto|apply IH].
Qed.

Lemma joinWith_cons (sep x y : string) (l : list string) :
  joinWith sep (x :: y :: l) = x +:+ sep +:+ joinWith sep (y :: l).
Proof. reflexivity. Qed.

(** [split] and [join] on the line feed undo each other. *)
Lemma join_split_go (cur s : string) :
  joinWith LF (split_go cur s) = String.rev cur +:+ s.
Proof.
  revert cur. induction s as [|c s IH]; intros cur; simpl.
  { rewrite str_app_nil_r. reflexivity. }
  destruct (Ascii.eqb c (Ascii.ascii_of_nat 10)) eqn:Hc.
  - apply Ascii.eqb_eq in Hc. subst c.
    destruct (split_go_cons "" s) as (y & l & Hy).
    specialize (IH ""). rewrite Hy in *. rewrite joinWith_cons, IH.
    reflexivity.
  - rewrite IH. apply rev_cons_app.
Qed.

Lemma join_splitLines (s : string) : joinWith LF (splitLines s) = s.
Proof. unfold splitLines. rewrite join_split_go. reflexivity. Qed.

Lemma split_go_no_feed (cur s : string) :
  lineFeeds cur = 0 → Forall (λ x, lineFeeds x = 0) (split_go cur s).
Proof.
  revert cur. induction s as [|c s IH]; intros cur Hcur; simpl.
  { constructor; [|constructor]. unfold String.rev.
    rewrite lineFeeds_rev_app, Hcur. reflexivity. }
  destruct (Ascii.eqb c (Ascii.ascii_of_nat 10)) eqn:Hc.
  - constructor; [|apply IH; reflexivity].
    unfold String.rev. rewrite lineFeeds_rev_app, Hcur. reflexivity.
  - apply IH. simpl. rewrite Hc, Hcur. reflexivity.
Qed.

Lemma lineFeeds_join (l : list string) :
  Forall (λ x, lineFeeds x = 0) l →
  lineFeeds (joinWith LF l) = length l - 1.
Proof.
  induction 1 as [|x l Hx Hl IH]; [reflexivity|].
  destruct l as [|y l]; [simpl; rewrite Hx; reflexivity|].
  rewrite joinWith_cons, !lineFeeds_app, Hx, IH. simpl. lia.
Qed.

Lemma lineFeeds_lines (s : string) :
  lineFeeds s = length (splitLines s) - 1 ∧ 1 ≤ length (splitLines s).
Proof.
  split.
  - rewrite <- (join_splitLines s) at 1. apply lineFeeds_join.
    apply split_go_no_feed. reflexivity.
  - unfold splitLines. destruct (split_go_cons "" s) as (y & l & ->).
    simpl. lia.
Qed.

Lemma join_drop_suffix (n : nat) (l : list string) :
  ∃ pre, joinWith LF l = pre +:+ joinWith LF (drop n l).
Proof.
  revert l. induction n as [|n IH]; intros l.
  { exists "". reflexivity. }
  destruct l as [|x l]; [exists ""; reflexivity|].
  destruct l as [|y l].
  { exists x. change (drop (S n) [x]) with (drop n (@nil string)).
    rewrite drop_nil. simpl. rewrite str_app_nil_r. reflexivity. }
  destruct (IH (y :: l)) as [pre Hpre].
  exists (x +:+ LF +:+ pre).
  rewrite joinWith_cons, Hpre, !str_app_assoc. reflexivity.
Qed.

Lemma startsWith_split (p s : string) :
  startsWith p s = true → ∃ post, s = p +:+ post.
Proof.
  unfold startsWith. revert s.
  induction p as [|a p IH]; intros s; [eauto|].
  destruct s as [|b s]; simpl; [discriminate|].
  destruct (Ascii.ascii_dec a b) as [->|]; [|discriminate].
  intros H. destruct (IH s H) as [post ->]. exists post. reflexivity.
Qed.

Lemma startsWith_app (p post : string) : startsWith p (p +:+ post) = true.
Proof.
  unfold startsWith. induction p as [|a p IH]; [destruct post; reflexivity|].
  rewrite str_app_cons. simpl.
  destruct (Ascii.ascii_dec a a); [exact IH|congruence].
Qed.

Lemma includes_step (needle : string) (c : Ascii.ascii) (s : string) :
  includes needle (String c s) =
    if startsWith needle (String c s) then true else includes needle s.
Proof. reflexivity. Qed.

Lemma includes_behind (needle x t : string) :
  includes needle t = true → includes needle (x +:+ t) = true.
Proof.
  intros H. induction x as [|c x IH]; [exact H|].
  rewrite str_app_cons, includes_step, IH.
  destruct (startsWith _ _); reflexivity.
Qed.

Lemma includes_start (needle post : string) :
  includes needle (needle +:+ post) = true.
Proof.
  pose proof (startsWith_app needle post) as H.
  destruct (needle +:+ post) as [|c s]; cbn [includes]; rewrite H; reflexivity.
Qed.

Lemma includes_split (needle s : string) :
  includes needle s = true → ∃ pre post, s = pre +:+ needle +:+ post.
Proof.
  induction s as [|c s IH]; intros H.
  - cbn [includes] in H.
    destruct (startsWith needle "") eqn:Hs; [|discriminate].
    apply startsWith_split in Hs as [post Hs]. exists "", post. exact Hs.
  - rewrite includes_step in H.
    destruct (startsWith needle (String c s)) eqn:Hs.
    + apply startsWith_split in Hs as [post Hs]. exists "", post. exact Hs.
    + destruct (IH H) as (pre & post & ->). exists (String c pre), post.
      reflexivity.
Qed.

(** A text that contains [x ++ y] contains [y]. *)
Lemma includes_tail (x y s : string) :
  includes (x +:+ y) s = true → includes y s = true.
Proof.
  intros H. apply includes_split in H as (pre & post & ->).
  rewrite str_app_assoc. apply includes_behind, includes_behind, includes_start.
Qed.

Lemma patterns_reduce (logContent : string) :
  existsb (λ pattern, testCI pattern logContent) errorPatterns =
  existsb (λ pattern, testCI pattern logContent) decidingPatterns.
Proof.
  assert (Hsub : ∀ x, testCI (x +:+ "Error:") logContent = true →
                      testCI "Error:" logContent = true).
  { intros x. unfold testCI.
    assert (Hl : ∀ a b, toLower (a +:+ b) = toLower a +:+ toLower b).
    { intros a b. induction a as [|c a IH]; [reflexivity|].
      rewrite str_app_cons. simpl. rewrite IH. reflexivity. }
    rewrite Hl. apply includes_tail. }
  pose proof (Hsub "Type") as H1. pose proof (Hsub "Reference") as H2.
  pose proof (Hsub "Syntax") as H3.
  change ("Type" +:+ "Error:") with "TypeError:" in H1.
  change ("Reference" +:+ "Error:") with "ReferenceError:" in H2.
  change ("Syntax" +:+ "Error:") with "SyntaxError:" in H3.
  unfold errorPatterns, decidingPatterns. cbn [existsb].
  destruct (testCI "Error:" logContent) eqn:He; [reflexivity|].
  destruct (testCI "TypeError:" logContent); [discriminate (H1 eq_refl)|].
  destruct (testCI "ReferenceError:" logContent); [discriminate (H2 eq_refl)|].
  destruct (testCI "SyntaxError:" logContent); [discriminate (H3 eq_refl)|].
  cbn [orb]. destruct (testCI "Unhandled Runtime Error" logContent); reflexivity.
Qed.

(** X4.  What [getD3kErrors] returns is the end of the newest log file:
    the log is some text followed by the returned text, the returned
    text has at most fifty lines, and it is the whole log when the log
    has at most fifty lines. *)
Theorem getD3kErrors_returns_log_tail (E : Env) (R : RunEnv) (attempt : nat)
    (out : string) :
  getD3kErrors E R attempt = Some out →
  ∃ listing newest others logContent pre,
    d3kLogFiles R attempt = Some listing ∧
    filter (λ l, truthy l = true) listing = newest :: others ∧
    d3kReadLog R attempt (path_join E [D3K_LOGS_DIR E; newest])
      = Normal logContent ∧
    logContent = pre +:+ out ∧
    lineFeeds out < 50 ∧
    (lineFeeds logContent < 50 → out = logContent).
Proof.
  unfold getD3kErrors.
  destruct (d3kLogFiles R attempt) as [listing|]; [|discriminate].
  destruct (filter _ listing) as [|newest others] eqn:Hf; [discriminate|].
  destruct (d3kReadLog R attempt _) as [logContent|] eqn:Hr; [|discriminate].
  destruct (existsb _ errorPatterns); [|discriminate].
  intros H. inversion H; subst out; clear H.
  destruct (join_drop_suffix (length (splitLines logContent) - 50)
              (splitLines logContent)) as [pre Hpre].
  rewrite join_splitLines in Hpre.
  destruct (lineFeeds_lines logContent) as [Hlf Hlen].
  exists listing, newest, others, logContent, pre.
  split; [reflexivity|]. split; [exact Hf|]. split; [exact Hr|].
  split; [exact Hpre|]. unfold sliceLast. split.
  - rewrite lineFeeds_join.
    + rewrite length_drop. lia.
    + apply Forall_drop, split_go_no_feed. reflexivity.
  - intros Hshort.
    replace (length (splitLines logContent) - 50) with 0 by lia.
    rewrite drop_0. apply join_splitLines.
Qed.

Lemma getD3kErrors_returns_log_tail_witness :
  getD3kErrors sampleEnv logsRun 1 = Some sampleLog ∧
  lineFeeds sampleLog < 50 ∧
  ∃ pre, sampleLog = pre +:+ sampleLog.
Proof.
  assert (H : getD3kErrors sampleEnv logsRun 1 = Some sampleLog)
    by (vm_compute; reflexivity).
  destruct (getD3kErrors_returns_log_tail sampleEnv logsRun 1 sampleLog H)
    as (listing & newest & others & logContent & pre & _ & _ & Hr & Hpre & Hlf & _).
  cbn [logsRun d3kReadLog] in Hr. inversion Hr as [Heq].
  rewrite <- Heq in Hpre.
  exact (conj H (conj Hlf (ex_intro _ pre Hpre))).
Defined.

(** X5.  [getD3kErrors] returns text exactly when the log directory
    exists, its listing has a first entry, that file can be read, and its
    content contains, whatever the case of the letters, one of "Error:",
    "Unhandled Runtime Error", "Build Error" or "Failed to compile".  The
    patterns "TypeError:", "ReferenceError:" and "SyntaxError:" of the
    script never decide: a text that contains one of them contains
    "Error:". *)
Theorem getD3kErrors_decided_by_four_signatures (E : Env) (R : RunEnv)
    (attempt : nat) :
  is_Some (getD3kErrors E R attempt) ↔
  ∃ listing newest others logContent,
    d3kLogFiles R attempt = Some listing ∧
    filter (λ l, truthy l = true) listing = newest :: others ∧
    d3kReadLog R attempt (path_join E [D3K_LOGS_DIR E; newest])
      = Normal logContent ∧
    existsb (λ pattern, testCI pattern logContent) decidingPatterns = true.
Proof.
  unfold getD3kErrors. split.
  - destruct (d3kLogFiles R attempt) as [listing|]; [|intros [? ?]; discriminate].
    destruct (filter _ listing) as [|newest others] eqn:Hf;
      [intros [? ?]; discriminate|].
    destruct (d3kReadLog R attempt _) as [logContent|] eqn:Hr;
      [|intros [? ?]; discriminate].
    rewrite patterns_reduce.
    destruct (existsb _ decidingPatterns) eqn:Hp; [|intros [? ?]; discriminate].
    intros _. exists listing, newest, others, logContent. auto.
  - intros (listing & newest & others & logContent & Hl & Hf & Hr & Hp).
    rewrite Hl, Hf, Hr, patterns_reduce, Hp. eauto.
Qed.

Lemma getD3kErrors_decided_by_four_signatures_witness :
  existsb (λ pattern, testCI pattern sampleLog) decidingPatterns = true ∧
  is_Some (getD3kErrors sampleEnv logsRun 1).
Proof.
  assert (Hp : existsb (λ pattern, testCI pattern sampleLog) decidingPatterns
               = true) by (vm_compute; reflexivity).
  split; [exact Hp|].
  apply (proj2 (getD3kErrors_decided_by_four_signatures sampleEnv logsRun 1)).
  exists ["d3k-2026.log"; "older.log"], "d3k-2026.log", ["older.log"], sampleLog.
  split; [reflexivity|]. split; [reflexivity|]. split; [reflexivity|exact Hp].
Defined.

(** ** Beyond the claims: what the verdict of a record means *)

Section Verdict.

Variable E : Env.
Variable R : RunEnv.
Variables evalName basePrompt : string.
Variable testFiles : list string.

(** A loop that leaves normally after at least one attempt either broke
    out on an attempt that passed, or ran out of attempts on one that did
    not. *)
Lemma Iterations_normal_end a fb fr segs c fr' :
  Iterations E R evalName basePrompt testFiles a fb fr segs c fr' →
  segs ≠ [] → c = Normal tt →
  (passed (result fr') = true ∧
   attemptPasses R (0 <? length testFiles) (attempts (result fr')) = true) ∨
  (passed (result fr') = false ∧ a + length segs = S MAX_FULL_ATTEMPTS).
Proof.
  induction 1 as [a fb fr Ha
                 |a fb fr fb' fr1 seg Ha Hb T
                 |a fb fr err fr1 seg Ha Hb T
                 |a fb fr fb' fr1 seg segs c fr2 Ha Hb T HI IH];
    intros Hne Hc; try congruence.
  - pose proof (attemptBody_verdict E R _ _ _ _ _ _ _ _ Hb) as V.
    destruct (attemptBody_log E R _ _ _ _ _ _ _ _ Hb)
      as (evs & _ & _ & _ & _ & At & _).
    simpl in V. destruct V as [V1 V2]. left. rewrite At. auto.
  - pose proof (attemptBody_verdict E R _ _ _ _ _ _ _ _ Hb) as V.
    simpl in V. destruct V as (V1 & _ & _).
    destruct segs as [|s segs'].
    + inversion HI; subst. right. split; [exact V1|]. simpl. lia.
    + destruct IH as [IH|[IH1 IH2]]; [discriminate|exact Hc|left; exact IH|].
      right. split; [exact IH1|]. simpl in *. lia.
Qed.

(** The agent call and the gates of [runEval] give a passing record
    exactly when the agent returned and every gate that applies exited
    with status 0. *)
Lemma firstShotAttempt_verdict (prompt : string) (fr fr' : Frame)
    (c : Completion unit) :
  firstShotAttempt E R evalName prompt testFiles fr = (c, fr') →
  tests (result fr) = false →
  (passed (result fr') = true ↔
   attemptPasses R (0 <? length testFiles) 1 = true) ∧
  (attemptPasses R (0 <? length testFiles) 1 = true → c = Normal tt).
Proof.
  intros H Ht. unfold attemptPasses, passed. run_body H.
  all: use_cases.
  all: rewrite ?Ht, ?andb_false_r, ?andb_true_r.
  all: repeat split; intros; try discriminate; try reflexivity;
    try assumption.
Qed.

End Verdict.

(** X6.  A record of [runEvalFull] without error either passes, and then
    its last attempt (the one [attempts] counts) is one on which the
    agent returned and every gate that applies exited with status 0; or
    it does not pass, and then all three attempts were used, each with
    its agent call. *)
Theorem full_record_passes_or_is_exhausted (E : Env) (evalName : string)
    (debug : bool) (w w' : World) (r : EvalResult) :
  runEvalFull E evalName debug w = (Normal r, w') →
  error r = None →
  (passed r = true ∧
   attemptPasses (run E evalName)
     (0 <? length (getEvalTestFiles E evalName)) (attempts r) = true) ∨
  (passed r = false ∧ attempts r = MAX_FULL_ATTEMPTS ∧
   agentCalls (added w w') = MAX_FULL_ATTEMPTS).
Proof.
  intros H Herr.
  destruct (runEvalFull_anatomy E _ _ _ _ _ H)
    as (base & pre & segs & stop & c & fr & _ & _ & Hadd & Pp & _ & Ps & _ & _
        & _ & Hr & Hcase).
  assert (Hcalls : agentCalls (added w w') = agentCalls (concat segs)).
  { rewrite Hadd. unfold agentCalls.
    change (EvGitStash :: pre) with ([EvGitStash] ++ pre).
    rewrite !payloads_app, Pp, Ps. simpl. rewrite app_nil_r. reflexivity. }
  assert (Hc : c = Normal tt).
  { destruct c as [[]|err]; [reflexivity|]. subst r. discriminate. }
  subst c.
  destruct Hcase as [(_ & _ & err & Hthrow)|(fr1 & Hr1 & HI)]; [discriminate|].
  destruct (Iterations_count _ _ _ _ _ _ _ _ _ _ _ HI) as (Hcnt & _ & _ & Hne & _).
  assert (Hsegs : segs ≠ []).
  { intros ->. inversion HI; subst; unfold MAX_FULL_ATTEMPTS in *; lia. }
  specialize (Hne Hsegs).
  destruct (Iterations_normal_end _ _ _ _ _ _ _ _ _ _ _ HI Hsegs eq_refl)
    as [[Hp Ha]|[Hp Hlen]]; subst r; simpl.
  - left. auto.
  - right. rewrite Hcalls, Hcnt. unfold MAX_FULL_ATTEMPTS in *.
    repeat split; auto; lia.
Qed.

Lemma full_record_passes_or_is_exhausted_witness :
  runEvalFull brokenEnv "001-first" false world0 =
    (Normal (resultOf brokenFull), brokenFull.2) ∧
  error (resultOf brokenFull) = None ∧
  passed (resultOf brokenFull) = false ∧
  attempts (resultOf brokenFull) = MAX_FULL_ATTEMPTS ∧
  agentCalls (added world0 brokenFull.2) = MAX_FULL_ATTEMPTS.
Proof.
  assert (Hrun : runEvalFull brokenEnv "001-first" false world0 =
                   (Normal (resultOf brokenFull), brokenFull.2))
    by (vm_compute; reflexivity).
  assert (Herr : error (resultOf brokenFull) = None) by (vm_compute; reflexivity).
  assert (Hfail : passed (resultOf brokenFull) = false)
    by (vm_compute; reflexivity).
  destruct (full_record_passes_or_is_exhausted brokenEnv "001-first" false
              world0 _ _ Hrun Herr) as [[Hp _]|(_ & Ha & Hc)].
  - rewrite Hfail in Hp. discriminate.
  - exact (conj Hrun (conj Herr (conj Hfail (conj Ha Hc)))).
Defined.

(** X7.  A record of [runEval] passes exactly when staging completed, the
    agent returned, and the build, the lint and (when test files were
    found) the tests exited with status 0; a passing record carries no
    error. *)
Theorem single_shot_passes_iff_all_gates_pass (E : Env) (evalName : string)
    (debug : bool) (w w' : World) (r : EvalResult) :
  runEval E evalName debug w = (Normal r, w') →
  (passed r = true ↔
   (stage E (run E evalName) evalName (getEvalTestFiles E evalName)
      (shell E EvGitStash w).2).1 = Normal tt ∧
   attemptPasses (run E evalName)
     (0 <? length (getEvalTestFiles E evalName)) 1 = true) ∧
  (passed r = true → error r = None).
Proof.
  intros H.
  destruct (runEval_inv E _ _ _ _ _ H) as (base & c & fr & _ & Htry & _ & _ & Hr).
  assert (Hp : passed r = passed (result fr))
    by (subst r; destruct c; reflexivity).
  destruct (firstShotTry_inv E _ _ _ _ _ _ _ Htry)
    as (pre & seg & _ & _ & _ & _ & _ & Er & _).
  cbn [world result newResult error] in Er.
  rewrite Hp. revert Htry. unfold firstShotTry. unfold bind at 1.
  unfold liftW at 1. cbn [world result].
  destruct (stage E (run E evalName) evalName (getEvalTestFiles E evalName)
              (shell E EvGitStash w).2) as [[[]|err] w1]; cbn [fst snd].
  2:{ intros Htry. inversion Htry; subst c fr. cbn [result].
      split; [|discriminate].
      split; [discriminate|]. intros [Hno _]. discriminate. }
  intros Hatt.
  destruct (firstShotAttempt_verdict E _ _ _ _ _ _ _ Hatt eq_refl) as [Hiff Hn].
  split.
  - rewrite Hiff. tauto.
  - intros Hpass. apply Hiff in Hpass. rewrite (Hn Hpass) in Hr.
    subst r. exact Er.
Qed.

Lemma single_shot_passes_iff_all_gates_pass_witness :
  runEval sampleEnv "001-first" false world0 =
    (Normal (resultOf quietFirstShot), quietFirstShot.2) ∧
  (stage sampleEnv (run sampleEnv "001-first") "001-first"
     (getEvalTestFiles sampleEnv "001-first")
     (shell sampleEnv EvGitStash world0).2).1 = Normal tt ∧
  attemptPasses (run sampleEnv "001-first")
    (0 <? length (getEvalTestFiles sampleEnv "001-first")) 1 = true ∧
  passed (resultOf quietFirstShot) = true ∧
  error (resultOf quietFirstShot) = None.
Proof.
  assert (Hrun : runEval sampleEnv "001-first" false world0 =
                   (Normal (resultOf quietFirstShot), quietFirstShot.2))
    by (vm_compute; reflexivity).
  assert (Hst : (stage sampleEnv (run sampleEnv "001-first") "001-first"
                   (getEvalTestFiles sampleEnv "001-first")
                   (shell sampleEnv EvGitStash world0).2).1 = Normal tt)
    by (vm_compute; reflexivity).
  assert (Hall : attemptPasses (run sampleEnv "001-first")
                   (0 <? length (getEvalTestFiles sampleEnv "001-first")) 1
                 = true) by (vm_compute; reflexivity).
  destruct (single_shot_passes_iff_all_gates_pass sampleEnv "001-first" false
              world0 _ _ Hrun) as [Hiff Herr].
  pose proof (proj2 Hiff (conj Hst Hall)) as Hp.
  exact (conj Hrun (conj Hst (conj Hall (conj Hp (Herr Hp))))).
Defined.

(** ** Beyond the claims: the order of the phases of a run *)

Lemma emits_refl (p : Event → bool) (w : World) : emits p w w.
Proof. exists []. rewrite app_nil_r. auto. Qed.

Lemma emits_trans (p : Event → bool) (w1 w2 w3 : World) :
  emits p w1 w2 → emits p w2 w3 → emits p w1 w3.
Proof.
  intros (e1 & T1 & F1 & D1) (e2 & T2 & F2 & D2). exists (e1 ++ e2).
  rewrite T2, T1, <- app_assoc, forallb_app, F1, F2. repeat split; congruence.
Qed.

Lemma countEv_app (p : Event → bool) (l1 l2 : list Event) :
  countEv p (l1 ++ l2) = countEv p l1 + countEv p l2.
Proof. unfold countEv. rewrite List.filter_app, length_app. reflexivity. Qed.

Lemma countEv_none (p q : Event → bool) (l : list Event) :
  (∀ e, q e = true → p e = false) → forallb q l = true → countEv p l = 0.
Proof.
  intros Hpq. unfold countEv. induction l as [|e l IH]; [reflexivity|].
  simpl. intros H. apply andb_true_iff in H as [He Hl].
  rewrite (Hpq e He). apply IH. exact Hl.
Qed.

Lemma forallb_weaken (p q : Event → bool) (l : list Event) :
  (∀ e, p e = true → q e = true) → forallb p l = true → forallb q l = true.
Proof.
  intros Hpq. induction l as [|e l IH]; [reflexivity|].
  simpl. intros H. apply andb_true_iff in H as [He Hl].
  rewrite (Hpq e He), (IH Hl). reflexivity.
Qed.

Lemma forallb_concat (p : Event → bool) (ls : list (list Event)) :
  forallb (forallb p) ls = true → forallb p (concat ls) = true.
Proof.
  induction ls as [|l ls IH]; [reflexivity|].
  simpl. intros H. apply andb_true_iff in H as [Hl Hls].
  rewrite forallb_app, Hl, (IH Hls). reflexivity.
Qed.

Lemma attemptSegment_alphabet (seg : list Event) :
  attemptSegment seg = true → forallb isAttemptEv seg = true.
Proof.
  destruct seg as [|e rest]; [discriminate|].
  destruct e; try discriminate. simpl.
  apply forallb_weaken. intros e. destruct e; auto.
Qed.

Lemma segments_alphabet (segs : list (list Event)) :
  forallb attemptSegment segs = true →
  forallb isAttemptEv (concat segs) = true.
Proof.
  intros H. apply forallb_concat.
  induction segs as [|s segs IH]; [reflexivity|].
  simpl in *. apply andb_true_iff in H as [Hs Hr].
  rewrite (attemptSegment_alphabet s Hs), (IH Hr). reflexivity.
Qed.

Lemma pollLog_alphabet (R : RunEnv) (n a : nat) :
  forallb isD3kStartEv (pollLog R n a) = true.
Proof.
  assert (Hrep : ∀ m, forallb isD3kStartEv (concat (replicate m pollAndWait))
                      = true).
  { induction m as [|m IH]; [reflexivity|]. simpl. exact IH. }
  unfold pollLog. destruct (firstReadyFrom R n a).
  - rewrite forallb_app, Hrep. reflexivity.
  - apply Hrep.
Qed.

Lemma afterFirstAgent_none (l : list Event) :
  payloads l = [] → afterFirstAgent l = [].
Proof.
  induction l as [|e l IH]; [reflexivity|].
  destruct e; simpl; try exact IH. discriminate.
Qed.

Lemma afterFirstAgent_skip (l1 l2 : list Event) :
  payloads l1 = [] → afterFirstAgent (l1 ++ l2) = afterFirstAgent l2.
Proof.
  induction l1 as [|e l1 IH]; [reflexivity|].
  destruct e; simpl; try exact IH. discriminate.
Qed.

Lemma alphabet_payloads (p : Event → bool) (l : list Event) :
  (∀ q, p (EvClaude q) = false) → forallb p l = true → payloads l = [].
Proof.
  intros Hp. induction l as [|e l IH]; [reflexivity|].
  simpl. intros H. apply andb_true_iff in H as [He Hl].
  destruct e; simpl; auto. rewrite Hp in He. discriminate.
Qed.

Section Phases.

Variable E : Env.

Lemma mkdirSync_emits (dir : string) (w : World) :
  emits isStagingEv w (mkdirSync dir w).2.
Proof.
  unfold mkdirSync. destruct (files (fs w) !! dir); simpl.
  - apply emits_refl.
  - exists [EvMkdir dir]. auto.
Qed.

Lemma cpSync_emits (R : RunEnv) (src dst : string) (w : World) :
  emits isStagingEv w (cpSync R src dst w).2.
Proof.
  unfold cpSync. destruct (fixture R src); simpl; [|apply emits_refl].
  destruct (bool_decide _); simpl; [apply emits_refl|].
  exists [EvCopy src dst]. auto.
Qed.

Lemma mkdir_then_copy_emits (R : RunEnv) (there : bool) (dir src dst : string)
    (w : World) :
  emits isStagingEv w
    ((let* _ := when (negb there) (mkdirSync dir) in cpSync R src dst) w).2.
Proof.
  unfold bind, when. destruct there; simpl; [apply cpSync_emits|].
  pose proof (mkdirSync_emits dir w) as H1.
  destruct (mkdirSync dir w) as [[[]|err] w1]; simpl in *; [|exact H1].
  exact (emits_trans _ _ _ _ H1 (cpSync_emits R src dst w1)).
Qed.

Lemma forEach_emits {A} (p : Event → bool) (f : A → M World unit)
    (l : list A) :
  (∀ x w, emits p w (f x w).2) → ∀ w, emits p w (forEach l f w).2.
Proof.
  intros Hf. induction l as [|x l IH]; intros w; simpl; [apply emits_refl|].
  unfold bind. pose proof (Hf x w) as H1.
  destruct (f x w) as [[[]|err] w1]; simpl in *; [|exact H1].
  exact (emits_trans _ _ _ _ H1 (IH w1)).
Qed.

Lemma stage_stub_emits (R : RunEnv) (inputDir x : string) (w0 : World) :
  emits isStagingEv w0 (stageStubFile E R inputDir x w0).2.
Proof.
  unfold stageStubFile.
  destruct (includes _ _); [apply emits_refl|].
  unfold bind at 1. unfold exists_ at 1.
  destruct (existsSync _ _); simpl; [apply emits_refl|].
  unfold bind at 1. unfold exists_ at 1. apply mkdir_then_copy_emits.
Qed.

Lemma stage_emits (R : RunEnv) (evalName : string) (testFiles : list string)
    (w : World) :
  emits isStagingEv w (stage E R evalName testFiles w).2.
Proof.
  unfold stage.
  set (inputDir := path_join E [EVALS_CACHE E; "evals"; evalName; "input"]).
  assert (Ht : ∀ x w0, emits isStagingEv w0 (stageTestFile E R inputDir x w0).2).
  { intros x w0. unfold stageTestFile. unfold bind at 1. unfold exists_ at 1.
    apply mkdir_then_copy_emits. }
  assert (Hs : ∀ x w0, emits isStagingEv w0 (stageStubFile E R inputDir x w0).2).
  { intros x w0. unfold stageStubFile.
    destruct (includes _ _); [apply emits_refl|].
    unfold bind at 1. unfold exists_ at 1.
    destruct (existsSync _ _); simpl; [apply emits_refl|].
    unfold bind at 1. unfold exists_ at 1. apply mkdir_then_copy_emits. }
  unfold bind at 1.
  pose proof (forEach_emits _ _ testFiles Ht w) as H1.
  destruct (forEach testFiles _ w) as [[[]|err] w1]; simpl in *; [|exact H1].
  exact (emits_trans _ _ _ _ H1 (forEach_emits _ _ (stubFilesOf R) Hs w1)).
Qed.

Lemma teardown_log (w : World) :
  ∃ t, (let* _ := stopD3k in restore E) w =
         (Normal tt,
          {| fs := t; d3kProcess := None; nextPid := nextPid w;
             trace := trace w ++ stopLog (d3kProcess w) ++ restoreEvents |}).
Proof.
  unfold bind. destruct (d3kProcess w) as [pid|] eqn:D.
  - rewrite (stopD3k_running w pid D).
    match goal with |- context [restore E ?w1] =>
      destruct (restore_spec E w1) as [t Hr]; rewrite Hr end.
    exists t. simpl. rewrite <- app_assoc. reflexivity.
  - rewrite (stopD3k_idle w D).
    destruct (restore_spec E w) as [t Hr]; rewrite Hr.
    exists t. simpl. rewrite D. reflexivity.
Qed.

Variable R : RunEnv.
Variables evalName basePrompt : string.
Variable testFiles : list string.

(** The log of one attempt is the agent call followed by gate steps, and
    it has no step of the test runner when no test file was found. *)
Lemma attemptBody_segment (k : nat) (fb : string) (fr fr' : Frame)
    (c : Completion (Ctl * string)) (seg : list Event) :
  attemptBody E R evalName basePrompt testFiles k fb fr = (c, fr') →
  trace (world fr') = trace (world fr) ++ seg →
  attemptSegment seg = true ∧
  (testFiles = [] → countEv isTestRunnerEv seg = 0).
Proof.
  intros H Hseg. run_body H.
  all: simpl in Hseg; rewrite <- ?app_assoc in Hseg;
    apply app_inv_head in Hseg; subst seg.
  all: split; [reflexivity|]; intros Hnil; try reflexivity.
  all: subst testFiles; discriminate.
Qed.

Lemma firstShotAttempt_segment (prompt : string) (fr fr' : Frame)
    (c : Completion unit) (seg : list Event) :
  firstShotAttempt E R evalName prompt testFiles fr = (c, fr') →
  trace (world fr') = trace (world fr) ++ seg →
  attemptSegment seg = true ∧
  (testFiles = [] → countEv isTestRunnerEv seg = 0).
Proof.
  intros H Hseg. run_body H.
  all: simpl in Hseg; rewrite <- ?app_assoc in Hseg;
    apply app_inv_head in Hseg; subst seg.
  all: split; [reflexivity|]; intros Hnil; try reflexivity.
  all: subst testFiles; discriminate.
Qed.

Lemma Iterations_segments a fb fr segs c fr' :
  Iterations E R evalName basePrompt testFiles a fb fr segs c fr' →
  forallb attemptSegment segs = true ∧
  (testFiles = [] → countEv isTestRunnerEv (concat segs) = 0).
Proof.
  induction 1 as [a fb fr Ha
                 |a fb fr fb' fr1 seg Ha Hb T
                 |a fb fr err fr1 seg Ha Hb T
                 |a fb fr fb' fr1 seg segs c fr2 Ha Hb T HI IH].
  - auto.
  - destruct (attemptBody_segment _ _ _ _ _ _ Hb T) as [Hs Hn].
    simpl. rewrite Hs, app_nil_r. auto.
  - destruct (attemptBody_segment _ _ _ _ _ _ Hb T) as [Hs Hn].
    simpl. rewrite Hs, app_nil_r. auto.
  - destruct (attemptBody_segment _ _ _ _ _ _ Hb T) as [Hs Hn].
    destruct IH as [IH1 IH2]. simpl. rewrite Hs, IH1. split; [reflexivity|].
    intros Hnil. rewrite countEv_app, (Hn Hnil), (IH2 Hnil). reflexivity.
Qed.

End Phases.

Section Runs.

Variable E : Env.

(** The [try] block of [runEvalFull], phase by phase: staging, the start
    of d3k, the attempts. *)
Lemma fullTry_phases (R : RunEnv) (evalName basePrompt : string)
    (testFiles : list string) (fr fr' : Frame) (c : Completion unit) :
  fullTry E R evalName basePrompt testFiles fr = (c, fr') →
  attempts (result fr) = 0 →
  ∃ staged started segs,
    trace (world fr') = trace (world fr) ++ staged ++ started ++ concat segs ∧
    forallb isStagingEv staged = true ∧
    forallb attemptSegment segs = true ∧
    (testFiles = [] → countEv isTestRunnerEv (concat segs) = 0) ∧
    length segs = attempts (result fr') ∧
    ((started = [] ∧ segs = [] ∧
      d3kProcess (world fr') = d3kProcess (world fr) ∧
      (stage E R evalName testFiles (world fr)).1 ≠ Normal tt) ∨
     (∃ pid, started = EvClearLogs :: EvSpawnD3k pid :: pollLog R 30 0 ∧
             d3kProcess (world fr') = Some pid ∧
             (stage E R evalName testFiles (world fr)).1 = Normal tt ∧
             (firstReady R = None → segs = []))).
Proof.
  intros H Hz. revert H. unfold fullTry, bind, liftW.
  destruct (stage_emits E R evalName testFiles (world fr))
    as (e1 & T1 & F1 & D1).
  destruct (stage E R evalName testFiles (world fr)) as [[[]|err] w1];
    cbn [fst snd world result] in *.
  2:{ intros H; inversion H; subst; clear H. exists e1, [], [].
      cbn [world result concat]. rewrite !app_nil_r.
      split; [exact T1|]. split; [exact F1|]. split; [reflexivity|].
      split; [reflexivity|]. split; [symmetry; exact Hz|].
      left. split; [reflexivity|]. split; [reflexivity|].
      split; [exact D1|discriminate]. }
  destruct (startD3k_run E R w1) as (C2 & A2 & D2).
  assert (T2 : trace (startD3k E R w1).2 =
               trace w1 ++ EvClearLogs :: EvSpawnD3k (nextPid w1)
                           :: pollLog R 30 0).
  { unfold added in A2. rewrite <- A2.
    destruct (startD3k_spec E R w1) as (e2 & T2 & _).
    rewrite T2 at 1. rewrite T2, drop_app_length. reflexivity. }
  destruct (startD3k E R w1) as [[[]|err] w2]; cbn [fst snd world result] in *.
  2:{ intros H; inversion H; subst; clear H.
      exists e1, (EvClearLogs :: EvSpawnD3k (nextPid w1) :: pollLog R 30 0), [].
      cbn [world result concat]. rewrite T2, T1, !app_nil_r, <- app_assoc.
      split; [reflexivity|]. split; [exact F1|]. split; [reflexivity|].
      split; [reflexivity|]. split; [symmetry; exact Hz|].
      right. exists (nextPid w1). split; [reflexivity|].
      split; [exact D2|]. split; reflexivity. }
  set (fr1 := {| world := w2; result := result fr |}).
  destruct (retryLoop_iterations E R evalName basePrompt testFiles
              MAX_FULL_ATTEMPTS 1 "" fr1) as [segs HI];
    [unfold MAX_FULL_ATTEMPTS; lia|].
  intros H. rewrite H in HI. cbn [fst snd] in HI.
  destruct (Iterations_frame _ _ _ _ _ _ _ _ _ _ _ HI) as (T3 & D3 & _).
  destruct (Iterations_count _ _ _ _ _ _ _ _ _ _ _ HI) as (_ & _ & _ & Hne & He).
  destruct (Iterations_segments _ _ _ _ _ _ _ _ _ _ _ HI) as (Hs & Hn).
  exists e1, (EvClearLogs :: EvSpawnD3k (nextPid w1) :: pollLog R 30 0), segs.
  rewrite T3. subst fr1. cbn [world result] in *.
  rewrite T2, T1, <- !app_assoc, D3.
  split; [reflexivity|]. split; [exact F1|]. split; [exact Hs|].
  split; [exact Hn|]. split.
  - destruct segs as [|s segs'].
    + destruct (He eq_refl) as [-> _]. simpl. congruence.
    + assert (Hx : s :: segs' ≠ []) by discriminate.
      specialize (Hne Hx). lia.
  - right. exists (nextPid w1). split; [reflexivity|]. split; [exact D2|].
    split; [reflexivity|]. intros Hnone. rewrite Hnone in C2.
    rewrite bool_decide_eq_false_2 in C2 by (intros [x Hx]; discriminate).
    discriminate.
Qed.

(** The log of a run of [runEvalFull] that returns a record. *)
Lemma runEvalFull_trace (evalName : string) (debug : bool) (w w' : World)
    (r : EvalResult) :
  runEvalFull E evalName debug w = (Normal r, w') →
  ∃ staged started segs h,
    trace w' =
      trace w ++ EvGitStash :: staged ++ started ++ concat segs ++ stopLog h
                 ++ restoreEvents ∧
    forallb isStagingEv staged = true ∧
    forallb attemptSegment segs = true ∧
    (getEvalTestFiles E evalName = [] →
     countEv isTestRunnerEv (concat segs) = 0) ∧
    length segs = attempts r ∧
    d3kProcess w' = None ∧
    ((started = [] ∧ segs = [] ∧ h = d3kProcess w ∧
      (stage E (run E evalName) evalName (getEvalTestFiles E evalName)
         (shell E EvGitStash w).2).1 ≠ Normal tt) ∨
     (∃ pid, started = EvClearLogs :: EvSpawnD3k pid
                         :: pollLog (run E evalName) 30 0 ∧
             h = Some pid ∧
             (stage E (run E evalName) evalName (getEvalTestFiles E evalName)
                (shell E EvGitStash w).2).1 = Normal tt ∧
             (firstReady (run E evalName) = None → segs = []))).
Proof.
  unfold runEvalFull. unfold bind at 1.
  destruct (getEvalPrompt E evalName) as [base|err]; [|discriminate].
  unfold bind at 1. unfold shell at 1.
  set (w1 := {| fs := shellFs E EvGitStash (fs w); d3kProcess := d3kProcess w;
                nextPid := nextPid w; trace := trace w ++ [EvGitStash] |}).
  change (shell E EvGitStash w).2 with w1.
  unfold tryCatchFinally.
  pose proof (fullTry_phases (run E evalName) evalName base
                (getEvalTestFiles E evalName)
                {| world := w1; result := newResult evalName 0 Full |}) as Hph.
  destruct (fullTry E (run E evalName) evalName base
              (getEvalTestFiles E evalName)
              {| world := w1; result := newResult evalName 0 Full |})
    as [c fr].
  destruct (Hph fr c eq_refl eq_refl)
    as (staged & started & segs & T & F & S & N & L & Hcase).
  clear Hph. cbn [world result] in T, Hcase.
  destruct (teardown_log E (world fr)) as [t Ht].
  intros H.
  assert (Hw : w' = {| fs := t; d3kProcess := None; nextPid := nextPid (world fr);
                       trace := trace (world fr) ++ stopLog (d3kProcess (world fr))
                                  ++ restoreEvents |} ∧
               attempts r = attempts (result fr)).
  { destruct c as [[]|err]; unfold update, liftW in H; cbn [world result] in H;
      rewrite Ht in H; simpl in H; inversion H; subst; auto. }
  destruct Hw as [-> Hat]. clear H Ht.
  exists staged, started, segs, (d3kProcess (world fr)).
  split.
  { cbn [trace]. rewrite T. unfold w1.
    cbn [trace]. rewrite <- !app_assoc. reflexivity. }
  split; [exact F|]. split; [exact S|]. split; [exact N|].
  split; [congruence|]. split; [reflexivity|].
  destruct Hcase as [(-> & -> & D & Hs)|(pid & -> & D & Hs & Hr)].
  - left. cbn [world d3kProcess] in D.
    split; [reflexivity|]. split; [reflexivity|]. split; [exact D|exact Hs].
  - right. exists pid. split; [reflexivity|]. split; [exact D|].
    split; [exact Hs|exact Hr].
Qed.

Lemma runEvalFull_phases (evalName : string) (debug : bool) (w w' : World)
    (r : EvalResult) :
  runEvalFull E evalName debug w = (Normal r, w') →
  ∃ staged started segs h,
    added w w' =
      EvGitStash :: staged ++ started ++ concat segs ++ stopLog h
                 ++ restoreEvents ∧
    forallb isStagingEv staged = true ∧
    forallb attemptSegment segs = true ∧
    (getEvalTestFiles E evalName = [] →
     countEv isTestRunnerEv (concat segs) = 0) ∧
    length segs = attempts r ∧
    d3kProcess w' = None ∧
    ((started = [] ∧ segs = [] ∧ h = d3kProcess w ∧
      (stage E (run E evalName) evalName (getEvalTestFiles E evalName)
         (shell E EvGitStash w).2).1 ≠ Normal tt) ∨
     (∃ pid, started = EvClearLogs :: EvSpawnD3k pid
                         :: pollLog (run E evalName) 30 0 ∧
             h = Some pid ∧
             (stage E (run E evalName) evalName (getEvalTestFiles E evalName)
                (shell E EvGitStash w).2).1 = Normal tt ∧
             (firstReady (run E evalName) = None → segs = []))).
Proof.
  intros H.
  destruct (runEvalFull_trace _ _ _ _ _ H)
    as (staged & started & segs & h & T & Hrest).
  exists staged, started, segs, h.
  split; [exact (added_of_extension _ _ _ T)|exact Hrest].
Qed.

End Runs.

Lemma pollLog_polls (R : RunEnv) (n a : nat) :
  forallb isPollEv (pollLog R n a) = true.
Proof.
  assert (Hrep : ∀ m, forallb isPollEv (concat (replicate m pollAndWait))
                      = true).
  { induction m as [|m IH]; [reflexivity|]. simpl. exact IH. }
  unfold pollLog. destruct (firstReadyFrom R n a).
  - rewrite forallb_app, Hrep. reflexivity.
  - apply Hrep.
Qed.

Lemma alphabet_spawned (p : Event → bool) (l : list Event) :
  (∀ q, p (EvSpawnD3k q) = false) → forallb p l = true → spawned l = [].
Proof.
  intros Hp. induction l as [|e l IH]; [reflexivity|].
  simpl. intros H. apply andb_true_iff in H as [He Hl].
  destruct e; simpl; auto. rewrite Hp in He. discriminate.
Qed.

Lemma alphabet_killed (p : Event → bool) (l : list Event) :
  (∀ q, p (EvKill q) = false) → forallb p l = true → killed l = [].
Proof.
  intros Hp. induction l as [|e l IH]; [reflexivity|].
  simpl. intros H. apply andb_true_iff in H as [He Hl].
  destruct e; simpl; auto. rewrite Hp in He. discriminate.
Qed.

Lemma countEv_cons (p : Event → bool) (e : Event) (l : list Event) :
  countEv p (e :: l) = (if p e then 1 else 0) + countEv p l.
Proof. unfold countEv. simpl. destruct (p e); reflexivity. Qed.

Section SingleShotPhases.

Variable E : Env.

(** The log of a run of [runEval] that returns a record. *)
Lemma runEval_trace (evalName : string) (debug : bool) (w w' : World)
    (r : EvalResult) :
  runEval E evalName debug w = (Normal r, w') →
  ∃ staged seg,
    trace w' = trace w ++ EvGitStash :: staged ++ seg ++ restoreEvents ∧
    forallb isStagingEv staged = true ∧
    (getEvalTestFiles E evalName = [] → countEv isTestRunnerEv seg = 0) ∧
    d3kProcess w' = d3kProcess w ∧
    ((seg = [] ∧
      (stage E (run E evalName) evalName (getEvalTestFiles E evalName)
         (shell E EvGitStash w).2).1 ≠ Normal tt) ∨
     (attemptSegment seg = true ∧
      (stage E (run E evalName) evalName (getEvalTestFiles E evalName)
         (shell E EvGitStash w).2).1 = Normal tt)).
Proof.
  intros H.
  destruct (runEval_inv E _ _ _ _ _ H) as (base & c & fr & _ & Htry & T & D & _).
  revert Htry. unfold firstShotTry. unfold bind at 1. unfold liftW at 1.
  set (w1 := (shell E EvGitStash w).2).
  assert (Tw1 : trace w1 = trace w ++ [EvGitStash]) by reflexivity.
  assert (Dw1 : d3kProcess w1 = d3kProcess w) by reflexivity.
  cbn [world result].
  destruct (stage_emits E (run E evalName) evalName
              (getEvalTestFiles E evalName) w1) as (e1 & T1 & F1 & D1).
  destruct (stage E (run E evalName) evalName (getEvalTestFiles E evalName) w1)
    as [[[]|err] w2]; cbn [fst snd world result] in *.
  2:{ intros Hx; inversion Hx; subst; clear Hx. exists e1, [].
      cbn [world] in *.
      split. { rewrite T, T1, Tw1, <- !app_assoc.
               reflexivity. }
      split; [exact F1|]. split; [reflexivity|]. split; [congruence|].
      left. split; [reflexivity|discriminate]. }
  set (fr1 := {| world := w2; result := newResult evalName 1 FirstShot |}).
  intros Hatt.
  assert (∃ seg, trace (world fr) = trace (world fr1) ++ seg) as [seg Hseg].
  { revert Hatt. clear. intros H. run_body H.
    all: rewrite <- ?app_assoc; eexists; reflexivity. }
  destruct (firstShotAttempt_segment _ _ _ _ _ _ _ _ _ Hatt Hseg) as [Hs Hn].
  destruct (firstShotAttempt_spec _ _ _ _ _ _ _ _ _ Hatt Hseg)
    as (_ & _ & _ & D2 & _).
  exists e1, seg. subst fr1. cbn [world] in *.
  split. { rewrite T, Hseg, T1, Tw1, <- !app_assoc.
           reflexivity. }
  split; [exact F1|]. split; [exact Hn|]. split; [congruence|].
  right. split; [exact Hs|reflexivity].
Qed.

Lemma runEval_phases (evalName : string) (debug : bool) (w w' : World)
    (r : EvalResult) :
  runEval E evalName debug w = (Normal r, w') →
  ∃ staged seg,
    added w w' = EvGitStash :: staged ++ seg ++ restoreEvents ∧
    forallb isStagingEv staged = true ∧
    (getEvalTestFiles E evalName = [] → countEv isTestRunnerEv seg = 0) ∧
    d3kProcess w' = d3kProcess w ∧
    ((seg = [] ∧
      (stage E (run E evalName) evalName (getEvalTestFiles E evalName)
         (shell E EvGitStash w).2).1 ≠ Normal tt) ∨
     (attemptSegment seg = true ∧
      (stage E (run E evalName) evalName (getEvalTestFiles E evalName)
         (shell E EvGitStash w).2).1 = Normal tt)).
Proof.
  intros H.
  destruct (runEval_trace _ _ _ _ _ H) as (staged & seg & T & Hrest).
  exists staged, seg.
  split; [exact (added_of_extension _ _ _ T)|exact Hrest].
Qed.

End SingleShotPhases.

(** X8.  The log of a full-mode run that returns a record is, in this
    order: the stash, the staging of fixtures (directories made and files
    copied, nothing else), the start of d3k (logs cleared, the process
    spawned, the polls of [waitForServer]), one segment per attempt (the
    agent call followed by gate steps only), the stop of d3k, and the
    three restore commands.  When staging raised, d3k is not started and
    no attempt is made; when no poll finds the server ready, no attempt
    is made either.  The record counts the attempts that were made. *)
Theorem full_run_log_in_phase_order (E : Env) (evalName : string)
    (debug : bool) (w w' : World) (r : EvalResult) :
  runEvalFull E evalName debug w = (Normal r, w') →
  ∃ staged started segs h,
    added w w' =
      EvGitStash :: staged ++ started ++ concat segs ++ stopLog h
                 ++ restoreEvents ∧
    forallb isStagingEv staged = true ∧
    forallb attemptSegment segs = true ∧
    length segs = attempts r ∧
    ((started = [] ∧ segs = [] ∧ h = d3kProcess w ∧
      (stage E (run E evalName) evalName (getEvalTestFiles E evalName)
         (shell E EvGitStash w).2).1 ≠ Normal tt) ∨
     (∃ pid, started = EvClearLogs :: EvSpawnD3k pid
                         :: pollLog (run E evalName) 30 0 ∧
             h = Some pid ∧
             (stage E (run E evalName) evalName (getEvalTestFiles E evalName)
                (shell E EvGitStash w).2).1 = Normal tt ∧
             (firstReady (run E evalName) = None → segs = []))).
Proof.
  intros H.
  destruct (runEvalFull_phases E _ _ _ _ _ H)
    as (staged & started & segs & h & A & F & S & _ & L & _ & Hcase).
  exists staged, started, segs, h.
  exact (conj A (conj F (conj S (conj L Hcase)))).
Qed.

Lemma full_run_log_in_phase_order_witness :
  runEvalFull flakyEnv "001-first" false world0 =
    (Normal (resultOf flakyRun), flakyRun.2) ∧
  ∃ staged started segs h,
    added world0 flakyRun.2 =
      EvGitStash :: staged ++ started ++ concat segs ++ stopLog h
                 ++ restoreEvents ∧
    length segs = attempts (resultOf flakyRun).
Proof.
  assert (Hrun : runEvalFull flakyEnv "001-first" false world0 =
                   (Normal (resultOf flakyRun), flakyRun.2))
    by (vm_compute; reflexivity).
  split; [exact Hrun|].
  destruct (full_run_log_in_phase_order flakyEnv "001-first" false world0 _ _
              Hrun) as (staged & started & segs & h & A & _ & _ & L & _).
  exists staged, started, segs, h. exact (conj A L).
Defined.

(** X9.  The log of a single-shot run that returns a record is the stash,
    the staging of fixtures, at most one attempt segment, and the three
    restore commands; the segment is missing exactly when staging
    raised.  Such a run never spawns or kills a d3k process and leaves
    the handle as it found it. *)
Theorem single_shot_log_in_phase_order (E : Env) (evalName : string)
    (debug : bool) (w w' : World) (r : EvalResult) :
  runEval E evalName debug w = (Normal r, w') →
  (∃ staged seg,
     added w w' = EvGitStash :: staged ++ seg ++ restoreEvents ∧
     forallb isStagingEv staged = true ∧
     ((seg = [] ∧
       (stage E (run E evalName) evalName (getEvalTestFiles E evalName)
          (shell E EvGitStash w).2).1 ≠ Normal tt) ∨
      (attemptSegment seg = true ∧
       (stage E (run E evalName) evalName (getEvalTestFiles E evalName)
          (shell E EvGitStash w).2).1 = Normal tt))) ∧
  spawned (added w w') = [] ∧ killed (added w w') = [] ∧
  d3kProcess w' = d3kProcess w.
Proof.
  intros H.
  destruct (runEval_phases E _ _ _ _ _ H)
    as (staged & seg & A & F & _ & D & Hcase).
  assert (Hseg : forallb isAttemptEv seg = true).
  { destruct Hcase as [[-> _]|[Hs _]]; [reflexivity|].
    apply attemptSegment_alphabet. exact Hs. }
  split; [exists staged, seg; exact (conj A (conj F Hcase))|].
  rewrite A. change (EvGitStash :: staged ++ seg ++ restoreEvents)
    with ([EvGitStash] ++ staged ++ seg ++ restoreEvents).
  rewrite !spawned_app, !killed_app.
  rewrite (alphabet_spawned isStagingEv staged), (alphabet_killed isStagingEv staged),
    (alphabet_spawned isAttemptEv seg), (alphabet_killed isAttemptEv seg);
    try reflexivity; try assumption.
  split; [reflexivity|]. split; [reflexivity|exact D].
Qed.

Lemma single_shot_log_in_phase_order_witness :
  runEval sampleEnv "001-first" false world0 =
    (Normal (resultOf quietFirstShot), quietFirstShot.2) ∧
  spawned (added world0 quietFirstShot.2) = [] ∧
  killed (added world0 quietFirstShot.2) = [] ∧
  d3kProcess quietFirstShot.2 = d3kProcess world0.
Proof.
  assert (Hrun : runEval sampleEnv "001-first" false world0 =
                   (Normal (resultOf quietFirstShot), quietFirstShot.2))
    by (vm_compute; reflexivity).
  split; [exact Hrun|].
  exact (proj2 (single_shot_log_in_phase_order sampleEnv "001-first" false
                  world0 _ _ Hrun)).
Defined.

(** X10.  In either mode nothing is staged once the agent has been
    called: no directory is made and no fixture is copied after the first
    agent call of a run, so a fixture the agent changes or deletes is not
    put back before the gates run. *)
Theorem nothing_staged_after_first_agent_call (E : Env) (fullMode : bool)
    (evalName : string) (debug : bool) (w w' : World) (r : EvalResult) :
  (if fullMode then runEvalFull E evalName debug w
   else runEval E evalName debug w) = (Normal r, w') →
  countEv isStagingEv (afterFirstAgent (added w w')) = 0.
Proof.
  destruct fullMode; intros H.
  - destruct (runEvalFull_phases E _ _ _ _ _ H)
      as (staged & started & segs & h & A & F & S & _ & _ & _ & Hcase).
    assert (Hst : forallb isPollEv (drop 2 started) = true).
    { destruct Hcase as [(-> & _)|(pid & -> & _)]; [reflexivity|].
      apply pollLog_polls. }
    assert (Pst : payloads started = []).
    { destruct Hcase as [(-> & _)|(pid & -> & _)]; [reflexivity|].
      simpl. apply (alphabet_payloads isPollEv); [reflexivity|].
      apply pollLog_polls. }
    assert (Ph : payloads (stopLog h) = []) by (destruct h; reflexivity).
    assert (Ch : countEv isStagingEv (stopLog h) = 0)
      by (destruct h; reflexivity).
    rewrite A.
    change (EvGitStash :: staged ++ started ++ concat segs ++ stopLog h
              ++ restoreEvents)
      with ([EvGitStash] ++ staged ++ started ++ concat segs ++ stopLog h
              ++ restoreEvents).
    rewrite afterFirstAgent_skip by reflexivity.
    rewrite afterFirstAgent_skip
      by (apply (alphabet_payloads isStagingEv); [reflexivity|exact F]).
    rewrite afterFirstAgent_skip by exact Pst.
    destruct segs as [|s segs'].
    + rewrite afterFirstAgent_none; [reflexivity|].
      simpl. rewrite payloads_app, Ph. reflexivity.
    + simpl in S. apply andb_true_iff in S as [Hs Hr].
      destruct s as [|e rest]; [discriminate|].
      destruct e; try discriminate. simpl in Hs.
      cbn [concat]. rewrite <- !app_assoc. cbn [app afterFirstAgent].
      rewrite !countEv_app, Ch.
      rewrite (countEv_none isStagingEv isGateStepEv rest);
        [|intros e; destruct e; simpl; congruence|exact Hs].
      rewrite (countEv_none isStagingEv isAttemptEv (concat segs'));
        [reflexivity|intros e; destruct e; simpl; congruence|].
      apply segments_alphabet. exact Hr.
  - destruct (runEval_phases E _ _ _ _ _ H)
      as (staged & seg & A & F & _ & _ & Hcase).
    rewrite A.
    change (EvGitStash :: staged ++ seg ++ restoreEvents)
      with ([EvGitStash] ++ staged ++ seg ++ restoreEvents).
    rewrite afterFirstAgent_skip by reflexivity.
    rewrite afterFirstAgent_skip
      by (apply (alphabet_payloads isStagingEv); [reflexivity|exact F]).
    destruct Hcase as [[-> _]|[Hs _]]; [reflexivity|].
    destruct seg as [|e rest]; [discriminate|].
    destruct e; try discriminate. simpl in Hs.
    cbn [app afterFirstAgent]. rewrite countEv_app.
    rewrite (countEv_none isStagingEv isGateStepEv rest);
      [reflexivity|intros e; destruct e; simpl; congruence|exact Hs].
Qed.

Lemma nothing_staged_after_first_agent_call_witness :
  runEvalFull fixtureEnv "001-first" false world0 =
    (Normal (resultOf (runEvalFull fixtureEnv "001-first" false world0)),
     (runEvalFull fixtureEnv "001-first" false world0).2) ∧
  countEv isStagingEv
    (afterFirstAgent
       (added world0 (runEvalFull fixtureEnv "001-first" false world0).2)) = 0.
Proof.
  assert (Hrun : runEvalFull fixtureEnv "001-first" false world0 =
    (Normal (resultOf (runEvalFull fixtureEnv "001-first" false world0)),
     (runEvalFull fixtureEnv "001-first" false world0).2))
    by (vm_compute; reflexivity).
  split; [exact Hrun|].
  exact (nothing_staged_after_first_agent_call fixtureEnv true "001-first"
           false world0 _ _ Hrun).
Defined.

Section NoTests.

Variable E : Env.
Variable R : RunEnv.
Variables evalName basePrompt : string.

(** Without test files an attempt that reaches the test step records
    the tests as passed; it reaches that step when it breaks out of the
    loop and on the last attempt. *)
Lemma attemptBody_no_tests (k : nat) (fb fb' : string) (ctl : Ctl)
    (fr fr' : Frame) :
  attemptBody E R evalName basePrompt [] k fb fr = (Normal (ctl, fb'), fr') →
  ctl = Break ∨ ¬ k < MAX_FULL_ATTEMPTS →
  tests (result fr') = true.
Proof.
  intros H Hend. run_body H.
  all: try reflexivity.
  all: destruct Hend as [Hb|Hk]; [discriminate|].
  all: exfalso; apply Hk; apply Nat.ltb_lt; assumption.
Qed.

Lemma Iterations_no_tests a fb fr segs c fr' :
  Iterations E R evalName basePrompt [] a fb fr segs c fr' →
  segs ≠ [] → c = Normal tt → tests (result fr') = true.
Proof.
  induction 1 as [a fb fr Ha
                 |a fb fr fb' fr1 seg Ha Hb T
                 |a fb fr err fr1 seg Ha Hb T
                 |a fb fr fb' fr1 seg segs c fr2 Ha Hb T HI IH];
    intros Hne Hc; try congruence.
  - apply (attemptBody_no_tests _ _ _ _ _ _ Hb). left. reflexivity.
  - destruct segs as [|s segs'].
    + inversion HI; subst.
      apply (attemptBody_no_tests _ _ _ _ _ _ Hb). right. lia.
    + apply IH; [discriminate|exact Hc].
Qed.

Lemma firstShotAttempt_no_tests (prompt : string) (fr fr' : Frame) :
  firstShotAttempt E R evalName prompt [] fr = (Normal tt, fr') →
  tests (result fr') = true.
Proof. intros H. run_body H. all: reflexivity. Qed.

End NoTests.

(** X11.  When no test file is found for an evaluation, a run in either
    mode never installs or starts the test runner, and a record without
    error has [tests] set: the missing tests count as passed. *)
Theorem no_test_files_no_test_runner (E : Env) (fullMode : bool)
    (evalName : string) (debug : bool) (w w' : World) (r : EvalResult) :
  getEvalTestFiles E evalName = [] →
  (if fullMode then runEvalFull E evalName debug w
   else runEval E evalName debug w) = (Normal r, w') →
  countEv isTestRunnerEv (added w w') = 0 ∧
  (error r = None → tests r = true).
Proof.
  intros Hnil. destruct fullMode; intros H.
  - split.
    + destruct (runEvalFull_phases E _ _ _ _ _ H)
        as (staged & started & segs & h & A & F & S & N & _ & _ & Hcase).
      assert (Cst : countEv isTestRunnerEv started = 0).
      { destruct Hcase as [(-> & _)|(pid & -> & _)]; [reflexivity|].
        rewrite !countEv_cons. simpl.
        apply (countEv_none _ isPollEv); [|apply pollLog_polls].
        intros e; destruct e; simpl; congruence. }
      assert (Ch : countEv isTestRunnerEv (stopLog h) = 0)
        by (destruct h; reflexivity).
      rewrite A, countEv_cons, !countEv_app, Cst, (N Hnil), Ch. simpl.
      rewrite (countEv_none _ isStagingEv staged);
        [reflexivity|intros e; destruct e; simpl; congruence|exact F].
    + intros Herr.
      destruct (runEvalFull_anatomy E _ _ _ _ _ H)
        as (base & pre & segs & stop & c & fr & _ & _ & _ & _ & _ & _ & _ & _
            & _ & Hr & Hcase).
      assert (Hc : c = Normal tt).
      { destruct c as [[]|err]; [reflexivity|]. subst r. discriminate. }
      subst c.
      destruct Hcase as [(_ & _ & err & Hthrow)|(fr1 & Hr1 & HI)];
        [discriminate|].
      rewrite Hnil in HI.
      assert (Hsegs : segs ≠ []).
      { intros ->. inversion HI; subst; unfold MAX_FULL_ATTEMPTS in *; lia. }
      subst r. simpl.
      exact (Iterations_no_tests _ _ _ _ _ _ _ _ _ _ HI Hsegs eq_refl).
  - split.
    + destruct (runEval_phases E _ _ _ _ _ H)
        as (staged & seg & A & F & N & _ & _).
      rewrite A, countEv_cons, !countEv_app, (N Hnil). simpl.
      rewrite (countEv_none _ isStagingEv staged);
        [reflexivity|intros e; destruct e; simpl; congruence|exact F].
    + intros Herr.
      destruct (runEval_inv E _ _ _ _ _ H) as (base & c & fr & _ & Htry & _ & _ & Hr).
      assert (Hc : c = Normal tt).
      { destruct c as [[]|err]; [reflexivity|]. subst r. discriminate. }
      subst c. subst r. simpl.
      revert Htry. unfold firstShotTry. unfold bind at 1. unfold liftW at 1.
      rewrite Hnil.
      destruct (stage E (run E evalName) evalName [] _) as [[[]|err] w2];
        cbn [fst snd world result]; [|discriminate].
      apply firstShotAttempt_no_tests.
Qed.

Lemma no_test_files_no_test_runner_witness :
  getEvalTestFiles flakyEnv "001-first" = [] ∧
  runEvalFull flakyEnv "001-first" false world0 =
    (Normal (resultOf flakyRun), flakyRun.2) ∧
  countEv isTestRunnerEv (added world0 flakyRun.2) = 0 ∧
  tests (resultOf flakyRun) = true.
Proof.
  assert (Hnil : getEvalTestFiles flakyEnv "001-first" = [])
    by (vm_compute; reflexivity).
  assert (Hrun : runEvalFull flakyEnv "001-first" false world0 =
                   (Normal (resultOf flakyRun), flakyRun.2))
    by (vm_compute; reflexivity).
  assert (Herr : error (resultOf flakyRun) = None) by (vm_compute; reflexivity).
  destruct (no_test_files_no_test_runner flakyEnv true "001-first" false
              world0 _ _ Hnil Hrun) as [Hc Ht].
  exact (conj Hnil (conj Hrun (conj Hc (Ht Herr)))).
Defined.

(** X12.  A full-mode run whose staging completes spawns exactly one d3k
    process and kills exactly that one, whether or not the server became
    ready and however the attempts ended; a handle found at the start is
    overwritten and its process is not killed.  When staging raises, no
    process is spawned and the only process killed is the one whose
    handle the run found.  In both cases the handle is cleared at the
    end. *)
Theorem full_run_spawns_and_kills_one_d3k (E : Env) (evalName : string)
    (debug : bool) (w w' : World) (r : EvalResult) :
  runEvalFull E evalName debug w = (Normal r, w') →
  d3kProcess w' = None ∧
  ((stage E (run E evalName) evalName (getEvalTestFiles E evalName)
      (shell E EvGitStash w).2).1 = Normal tt →
   ∃ pid, spawned (added w w') = [pid] ∧ killed (added w w') = [pid]) ∧
  ((stage E (run E evalName) evalName (getEvalTestFiles E evalName)
      (shell E EvGitStash w).2).1 ≠ Normal tt →
   spawned (added w w') = [] ∧
   killed (added w w') = handleList (d3kProcess w)).
Proof.
  intros H.
  destruct (runEvalFull_phases E _ _ _ _ _ H)
    as (staged & started & segs & h & A & F & S & _ & _ & D & Hcase).
  pose proof (segments_alphabet _ S) as Hsegs.
  pose proof (alphabet_spawned isStagingEv staged (fun _ => eq_refl) F) as S1.
  pose proof (alphabet_killed isStagingEv staged (fun _ => eq_refl) F) as K1.
  pose proof (alphabet_spawned isAttemptEv _ (fun _ => eq_refl) Hsegs) as S3.
  pose proof (alphabet_killed isAttemptEv _ (fun _ => eq_refl) Hsegs) as K3.
  assert (A' : added w w' =
               [EvGitStash] ++ staged ++ started ++ concat segs ++ stopLog h
                 ++ restoreEvents) by exact A.
  rewrite A'. rewrite !spawned_app, !killed_app, S1, K1, S3, K3.
  split; [exact D|].
  destruct Hcase as [(-> & _ & -> & Hs)|(pid & -> & -> & Hs & _)].
  - split; [intros Hok; contradiction|]. intros _.
    destruct (d3kProcess w); split; reflexivity.
  - split; [|intros Hno; contradiction]. intros _. exists pid.
    pose proof (alphabet_spawned isPollEv _ (fun _ => eq_refl)
                  (pollLog_polls (run E evalName) 30 0)) as S2.
    pose proof (alphabet_killed isPollEv _ (fun _ => eq_refl)
                  (pollLog_polls (run E evalName) 30 0)) as K2.
    simpl. rewrite S2, K2. split; reflexivity.
Qed.

Lemma full_run_spawns_and_kills_one_d3k_witness :
  runEvalFull noServerEnv "001-first" false world0 =
    (Normal (resultOf noServerRun), noServerRun.2) ∧
  d3kProcess noServerRun.2 = None ∧
  ∃ pid, spawned (added world0 noServerRun.2) = [pid] ∧
         killed (added world0 noServerRun.2) = [pid].
Proof.
  assert (Hrun : runEvalFull noServerEnv "001-first" false world0 =
                   (Normal (resultOf noServerRun), noServerRun.2))
    by (vm_compute; reflexivity).
  assert (Hst : (stage noServerEnv (run noServerEnv "001-first") "001-first"
                   (getEvalTestFiles noServerEnv "001-first")
                   (shell noServerEnv EvGitStash world0).2).1 = Normal tt)
    by (vm_compute; reflexivity).
  destruct (full_run_spawns_and_kills_one_d3k noServerEnv "001-first" false
              world0 _ _ Hrun) as (D & Hok & _).
  exact (conj Hrun (conj D (Hok Hst))).
Defined.

(** X13.  A run that returns a record, in either mode, stashes the local
    changes exactly once, as its first command, and pops the stash
    exactly once, as its last command. *)
Theorem stash_first_and_pop_last_once_each (E : Env) (fullMode : bool)
    (evalName : string) (debug : bool) (w w' : World) (r : EvalResult) :
  (if fullMode then runEvalFull E evalName debug w
   else runEval E evalName debug w) = (Normal r, w') →
  head (added w w') = Some EvGitStash ∧
  last (added w w') = Some EvGitStashPop ∧
  countEv isStashEv (added w w') = 1 ∧
  countEv isStashPopEv (added w w') = 1.
Proof.
  assert (Hlast : ∀ l, last (l ++ restoreEvents) = Some EvGitStashPop).
  { intros l. unfold restoreEvents.
    change [EvGitCheckout; EvGitClean; EvGitStashPop]
      with ([EvGitCheckout; EvGitClean] ++ [EvGitStashPop]).
    rewrite app_assoc. apply last_snoc. }
  destruct fullMode; intros H.
  - destruct (runEvalFull_phases E _ _ _ _ _ H)
      as (staged & started & segs & h & A & F & S & _ & _ & _ & Hcase).
    pose proof (segments_alphabet _ S) as Hsegs.
    assert (Hst : forallb isD3kStartEv started = true).
    { destruct Hcase as [(-> & _)|(pid & -> & _)]; [reflexivity|].
      simpl. apply pollLog_alphabet. }
    assert (Hh : forallb isStopEv (stopLog h) = true)
      by (destruct h; reflexivity).
    rewrite A. split; [reflexivity|]. split.
    { change (EvGitStash :: staged ++ started ++ concat segs ++ stopLog h
                ++ restoreEvents)
        with ([EvGitStash] ++ staged ++ started ++ concat segs ++ stopLog h
                ++ restoreEvents).
      rewrite !app_assoc. apply Hlast. }
    rewrite !countEv_cons, !countEv_app. simpl.
    rewrite (countEv_none isStashEv isStagingEv staged),
      (countEv_none isStashPopEv isStagingEv staged),
      (countEv_none isStashEv isD3kStartEv started),
      (countEv_none isStashPopEv isD3kStartEv started),
      (countEv_none isStashEv isAttemptEv (concat segs)),
      (countEv_none isStashPopEv isAttemptEv (concat segs)),
      (countEv_none isStashEv isStopEv (stopLog h)),
      (countEv_none isStashPopEv isStopEv (stopLog h));
      try assumption; try (intros e; destruct e; simpl; congruence).
    split; reflexivity.
  - destruct (runEval_phases E _ _ _ _ _ H)
      as (staged & seg & A & F & _ & _ & Hcase).
    assert (Hseg : forallb isAttemptEv seg = true).
    { destruct Hcase as [[-> _]|[Hs _]]; [reflexivity|].
      apply attemptSegment_alphabet. exact Hs. }
    rewrite A. split; [reflexivity|]. split.
    { change (EvGitStash :: staged ++ seg ++ restoreEvents)
        with ([EvGitStash] ++ staged ++ seg ++ restoreEvents).
      rewrite !app_assoc. apply Hlast. }
    rewrite !countEv_cons, !countEv_app. simpl.
    rewrite (countEv_none isStashEv isStagingEv staged),
      (countEv_none isStashPopEv isStagingEv staged),
      (countEv_none isStashEv isAttemptEv seg),
      (countEv_none isStashPopEv isAttemptEv seg);
      try assumption; try (intros e; destruct e; simpl; congruence).
    split; reflexivity.
Qed.

Lemma stash_first_and_pop_last_once_each_witness :
  runEval brokenEnv "001-first" false world0 =
    (Normal (resultOf brokenFirstShot), brokenFirstShot.2) ∧
  head (added world0 brokenFirstShot.2) = Some EvGitStash ∧
  last (added world0 brokenFirstShot.2) = Some EvGitStashPop ∧
  countEv isStashEv (added world0 brokenFirstShot.2) = 1 ∧
  countEv isStashPopEv (added world0 brokenFirstShot.2) = 1.
Proof.
  assert (Hrun : runEval brokenEnv "001-first" false world0 =
                   (Normal (resultOf brokenFirstShot), brokenFirstShot.2))
    by (vm_compute; reflexivity).
  exact (conj Hrun
           (stash_first_and_pop_last_once_each brokenEnv false "001-first"
              false world0 _ _ Hrun)).
Defined.

(** ** Beyond the claims: batches and [main] *)

Lemma written_app (l1 l2 : list Event) :
  written (l1 ++ l2) = written l1 ++ written l2.
Proof.
  induction l1 as [|e l1 IH]; [reflexivity|].
  destruct e; simpl; rewrite ?IH; reflexivity.
Qed.

Lemma alphabet_written (p : Event → bool) (l : list Event) :
  (∀ a b, p (EvWriteFile a b) = false) → forallb p l = true → written l = [].
Proof.
  intros Hp. induction l as [|e l IH]; [reflexivity|].
  simpl. intros H. apply andb_true_iff in H as [He Hl].
  destruct e; simpl; auto. rewrite Hp in He. discriminate.
Qed.

Lemma segments_calls (segs : list (list Event)) :
  forallb attemptSegment segs = true →
  agentCalls (concat segs) = length segs.
Proof.
  unfold agentCalls. induction segs as [|s segs IH]; [reflexivity|].
  simpl. intros H. apply andb_true_iff in H as [Hs Hr].
  rewrite payloads_app, length_app, (IH Hr).
  destruct s as [|e rest]; [discriminate|]. destruct e; try discriminate.
  simpl in *.
  rewrite (alphabet_payloads isGateStepEv rest (fun _ => eq_refl) Hs).
  reflexivity.
Qed.

Lemma summary_document (results : list EvalResult) :
  stringify (VArr (map jsonResultOf results)) = JArr (map summaryEntry results).
Proof.
  simpl. f_equal. rewrite map_map. apply map_ext. intros r.
  unfold jsonResultOf, summaryEntry. simpl.
  destruct (millisOf (duration r)); destruct (error r); reflexivity.
Qed.

Section Batches.

Variable E : Env.

Lemma runEvalFull_attempts_bound (evalName : string) (debug : bool)
    (w w' : World) (r : EvalResult) :
  runEvalFull E evalName debug w = (Normal r, w') →
  attempts r ≤ MAX_FULL_ATTEMPTS.
Proof.
  intros H.
  destruct (runEvalFull_anatomy E _ _ _ _ _ H)
    as (base & pre & segs & stop & c & fr & _ & _ & _ & _ & _ & _ & _ & _
        & _ & Hr & Hcase).
  assert (Ha : attempts r = attempts (result fr))
    by (subst r; destruct c; reflexivity).
  rewrite Ha.
  destruct Hcase as [(_ & Hfr & _)|(fr1 & Hr1 & HI)].
  - rewrite Hfr. simpl. lia.
  - destruct (Iterations_count _ _ _ _ _ _ _ _ _ _ _ HI)
      as (_ & _ & Hle & Hne & Hnil).
    destruct segs as [|s segs'].
    { inversion HI; subst; unfold MAX_FULL_ATTEMPTS in *; lia. }
    assert (Hne' : s :: segs' ≠ []) by discriminate.
    specialize (Hne Hne').
    specialize (Hle ltac:(unfold MAX_FULL_ATTEMPTS; lia)).
    simpl in *. lia.
Qed.

(** A runner raises only when the prompt cannot be read, and then it has
    done nothing. *)
Lemma runner_raises (fullMode : bool) (evalName : string) (debug : bool)
    (w w' : World) (err : JsError) :
  (if fullMode then runEvalFull E evalName debug
   else runEval E evalName debug) w = (Throw err, w') →
  w' = w ∧ getEvalPrompt E evalName = Throw err.
Proof.
  destruct (getEvalPrompt E evalName) as [base|err'] eqn:Hp.
  - intros H. exfalso.
    destruct fullMode.
    + destruct (runEvalFull_total E evalName base debug w Hp)
        as (r & w1 & Hr & _). congruence.
    + destruct (runEval_total E evalName base debug w Hp)
        as (r & w1 & Hr & _). congruence.
  - destruct fullMode; unfold runEvalFull, runEval; unfold bind at 1;
      rewrite Hp; intros H; inversion H; auto.
Qed.

(** What one evaluation of a batch adds to the log. *)
Lemma runner_log (fullMode : bool) (evalName : string) (debug : bool)
    (w w' : World) (r : EvalResult) :
  (if fullMode then runEvalFull E evalName debug
   else runEval E evalName debug) w = (Normal r, w') →
  ∃ evs, trace w' = trace w ++ evs ∧ written evs = [] ∧
         agentCalls evs ≤ callBudget fullMode ∧
         (fullMode = true → agentCalls evs = attempts r).
Proof.
  destruct fullMode; intros H.
  - pose proof (runEvalFull_attempts_bound _ _ _ _ _ H) as Hb.
    destruct (runEvalFull_trace E _ _ _ _ _ H)
      as (staged & started & segs & h & T & F & S & _ & L & _ & Hcase).
    eexists. split; [exact T|].
    assert (Hst : forallb isD3kStartEv started = true).
    { destruct Hcase as [(-> & _)|(pid & -> & _)]; [reflexivity|].
      simpl. apply pollLog_alphabet. }
    assert (Hh : forallb isStopEv (stopLog h) = true)
      by (destruct h; reflexivity).
    pose proof (segments_alphabet _ S) as Hsegs.
    change (EvGitStash :: staged ++ started ++ concat segs ++ stopLog h
              ++ restoreEvents)
      with ([EvGitStash] ++ staged ++ started ++ concat segs ++ stopLog h
              ++ restoreEvents).
    unfold agentCalls.
    rewrite !written_app, !payloads_app.
    rewrite (alphabet_written isStagingEv staged (fun _ _ => eq_refl) F),
      (alphabet_written isD3kStartEv started (fun _ _ => eq_refl) Hst),
      (alphabet_written isAttemptEv _ (fun _ _ => eq_refl) Hsegs),
      (alphabet_written isStopEv _ (fun _ _ => eq_refl) Hh),
      (alphabet_payloads isStagingEv staged (fun _ => eq_refl) F),
      (alphabet_payloads isD3kStartEv started (fun _ => eq_refl) Hst),
      (alphabet_payloads isStopEv _ (fun _ => eq_refl) Hh).
    simpl. rewrite app_nil_r.
    pose proof (segments_calls _ S) as Hc. unfold agentCalls in Hc.
    rewrite Hc, L. unfold callBudget. auto.
  - destruct (runEval_trace E _ _ _ _ _ H)
      as (staged & seg & T & F & _ & _ & Hcase).
    eexists. split; [exact T|].
    change (EvGitStash :: staged ++ seg ++ restoreEvents)
      with ([EvGitStash] ++ staged ++ seg ++ restoreEvents).
    unfold agentCalls.
    rewrite !written_app, !payloads_app.
    rewrite (alphabet_written isStagingEv staged (fun _ _ => eq_refl) F),
      (alphabet_payloads isStagingEv staged (fun _ => eq_refl) F).
    simpl. rewrite app_nil_r.
    destruct Hcase as [[-> _]|[Hs _]].
    + simpl. unfold callBudget. split; [reflexivity|]. split; [lia|discriminate].
    + rewrite (alphabet_written isAttemptEv seg (fun _ _ => eq_refl)
                 (attemptSegment_alphabet _ Hs)).
      destruct seg as [|e rest]; [discriminate|].
      destruct e; try discriminate. simpl in *.
      rewrite (alphabet_payloads isGateStepEv rest (fun _ => eq_refl) Hs).
      unfold callBudget. simpl. split; [reflexivity|]. split; [lia|discriminate].
Qed.

(** What a batch adds to the log, however it ends. *)
Lemma runBatch_log (fullMode debug : bool) (names : list string) :
  ∀ acc w c w',
    runBatch E fullMode debug names acc w = (c, w') →
    ∃ evs, trace w' = trace w ++ evs ∧ written evs = [] ∧
           agentCalls evs ≤ callBudget fullMode * length names ∧
           match c with
           | Normal results =>
               fullMode = true →
               agentCalls evs + list_sum (map attempts acc) =
                 list_sum (map attempts results)
           | Throw err =>
               ∃ n, n ∈ names ∧ getEvalPrompt E n = Throw err
           end.
Proof.
  induction names as [|n names IH]; intros acc w c w'; simpl.
  { unfold ret. intros H. inversion H; subst. exists [].
    rewrite app_nil_r. unfold agentCalls. simpl.
    split; [reflexivity|]. split; [reflexivity|]. split; [lia|].
    intros _. reflexivity. }
  unfold bind.
  destruct ((if fullMode then runEvalFull E n debug else runEval E n debug) w)
    as [[r|err] w1] eqn:Hrun.
  - destruct (runner_log _ _ _ _ _ _ Hrun) as (e1 & T1 & W1 & B1 & A1).
    intros H. destruct (IH _ _ _ _ H) as (e2 & T2 & W2 & B2 & Hc).
    exists (e1 ++ e2). unfold agentCalls in *.
    rewrite T2, T1, <- app_assoc, written_app, W1, W2, payloads_app, length_app.
    split; [reflexivity|]. split; [reflexivity|]. split; [lia|].
    destruct c as [results|err].
    + intros Hf. specialize (Hc Hf). specialize (A1 Hf).
      rewrite map_app, list_sum_app in Hc. simpl in Hc. lia.
    + destruct Hc as (m & Hm & Hp). exists m. split; [set_solver|exact Hp].
  - intros H. inversion H; subst; clear H.
    destruct (runner_raises _ _ _ _ _ _ Hrun) as [-> Hp].
    exists []. rewrite app_nil_r. unfold agentCalls. simpl.
    split; [reflexivity|]. split; [reflexivity|]. split; [lia|].
    exists n. split; [set_solver|exact Hp].
Qed.

End Batches.

(** X14.  Across a batch the agent is called at most once per evaluation
    in single-shot mode and at most three times per evaluation in full
    mode, whether the batch completes or is cut short by an unreadable
    prompt; for a full-mode batch that completes, the calls made are
    exactly the sum of the [attempts] fields of its records. *)
Theorem batch_agent_calls_within_budget (E : Env) (fullMode debug : bool)
    (names : list string) (w w' : World) (c : Completion (list EvalResult)) :
  runBatch E fullMode debug names [] w = (c, w') →
  agentCalls (added w w') ≤ callBudget fullMode * length names ∧
  ∀ results, c = Normal results → fullMode = true →
             agentCalls (added w w') = list_sum (map attempts results).
Proof.
  intros H.
  destruct (runBatch_log E _ _ _ _ _ _ _ H) as (evs & T & _ & B & Hc).
  rewrite (added_of_extension _ _ _ T).
  split; [exact B|].
  intros results -> Hf. specialize (Hc Hf). simpl in Hc. lia.
Qed.

Lemma batch_agent_calls_within_budget_witness :
  agentCalls
    (added world0
       (runBatch flakyEnv true false ["001-first"; "002-second"] [] world0).2)
    ≤ callBudget true * 2 ∧
  agentCalls
    (added world0
       (runBatch flakyEnv true false ["001-first"; "002-second"] [] world0).2)
    = 4.
Proof.
  assert (Hrun : ∃ results,
            runBatch flakyEnv true false ["001-first"; "002-second"] [] world0 =
              (Normal results,
               (runBatch flakyEnv true false ["001-first"; "002-second"] []
                  world0).2) ∧
            list_sum (map attempts results) = 4).
  { eexists. split; vm_compute; reflexivity. }
  destruct Hrun as (results & Hrun & Hsum).
  destruct (batch_agent_calls_within_budget flakyEnv true false
              ["001-first"; "002-second"] world0 _ _ Hrun) as [Hb Heq].
  split; [exact Hb|].
  rewrite (Heq results eq_refl eq_refl). exact Hsum.
Defined.

Lemma indexOf_fresh (x : string) (pre rest : list string) :
  x ∉ pre → indexOf x (pre ++ x :: rest) = Some (length pre).
Proof.
  induction pre as [|y pre IH]; intros Hnot; simpl.
  - rewrite String.eqb_refl. reflexivity.
  - destruct (String.eqb_spec y x) as [->|Hne]; [set_solver|].
    rewrite IH by set_solver. reflexivity.
Qed.

Section Main.

Variable E : Env.

Lemma written_fetch : written [fetchEvent E] = [].
Proof. unfold fetchEvent. destruct (cacheExists E); reflexivity. Qed.

Lemma fetchEvals_log (w : World) :
  (fetchEvals E w).1 = gitFetch E ∧
  trace (fetchEvals E w).2 = trace w ++ [fetchEvent E] ∧
  d3kProcess (fetchEvals E w).2 = d3kProcess w.
Proof.
  unfold fetchEvals, fetchEvent, shellOut, bind, shell.
  destruct (cacheExists E); simpl; auto.
Qed.

(** [main], one step at a time: the fetch, then nothing, or the batch and
    the summary. *)
Lemma main_steps (args : list string) (w : World) :
  main E args w =
    match fetchEvals E w with
    | (Throw err, w1) => (Throw err, w1)
    | (Normal _, w1) =>
        if runsBatch args then
          match runBatch E (fullModeOf args) (debugOf args)
                  (evalsToRunOf E args) [] w1 with
          | (Throw err, w2) => (Throw err, w2)
          | (Normal results, w2) =>
              match outputFileOf args with
              | Some path =>
                  if truthy path then writeJsonResults results path w2
                  else (Normal tt, w2)
              | None => (Normal tt, w2)
              end
          end
        else (Normal tt, w1)
    end.
Proof.
  unfold main, runsBatch, fullModeOf, debugOf, evalsToRunOf, outputFileOf,
    runAllOf, bind, ret.
  destruct (fetchEvals E w) as [[[]|err] w1]; [|reflexivity].
  destruct (existsb (String.eqb "--all") args || truthyOpt (positional args));
    [|reflexivity].
  cbn [negb].
  destruct (runBatch E _ _ _ [] w1) as [[results|err] w2]; [|reflexivity].
  destruct (match indexOf "--output" args with
            | Some outputIdx => args !! (outputIdx + 1)
            | None => None
            end) as [path|]; [|reflexivity].
  destruct (truthy path); reflexivity.
Qed.

End Main.

(** X15.  The value that follows the first [--output] is the output file
    and is never taken for the name of the evaluation: the name is the
    first argument without the prefix [--] before that flag, and
    otherwise the one [main] finds after the value. *)
Theorem output_value_is_not_the_eval_name (pre post : list string)
    (path : string) :
  "--output" ∉ pre →
  outputFileOf (pre ++ "--output" :: path :: post) = Some path ∧
  positional (pre ++ "--output" :: path :: post) =
    match positional pre with
    | Some v => Some v
    | None => positional post
    end.
Proof.
  intros Hnot. split.
  - unfold outputFileOf. rewrite indexOf_fresh by exact Hnot.
    rewrite Nat.add_1_r.
    change (pre ++ "--output" :: path :: post)
      with (pre ++ ["--output"] ++ path :: post).
    rewrite app_assoc.
    replace (S (length pre)) with (length (pre ++ ["--output"]) + 0)
      by (rewrite length_app; simpl; lia).
    rewrite lookup_app_r by lia.
    replace (length (pre ++ ["--output"]) + 0 - length (pre ++ ["--output"]))
      with 0 by lia.
    reflexivity.
  - induction pre as [|a pre IH]; [reflexivity|].
    cbn [app positional].
    destruct (startsWith "--" a) eqn:Hflag; [|reflexivity].
    destruct (String.eqb_spec a "--output") as [->|Hne]; [set_solver|].
    apply IH. set_solver.
Qed.

Lemma output_value_is_not_the_eval_name_witness :
  outputFileOf (["--full"] ++ "--output" :: "out.json" :: ["003-add-route"]) =
    Some "out.json" ∧
  positional (["--full"] ++ "--output" :: "out.json" :: ["003-add-route"]) =
    Some "003-add-route".
Proof.
  assert (Hnot : "--output" ∉ ["--full"]).
  { intros Hin. apply list_elem_of_singleton in Hin. discriminate. }
  exact (output_value_is_not_the_eval_name ["--full"] ["003-add-route"]
           "out.json" Hnot).
Defined.

(** X16.  Without [--all] and without an evaluation name (one that is
    missing or empty), [main] refreshes the evals cache and does nothing
    else, whatever other flags are given: no evaluation is run and no
    summary is written.  It ends as the fetch ended. *)
Theorem main_without_target_only_fetches (E : Env) (args : list string)
    (w : World) :
  runAllOf args = false →
  truthyOpt (positional args) = false →
  (main E args w).1 = gitFetch E ∧
  added w (main E args w).2 = [fetchEvent E] ∧
  d3kProcess (main E args w).2 = d3kProcess w.
Proof.
  intros Hall Hname. rewrite main_steps.
  destruct (fetchEvals_log E w) as (C & T & D).
  unfold runsBatch. rewrite Hall, Hname. simpl.
  destruct (fetchEvals E w) as [[[]|err] w1]; cbn [fst snd] in *;
    (split; [exact C|]); (split; [exact (added_of_extension _ _ _ T)|exact D]).
Qed.

Lemma main_without_target_only_fetches_witness :
  runAllOf ["--full"; "--output"; "out.json"] = false ∧
  truthyOpt (positional ["--full"; "--output"; "out.json"]) = false ∧
  (main sampleEnv ["--full"; "--output"; "out.json"] world0).1 = Normal tt ∧
  added world0 (main sampleEnv ["--full"; "--output"; "out.json"] world0).2 =
    [EvGitPull].
Proof.
  assert (Hall : runAllOf ["--full"; "--output"; "out.json"] = false)
    by reflexivity.
  assert (Hname : truthyOpt (positional ["--full"; "--output"; "out.json"])
                  = false) by reflexivity.
  destruct (main_without_target_only_fetches sampleEnv
              ["--full"; "--output"; "out.json"] world0 Hall Hname)
    as (C & A & _).
  exact (conj Hall (conj Hname (conj C A))).
Defined.

(** X17.  [main] raises for two reasons only: the refresh of the evals
    cache failed, or the prompt of one of the evaluations to run could
    not be read.  In both cases no summary is written, also when
    [--output] was given and evaluations before the unreadable one have
    been run. *)
Theorem main_raises_only_on_fetch_or_prompt (E : Env) (args : list string)
    (w w' : World) (err : JsError) :
  main E args w = (Throw err, w') →
  written (added w w') = [] ∧
  (gitFetch E = Throw err ∨
   (gitFetch E = Normal tt ∧ runsBatch args = true ∧
    ∃ n, n ∈ evalsToRunOf E args ∧ getEvalPrompt E n = Throw err)).
Proof.
  rewrite main_steps.
  destruct (fetchEvals_log E w) as (C & T & _).
  destruct (fetchEvals E w) as [[[]|err1] w1]; cbn [fst snd] in *.
  2:{ intros H; inversion H; subst.
      rewrite (added_of_extension _ _ _ T). split; [apply written_fetch|].
      left. symmetry. exact C. }
  destruct (runsBatch args); [|discriminate].
  destruct (runBatch E (fullModeOf args) (debugOf args) (evalsToRunOf E args)
              [] w1) as [[results|err2] w2] eqn:Hb.
  - destruct (outputFileOf args) as [path|]; [|discriminate].
    destruct (truthy path); discriminate.
  - intros H; inversion H; subst.
    destruct (runBatch_log E _ _ _ _ _ _ _ Hb) as (evs & T2 & W2 & _ & Hn).
    rewrite T in T2. rewrite <- app_assoc in T2.
    rewrite (added_of_extension _ _ _ T2), written_app, W2, written_fetch.
    split; [reflexivity|]. right. split; [symmetry; exact C|].
    split; [reflexivity|exact Hn].
Qed.

Lemma main_raises_only_on_fetch_or_prompt_witness :
  main missingPromptEnv ["--all"; "--output"; "results.json"] world0 =
    (Throw "Eval 001-first not found",
     (main missingPromptEnv ["--all"; "--output"; "results.json"] world0).2) ∧
  written
    (added world0
       (main missingPromptEnv ["--all"; "--output"; "results.json"] world0).2)
    = [].
Proof.
  assert (Hrun :
    main missingPromptEnv ["--all"; "--output"; "results.json"] world0 =
      (Throw "Eval 001-first not found",
       (main missingPromptEnv ["--all"; "--output"; "results.json"] world0).2))
    by (vm_compute; reflexivity).
  exact (conj Hrun
           (proj1 (main_raises_only_on_fetch_or_prompt missingPromptEnv
                     ["--all"; "--output"; "results.json"] world0 _ _ Hrun))).
Defined.

(** X18.  When the refresh succeeds, a target is given and every prompt
    of the evaluations to run can be read, [main] returns normally with
    one record per evaluation, in order, and writes exactly one file when
    [--output] has a non-empty value: the summary of these records at
    that path, as its last action.  Without such a value it writes
    nothing. *)
Theorem main_writes_one_summary (E : Env) (args : list string) (w : World) :
  gitFetch E = Normal tt →
  runsBatch args = true →
  (∀ n, n ∈ evalsToRunOf E args → ∃ base, getEvalPrompt E n = Normal base) →
  ∃ results w1 w',
    runBatch E (fullModeOf args) (debugOf args) (evalsToRunOf E args) []
      (fetchEvals E w).2 = (Normal results, w1) ∧
    map name results = evalsToRunOf E args ∧
    main E args w = (Normal tt, w') ∧
    written (added w w') = summaryWritten args results ∧
    trace w' = trace w1 ++ map (λ f, EvWriteFile f.1 f.2)
                            (summaryWritten args results).
Proof.
  intros Hfetch Hgo Hall. rewrite main_steps.
  destruct (fetchEvals_log E w) as (C & T & _).
  destruct (fetchEvals E w) as [[[]|err1] w0]; cbn [fst snd] in *;
    [|congruence].
  rewrite Hgo.
  destruct (runBatch_total E (fullModeOf args) (debugOf args)
              (evalsToRunOf E args) Hall [] w0) as (results & w1 & Hb & Hn).
  rewrite Hb. simpl in Hn.
  destruct (runBatch_log E _ _ _ _ _ _ _ Hb) as (evs & T2 & W2 & _).
  rewrite T, <- app_assoc in T2.
  exists results, w1. unfold summaryWritten.
  destruct (outputFileOf args) as [path|].
  - destruct (truthy path).
    + unfold writeJsonResults, emit. rewrite summary_document.
      eexists. split; [reflexivity|]. split; [exact Hn|].
      split; [reflexivity|]. cbn [trace map fst snd]. split; [|reflexivity].
      rewrite (added_of_extension _ _
                 (([fetchEvent E] ++ evs) ++
                  [EvWriteFile path (JArr (map summaryEntry results))]))
        by (cbn [trace]; rewrite T2, <- !app_assoc; reflexivity).
      rewrite !written_app, W2, written_fetch. reflexivity.
    + exists w1. split; [reflexivity|]. split; [exact Hn|].
      split; [reflexivity|]. cbn [map]. rewrite app_nil_r.
      split; [|reflexivity].
      rewrite (added_of_extension _ _ _ T2), written_app, W2, written_fetch.
      reflexivity.
  - exists w1. split; [reflexivity|]. split; [exact Hn|].
    split; [reflexivity|]. cbn [map]. rewrite app_nil_r.
    split; [|reflexivity].
    rewrite (added_of_extension _ _ _ T2), written_app, W2, written_fetch.
    reflexivity.
Qed.

Lemma main_writes_one_summary_witness :
  ∃ results w',
    main sampleEnv ["--all"; "--output"; "results.json"] world0 =
      (Normal tt, w') ∧
    map name results = ["001-first"; "002-second"] ∧
    written (added world0 w') =
      [("results.json", JArr (map summaryEntry results))].
Proof.
  assert (Hfetch : gitFetch sampleEnv = Normal tt) by reflexivity.
  assert (Hgo : runsBatch ["--all"; "--output"; "results.json"] = true)
    by reflexivity.
  assert (Hall : ∀ n, n ∈ evalsToRunOf sampleEnv
                            ["--all"; "--output"; "results.json"] →
                      ∃ base, getEvalPrompt sampleEnv n = Normal base).
  { intros n _. exists "Add a route". vm_compute. reflexivity. }
  destruct (main_writes_one_summary sampleEnv
              ["--all"; "--output"; "results.json"] world0 Hfetch Hgo Hall)
    as (results & w1 & w' & _ & Hn & Hm & Hw & _).
  exists results, w'. exact (conj Hm (conj Hn Hw)).
Defined.


(** ** Beyond the claims: staged paths and the gates of the last attempt *)

Lemma replace_unfold (pat rep s : string) :
  replace pat rep s =
    if startsWith pat s then rep +:+ dropChars (String.length pat) s
    else match s with
         | "" => ""
         | String c rest => String c (replace pat rep rest)
         end.
Proof. destruct s; reflexivity. Qed.

Lemma dropChars_app (p s : string) : dropChars (String.length p) (p +:+ s) = s.
Proof.
  induction p as [|a p IH]; [destruct s; reflexivity|].
  rewrite str_app_cons. exact IH.
Qed.

Lemma replace_prefix (p rep s : string) : replace p rep (p +:+ s) = rep +:+ s.
Proof.
  rewrite replace_unfold, startsWith_app, dropChars_app. reflexivity.
Qed.

Lemma vitestArgs_app (l1 l2 : list Event) :
  vitestArgs (l1 ++ l2) = vitestArgs l1 ++ vitestArgs l2.
Proof.
  induction l1 as [|e l1 IH]; [reflexivity|].
  destruct e; simpl; rewrite ?IH; reflexivity.
Qed.

Lemma copies_app (l1 l2 : list Event) :
  copies (l1 ++ l2) = copies l1 ++ copies l2.
Proof.
  induction l1 as [|e l1 IH]; [reflexivity|].
  destruct e; simpl; rewrite ?IH; reflexivity.
Qed.

(** A log without a gate holds no start of the test runner. *)
Lemma no_gate_no_vitest (l : list Event) :
  gatesRun l = [] → vitestArgs l = [].
Proof.
  induction l as [|e l IH]; [reflexivity|].
  destruct e; simpl; try exact IH; discriminate.
Qed.

Section TestPaths.

Variable E : Env.
Variable R : RunEnv.
Variables evalName basePrompt : string.
Variable testFiles : list string.

Let testPaths : list string :=
  testPathsOf (path_join E [EVALS_CACHE E; "evals"; evalName; "input"])
    testFiles.

(** Every start of the test runner in an attempt is given the relative
    paths of the test files, and [tests] becomes true only through such
    a start when there are test files. *)
Lemma attemptBody_vitest (k : nat) (fb : string) (fr fr' : Frame)
    (c : Completion (Ctl * string)) (seg : list Event) :
  attemptBody E R evalName basePrompt testFiles k fb fr = (c, fr') →
  trace (world fr') = trace (world fr) ++ seg →
  Forall (eq testPaths) (vitestArgs seg) ∧
  (tests (result fr') = true → testFiles ≠ [] →
   tests (result fr) = true ∨ vitestArgs seg ≠ []).
Proof.
  intros H Hseg. unfold testPaths. run_body H.
  all: simpl in Hseg; rewrite <- ?app_assoc in Hseg;
    apply app_inv_head in Hseg; subst seg; simpl.
  all: split; [repeat constructor|].
  all: intros Ht Hne; try (left; exact Ht); try (right; discriminate).
  all: destruct testFiles; [congruence|discriminate].
Qed.

Lemma firstShotAttempt_vitest (prompt : string) (fr fr' : Frame)
    (c : Completion unit) (seg : list Event) :
  firstShotAttempt E R evalName prompt testFiles fr = (c, fr') →
  trace (world fr') = trace (world fr) ++ seg →
  Forall (eq testPaths) (vitestArgs seg) ∧
  (tests (result fr') = true → testFiles ≠ [] →
   tests (result fr) = true ∨ vitestArgs seg ≠ []).
Proof.
  intros H Hseg. unfold testPaths. run_body H.
  all: simpl in Hseg; rewrite <- ?app_assoc in Hseg;
    apply app_inv_head in Hseg; subst seg; simpl.
  all: split; [repeat constructor|].
  all: intros Ht Hne; try (left; exact Ht); try (right; discriminate).
  all: destruct testFiles; [congruence|discriminate].
Qed.

Lemma Iterations_vitest a fb fr segs c fr' :
  Iterations E R evalName basePrompt testFiles a fb fr segs c fr' →
  Forall (eq testPaths) (vitestArgs (concat segs)) ∧
  (tests (result fr') = true → testFiles ≠ [] →
   tests (result fr) = true ∨ vitestArgs (concat segs) ≠ []).
Proof.
  induction 1 as [a fb fr Ha
                 |a fb fr fb' fr1 seg Ha Hb T
                 |a fb fr err fr1 seg Ha Hb T
                 |a fb fr fb' fr1 seg segs c fr2 Ha Hb T HI IH]; simpl.
  - split; [constructor|]. auto.
  - rewrite app_nil_r. exact (attemptBody_vitest _ _ _ _ _ _ Hb T).
  - rewrite app_nil_r. exact (attemptBody_vitest _ _ _ _ _ _ Hb T).
  - destruct (attemptBody_vitest _ _ _ _ _ _ Hb T) as [F1 V1].
    destruct IH as [F2 V2]. rewrite vitestArgs_app. split.
    + apply Forall_app. auto.
    + intros Ht Hne. destruct (V2 Ht Hne) as [Ht1|Hv].
      * destruct (V1 Ht1 Hne) as [Ht0|Hv]; [left; exact Ht0|].
        right. destruct (vitestArgs seg); [congruence|discriminate].
      * right. destruct (vitestArgs seg); [exact Hv|discriminate].
Qed.

End TestPaths.

Section StagedCopies.

Variable E : Env.
Variable R : RunEnv.

Lemma mkdir_then_copy_logged (there : bool) (dir src dst : string)
    (w w1 : World) :
  (let* _ := when (negb there) (mkdirSync dir) in cpSync R src dst) w
    = (Normal tt, w1) →
  ∃ evs, trace w1 = trace w ++ evs ∧ (src, dst) ∈ copies evs.
Proof.
  assert (Hcp : ∀ w0 w2, cpSync R src dst w0 = (Normal tt, w2) →
                         trace w2 = trace w0 ++ [EvCopy src dst]).
  { intros w0 w2. unfold cpSync.
    destruct (fixture R src); [|discriminate].
    destruct (bool_decide _); [discriminate|].
    intros H. inversion H. reflexivity. }
  unfold bind, when. destruct there; simpl.
  - intros H. exists [EvCopy src dst]. split; [exact (Hcp _ _ H)|].
    simpl. set_solver.
  - unfold mkdirSync. destruct (files (fs w) !! dir); [discriminate|].
    intros H. exists [EvMkdir dir; EvCopy src dst].
    rewrite (Hcp _ _ H). cbn [trace]. rewrite <- app_assoc.
    split; [reflexivity|]. simpl. set_solver.
Qed.

Lemma stageTestFile_logged (inputDir testFile : string) (w w1 : World) :
  stageTestFile E R inputDir testFile w = (Normal tt, w1) →
  ∃ evs, trace w1 = trace w ++ evs ∧
         (testFile,
          path_join E [PROJECT_ROOT E; replace (inputDir +:+ "/") "" testFile])
           ∈ copies evs.
Proof.
  unfold stageTestFile. unfold bind at 1. unfold exists_ at 1.
  apply mkdir_then_copy_logged.
Qed.

Lemma stageTestFiles_logged (inputDir : string) (testFiles : list string) :
  ∀ w w1,
    forEach testFiles (stageTestFile E R inputDir) w = (Normal tt, w1) →
    ∃ evs, trace w1 = trace w ++ evs ∧
           ∀ testFile, testFile ∈ testFiles →
             (testFile,
              path_join E [PROJECT_ROOT E;
                           replace (inputDir +:+ "/") "" testFile])
               ∈ copies evs.
Proof.
  induction testFiles as [|tf rest IH]; intros w w1; simpl.
  { unfold ret. intros H. inversion H; subst. exists [].
    rewrite app_nil_r. split; [reflexivity|]. intros t Ht. inversion Ht. }
  unfold bind.
  destruct (stageTestFile E R inputDir tf w) as [[[]|err] w0] eqn:H0;
    [|discriminate].
  destruct (stageTestFile_logged _ _ _ _ H0) as (e1 & T1 & C1).
  intros H. destruct (IH _ _ H) as (e2 & T2 & C2).
  exists (e1 ++ e2). rewrite T2, T1, <- app_assoc. split; [reflexivity|].
  intros t Ht. rewrite copies_app. apply elem_of_app.
  apply elem_of_cons in Ht as [->|Ht]; [left; exact C1|right; exact (C2 t Ht)].
Qed.

(** When staging completes, every test file has been copied to its
    relative path under the project root. *)
Lemma stage_logged (evalName : string) (testFiles : list string) (w : World) :
  (stage E R evalName testFiles w).1 = Normal tt →
  ∃ evs,
    trace (stage E R evalName testFiles w).2 = trace w ++ evs ∧
    ∀ testFile, testFile ∈ testFiles →
      (testFile,
       path_join E
         [PROJECT_ROOT E;
          replace (path_join E [EVALS_CACHE E; "evals"; evalName; "input"]
                   +:+ "/") "" testFile])
        ∈ copies evs.
Proof.
  unfold stage.
  set (inputDir := path_join E [EVALS_CACHE E; "evals"; evalName; "input"]).
  unfold bind at 1 2.
  destruct (forEach testFiles (stageTestFile E R inputDir) w)
    as [[[]|err] w1] eqn:H1; [|discriminate].
  destruct (stageTestFiles_logged _ _ _ _ H1) as (e1 & T1 & C1).
  intros _.
  match goal with |- context [forEach (stubFilesOf R) ?f w1] =>
    destruct (forEach_emits isStagingEv f (stubFilesOf R)
                (λ x w0, stage_stub_emits E R inputDir x w0) w1)
      as (e2 & T2 & _) end.
  exists (e1 ++ e2). rewrite T2, T1, <- app_assoc. split; [reflexivity|].
  intros t Ht. rewrite copies_app. apply elem_of_app. left. exact (C1 t Ht).
Qed.

End StagedCopies.

Section AfterStage.

Variable E : Env.

(** The log of a run starts with the stash and the log of staging. *)
Lemma runner_after_stage (fullMode : bool) (evalName : string) (debug : bool)
    (w w' : World) (r : EvalResult) :
  (if fullMode then runEvalFull E evalName debug
   else runEval E evalName debug) w = (Normal r, w') →
  ∀ evs,
    trace (stage E (run E evalName) evalName (getEvalTestFiles E evalName)
             (shell E EvGitStash w).2).2
      = trace (shell E EvGitStash w).2 ++ evs →
    ∃ rest, added w w' = EvGitStash :: evs ++ rest.
Proof.
  intros H evs Hevs. cbn [shell snd trace] in Hevs.
  destruct fullMode.
  - destruct (runEvalFull_inv E _ _ _ _ _ H)
      as (base & c & fr & stop & _ & Htry & T & _).
    revert Htry. unfold fullTry, bind, liftW. cbn [world result].
    destruct (stage E (run E evalName) evalName _ _) as [[[]|err] w1];
      cbn [fst snd world result] in *.
    2:{ intros Hx; inversion Hx; subst. cbn [world] in T.
        exists (stop ++ restoreEvents). apply added_of_extension.
        rewrite T, Hevs, <- !app_assoc. reflexivity. }
    destruct (startD3k_spec E (run E evalName) w1) as (e2 & T2 & _).
    destruct (startD3k E (run E evalName) w1) as [[[]|err] w2];
      cbn [fst snd world result] in *.
    2:{ intros Hx; inversion Hx; subst. cbn [world] in T.
        eexists. apply added_of_extension.
        rewrite T, T2, Hevs, <- !app_assoc. reflexivity. }
    intros Hloop.
    destruct (retryLoop_iterations E (run E evalName) evalName base
                (getEvalTestFiles E evalName) MAX_FULL_ATTEMPTS 1 ""
                {| world := w2; result := newResult evalName 0 Full |})
      as [segs HI]; [unfold MAX_FULL_ATTEMPTS; lia|].
    rewrite Hloop in HI. cbn [fst snd] in HI.
    destruct (Iterations_frame _ _ _ _ _ _ _ _ _ _ _ HI) as (T3 & _).
    cbn [world] in T3. eexists. apply added_of_extension.
    rewrite T, T3, T2, Hevs, <- !app_assoc. reflexivity.
  - destruct (runEval_inv E _ _ _ _ _ H) as (base & c & fr & _ & Htry & T & _).
    revert Htry. unfold firstShotTry. unfold bind at 1. unfold liftW at 1.
    cbn [world result].
    destruct (stage E (run E evalName) evalName _ _) as [[[]|err] w1];
      cbn [fst snd] in *.
    2:{ intros Hx; inversion Hx; subst. cbn [world] in T.
        exists restoreEvents. apply added_of_extension.
        rewrite T, Hevs, <- !app_assoc. reflexivity. }
    intros Hatt.
    assert (∃ seg, trace (world fr) = trace w1 ++ seg) as [seg Hseg].
    { revert Hatt. clear. intros H. run_body H.
      all: rewrite <- ?app_assoc; eexists; reflexivity. }
    eexists. apply added_of_extension.
    rewrite T, Hseg, Hevs, <- !app_assoc. reflexivity.
Qed.

(** The starts of the test runner in a run, and what a passing record
    says about them. *)
Lemma runner_vitest (fullMode : bool) (evalName : string) (debug : bool)
    (w w' : World) (r : EvalResult) :
  (if fullMode then runEvalFull E evalName debug
   else runEval E evalName debug) w = (Normal r, w') →
  Forall (eq (testPathsOf
                (path_join E [EVALS_CACHE E; "evals"; evalName; "input"])
                (getEvalTestFiles E evalName)))
         (vitestArgs (added w w')) ∧
  (tests r = true → getEvalTestFiles E evalName ≠ [] →
   vitestArgs (added w w') ≠ []).
Proof.
  destruct fullMode; intros H.
  - destruct (runEvalFull_anatomy E _ _ _ _ _ H)
      as (base & pre & segs & stop & c & fr & _ & _ & Hadd & _ & Gp & _ & Gs & _
          & _ & Hr & Hcase).
    assert (Hv : vitestArgs (added w w') = vitestArgs (concat segs)).
    { rewrite Hadd. change (EvGitStash :: pre) with ([EvGitStash] ++ pre).
      rewrite !vitestArgs_app, (no_gate_no_vitest pre Gp),
        (no_gate_no_vitest stop Gs). simpl. rewrite app_nil_r. reflexivity. }
    rewrite Hv.
    assert (Ht : tests r = tests (result fr))
      by (subst r; destruct c; reflexivity).
    destruct Hcase as [(-> & Hfr & _)|(fr1 & Hr1 & HI)].
    + split; [constructor|]. rewrite Ht, Hfr. discriminate.
    + destruct (Iterations_vitest _ _ _ _ _ _ _ _ _ _ _ HI) as [F V].
      split; [exact F|]. intros Htrue Hne. rewrite Ht in Htrue.
      destruct (V Htrue Hne) as [H0|Hx]; [|exact Hx].
      rewrite Hr1 in H0. discriminate.
  - destruct (runEval_inv E _ _ _ _ _ H) as (base & c & fr & _ & Htry & T & _ & Hr).
    assert (Ht : tests r = tests (result fr))
      by (subst r; destruct c; reflexivity).
    rewrite Ht. clear Hr Ht.
    revert Htry. unfold firstShotTry. unfold bind at 1. unfold liftW at 1.
    cbn [world result].
    destruct (stage_quiet E (run E evalName) evalName
                (getEvalTestFiles E evalName) (shell E EvGitStash w).2)
      as (e1 & T1 & _ & G1 & _).
    cbn [shell snd trace] in T1.
    destruct (stage E (run E evalName) evalName _ _) as [[[]|err] w1];
      cbn [fst snd] in *.
    2:{ intros Hx; inversion Hx; subst. cbn [world result] in *.
        rewrite (added_of_extension w w' ([EvGitStash] ++ e1 ++ restoreEvents))
          by (rewrite T, T1, <- !app_assoc; reflexivity).
        rewrite !vitestArgs_app, (no_gate_no_vitest e1 G1). simpl.
        split; [constructor|discriminate]. }
    intros Hatt.
    assert (∃ seg, trace (world fr) = trace w1 ++ seg) as [seg Hseg].
    { revert Hatt. clear. intros H. run_body H.
      all: rewrite <- ?app_assoc; eexists; reflexivity. }
    destruct (firstShotAttempt_vitest _ _ _ _ _ _ _ _ _ Hatt Hseg) as [F V].
    cbn [world result newResult tests] in V.
    rewrite (added_of_extension w w'
               ([EvGitStash] ++ e1 ++ seg ++ restoreEvents))
      by (rewrite T, Hseg, T1, <- !app_assoc; reflexivity).
    rewrite !vitestArgs_app, (no_gate_no_vitest e1 G1). simpl.
    rewrite app_nil_r. split; [exact F|].
    intros Htrue Hne. destruct (V Htrue Hne) as [H0|Hx];
      [discriminate|exact Hx].
Qed.

End AfterStage.

(** X19.  In a run of either runner for an evaluation whose test files
    lie under its input directory, every start of the test runner is
    given the paths of the test files relative to that directory; the
    runner cannot record passing tests without such a start; and when
    staging completes, each test file has been copied, before anything
    else is run, to that same relative path under the project root, in
    which the test runner is started. *)
Theorem test_runner_gets_the_staged_paths (E : Env) (fullMode : bool)
    (evalName : string) (debug : bool) (w w' : World) (r : EvalResult)
    (rels : list string) :
  getEvalTestFiles E evalName =
    map (λ rel, path_join E [EVALS_CACHE E; "evals"; evalName; "input"]
                +:+ "/" +:+ rel) rels →
  (if fullMode then runEvalFull E evalName debug
   else runEval E evalName debug) w = (Normal r, w') →
  (∀ paths, paths ∈ vitestArgs (added w w') → paths = rels) ∧
  (rels ≠ [] → tests r = true → vitestArgs (added w w') ≠ []) ∧
  ((stage E (run E evalName) evalName (getEvalTestFiles E evalName)
      (shell E EvGitStash w).2).1 = Normal tt →
   ∃ staged rest,
     added w w' = EvGitStash :: staged ++ rest ∧
     forallb isStagingEv staged = true ∧
     ∀ rel, rel ∈ rels →
       (path_join E [EVALS_CACHE E; "evals"; evalName; "input"]
          +:+ "/" +:+ rel,
        path_join E [PROJECT_ROOT E; rel]) ∈ copies staged).
Proof.
  set (inputDir := path_join E [EVALS_CACHE E; "evals"; evalName; "input"]).
  intros Hfiles H.
  assert (Hrel : ∀ rel, replace (inputDir +:+ "/") "" (inputDir +:+ "/" +:+ rel)
                        = rel).
  { intros rel. rewrite <- str_app_assoc. apply replace_prefix. }
  assert (Hpaths : testPathsOf inputDir (getEvalTestFiles E evalName) = rels).
  { rewrite Hfiles. unfold testPathsOf. rewrite map_map.
    clear. induction rels as [|rel rels IH]; [reflexivity|].
    simpl. rewrite IH. f_equal. rewrite <- str_app_assoc. apply replace_prefix. }
  destruct (runner_vitest E _ _ _ _ _ _ H) as [F V].
  fold inputDir in F. rewrite Hpaths in F.
  split; [|split].
  - intros paths Hin. rewrite Forall_forall in F. symmetry. exact (F paths Hin).
  - intros Hne Ht. apply V; [exact Ht|].
    rewrite Hfiles. destruct rels; [congruence|discriminate].
  - intros Hok.
    destruct (stage_logged E _ _ _ _ Hok) as (staged & T & C).
    destruct (stage_emits E (run E evalName) evalName
                (getEvalTestFiles E evalName) (shell E EvGitStash w).2)
      as (staged' & T' & Fs & _).
    assert (staged' = staged) by (rewrite T in T'; exact (app_inv_head _ _ _ (eq_sym T'))).
    subst staged'.
    destruct (runner_after_stage E _ _ _ _ _ _ H staged T) as [rest Hadd].
    exists staged, rest. split; [exact Hadd|]. split; [exact Fs|].
    intros rel Hin. fold inputDir in C.
    specialize (C (inputDir +:+ "/" +:+ rel)). rewrite Hrel in C.
    apply C. rewrite Hfiles. apply list_elem_of_fmap. exists rel. auto.
Qed.

Lemma test_runner_gets_the_staged_paths_witness :
  getEvalTestFiles fixtureEnv "001-first" =
    map (λ rel, path_join fixtureEnv
                  [EVALS_CACHE fixtureEnv; "evals"; "001-first"; "input"]
                +:+ "/" +:+ rel) ["app/page.test.tsx"] ∧
  runEvalFull fixtureEnv "001-first" false world0 =
    (Normal (resultOf (runEvalFull fixtureEnv "001-first" false world0)),
     (runEvalFull fixtureEnv "001-first" false world0).2) ∧
  vitestArgs (added world0 (runEvalFull fixtureEnv "001-first" false world0).2)
    = [["app/page.test.tsx"]] ∧
  ∃ staged rest,
    added world0 (runEvalFull fixtureEnv "001-first" false world0).2 =
      EvGitStash :: staged ++ rest ∧
    ("/repo/scripts/../.evals-cache/evals/001-first/input/app/page.test.tsx",
     "/repo/scripts/../app/page.test.tsx") ∈ copies staged.
Proof.
  assert (Hfiles : getEvalTestFiles fixtureEnv "001-first" =
    map (λ rel, path_join fixtureEnv
                  [EVALS_CACHE fixtureEnv; "evals"; "001-first"; "input"]
                +:+ "/" +:+ rel) ["app/page.test.tsx"])
    by (vm_compute; reflexivity).
  assert (Hrun : runEvalFull fixtureEnv "001-first" false world0 =
    (Normal (resultOf (runEvalFull fixtureEnv "001-first" false world0)),
     (runEvalFull fixtureEnv "001-first" false world0).2))
    by (vm_compute; reflexivity).
  assert (Hok : (stage fixtureEnv (run fixtureEnv "001-first") "001-first"
                   (getEvalTestFiles fixtureEnv "001-first")
                   (shell fixtureEnv EvGitStash world0).2).1 = Normal tt)
    by (vm_compute; reflexivity).
  assert (Hv : vitestArgs
                 (added world0
                    (runEvalFull fixtureEnv "001-first" false world0).2)
               = [["app/page.test.tsx"]]) by (vm_compute; reflexivity).
  destruct (test_runner_gets_the_staged_paths fixtureEnv true "001-first" false
              world0 _ _ ["app/page.test.tsx"] Hfiles Hrun) as (_ & _ & Hst).
  destruct (Hst Hok) as (staged & rest & Hadd & _ & Hc).
  split; [exact Hfiles|]. split; [exact Hrun|]. split; [exact Hv|].
  exists staged, rest. split; [exact Hadd|].
  apply (Hc "app/page.test.tsx"). apply list_elem_of_singleton. reflexivity.
Defined.

Section LastAttempt.

Variable E : Env.
Variable R : RunEnv.
Variables evalName basePrompt : string.
Variable testFiles : list string.

(** An attempt that ends the loop (it breaks out, or it is the last
    one) has run every gate, and the frame holds their results. *)
Lemma attemptBody_last (k : nat) (fb fb' : string) (ctl : Ctl)
    (fr fr' : Frame) :
  attemptBody E R evalName basePrompt testFiles k fb fr
    = (Normal (ctl, fb'), fr') →
  ctl = Break ∨ ¬ k < MAX_FULL_ATTEMPTS →
  attempts (result fr') = k ∧
  build (result fr') = exitOk (bunRunBuild R k) ∧
  lint (result fr') = exitOk (ultraciteCheck R k) ∧
  tests (result fr') =
    (if 0 <? length testFiles then exitOk (vitestRun R k) else true).
Proof.
  intros H Hend. run_body H.
  all: use_cases; unfold exitOk; use_cases.
  all: try (repeat split; reflexivity).
  all: destruct Hend as [Hb|Hk]; try discriminate.
  all: try (exfalso; apply Hk; apply Nat.ltb_lt; assumption).
Qed.

Lemma Iterations_last a fb fr segs c fr' :
  Iterations E R evalName basePrompt testFiles a fb fr segs c fr' →
  segs ≠ [] → c = Normal tt →
  build (result fr') = exitOk (bunRunBuild R (attempts (result fr'))) ∧
  lint (result fr') = exitOk (ultraciteCheck R (attempts (result fr'))) ∧
  tests (result fr') =
    (if 0 <? length testFiles
     then exitOk (vitestRun R (attempts (result fr'))) else true).
Proof.
  induction 1 as [a fb fr Ha
                 |a fb fr fb' fr1 seg Ha Hb T
                 |a fb fr err fr1 seg Ha Hb T
                 |a fb fr fb' fr1 seg segs c fr2 Ha Hb T HI IH];
    intros Hne Hc; try congruence.
  - destruct (attemptBody_last _ _ _ _ _ _ Hb) as (At & Hrest);
      [left; reflexivity|]. rewrite At. exact Hrest.
  - destruct segs as [|s segs'].
    + inversion HI; subst.
      destruct (attemptBody_last _ _ _ _ _ _ Hb) as (At & Hrest);
        [right; lia|]. rewrite At. exact Hrest.
    + apply IH; [discriminate|exact Hc].
Qed.

Lemma firstShotAttempt_last (prompt : string) (fr fr' : Frame) :
  firstShotAttempt E R evalName prompt testFiles fr = (Normal tt, fr') →
  build (result fr') = exitOk (bunRunBuild R 1) ∧
  lint (result fr') = exitOk (ultraciteCheck R 1) ∧
  tests (result fr') =
    (if 0 <? length testFiles then exitOk (vitestRun R 1) else true).
Proof.
  intros H. run_body H.
  all: use_cases; unfold exitOk; use_cases.
  all: repeat split; reflexivity.
Qed.

End LastAttempt.

(** X20.  A record without error holds the gate results of one and the
    same attempt, the last one: [build], [lint] and [tests] say whether
    the build, the lint and the tests of attempt number [attempts] exited
    with status 0 ([tests] being set when there are no test files).
    Although the fields are not reset between attempts and an attempt
    before the last skips the gates behind a failing one, no result of
    an earlier attempt is left in such a record. *)
Theorem record_holds_gates_of_last_attempt (E : Env) (fullMode : bool)
    (evalName : string) (debug : bool) (w w' : World) (r : EvalResult) :
  (if fullMode then runEvalFull E evalName debug w
   else runEval E evalName debug w) = (Normal r, w') →
  error r = None →
  build r = exitOk (bunRunBuild (run E evalName) (attempts r)) ∧
  lint r = exitOk (ultraciteCheck (run E evalName) (attempts r)) ∧
  tests r =
    (if 0 <? length (getEvalTestFiles E evalName)
     then exitOk (vitestRun (run E evalName) (attempts r)) else true).
Proof.
  destruct fullMode; intros H Herr.
  - destruct (runEvalFull_anatomy E _ _ _ _ _ H)
      as (base & pre & segs & stop & c & fr & _ & _ & _ & _ & _ & _ & _ & _
          & _ & Hr & Hcase).
    assert (Hc : c = Normal tt).
    { destruct c as [[]|err]; [reflexivity|]. subst r. discriminate. }
    subst c.
    destruct Hcase as [(_ & _ & err & Hthrow)|(fr1 & Hr1 & HI)];
      [discriminate|].
    assert (Hsegs : segs ≠ []).
    { intros ->. inversion HI; subst; unfold MAX_FULL_ATTEMPTS in *; lia. }
    subst r. simpl.
    exact (Iterations_last _ _ _ _ _ _ _ _ _ _ _ HI Hsegs eq_refl).
  - destruct (runEval_inv E _ _ _ _ _ H)
      as (base & c & fr & _ & Htry & _ & _ & Hr).
    assert (Hc : c = Normal tt).
    { destruct c as [[]|err]; [reflexivity|]. subst r. discriminate. }
    subst c.
    destruct (firstShotTry_inv E _ _ _ _ _ _ _ Htry)
      as (pre & seg & _ & _ & _ & _ & At & _).
    cbn [world result newResult attempts] in At.
    subst r. simpl. rewrite At.
    revert Htry. unfold firstShotTry. unfold bind at 1. unfold liftW at 1.
    destruct (stage E (run E evalName) evalName _ _) as [[[]|err] w2];
      cbn [fst snd world result]; [|discriminate].
    apply firstShotAttempt_last.
Qed.

Lemma record_holds_gates_of_last_attempt_witness :
  runEvalFull brokenEnv "001-first" false world0 =
    (Normal (resultOf brokenFull), brokenFull.2) ∧
  error (resultOf brokenFull) = None ∧
  build (resultOf brokenFull) =
    exitOk (bunRunBuild (run brokenEnv "001-first")
              (attempts (resultOf brokenFull))) ∧
  lint (resultOf brokenFull) =
    exitOk (ultraciteCheck (run brokenEnv "001-first")
              (attempts (resultOf brokenFull))).
Proof.
  assert (Hrun : runEvalFull brokenEnv "001-first" false world0 =
                   (Normal (resultOf brokenFull), brokenFull.2))
    by (vm_compute; reflexivity).
  assert (Herr : error (resultOf brokenFull) = None)
    by (vm_compute; reflexivity).
  destruct (record_holds_gates_of_last_attempt brokenEnv true "001-first"
              false world0 _ _ Hrun Herr) as (Hb & Hl & _).
  exact (conj Hrun (conj Herr (conj Hb Hl))).
Defined.
